(** * Audit Intelligence Platform: retrieval core, access control and cache

    A shallow embedding of the Python sources under [src/] and the
    properties of the specification settled against it.

    Conventions.
    - A Python [dict] used as a map is a [gmap]; a dict whose insertion
      order is observed is an association list.
    - Code that can raise returns a [result]; code that mutates an object
      passes the object's state explicitly.
    - External collaborators (vector index, language model, re-ranker,
      Redis, document loaders, text splitters) are parameters of the
      sections that use them. *)

From Stdlib Require Import Ascii.
From stdpp Require Import gmap strings list fin_maps pretty.

Set Default Proof Using "Type".

(** ** Python values shared by the modules *)

(** The exceptions the modelled code raises or catches. *)
Inductive exn : Type :=
| HTTPException (status_code : Z) (detail : string)
| ValueError (msg : string)
| TypeError (msg : string)
| RetryError
| ConnectionError
| ResponseError (msg : string)
| ExternalError (msg : string).

Inductive result (A : Type) : Type :=
| Ok (a : A)
| Raise (e : exn).
Arguments Ok {A} a.
Arguments Raise {A} e.

Definition is_ok {A} (r : result A) : bool :=
  match r with Ok _ => true | Raise _ => false end.

(** [lst[:n]] for a Python int [n]: a negative bound counts from the end. *)
Definition py_slice_to {A} (l : list A) (n : Z) : list A :=
  if (0 <=? n)%Z then take (Z.to_nat n) l
  else take (Z.to_nat (Z.of_nat (length l) + n)) l.

(** A Python float, as its 64-bit IEEE 754 pattern. *)
Inductive pyfloat : Type := FloatBits (bits : Z).

#[global] Instance pyfloat_eq_dec : EqDecision pyfloat.
Proof. solve_decision. Defined.

Module PyFloat.

Definition bits_of (f : pyfloat) : Z := match f with FloatBits b => b end.

(** Exponent all ones and a mantissa that is not zero. *)
Definition is_nan (f : pyfloat) : bool :=
  (Z.land (Z.shiftr (bits_of f) 52) 2047 =? 2047)%Z
  && negb (Z.land (bits_of f) (2 ^ 52 - 1) =? 0)%Z.

(** [float('nan')]. *)
Definition nan : pyfloat := FloatBits 9221120237041090560.

(** Truth value of a float: both zeros are false. *)
Definition truthy (f : pyfloat) : bool :=
  negb ((bits_of f =? 0)%Z || (bits_of f =? 2 ^ 63)%Z).

End PyFloat.

(** A Python dict whose insertion order is observed. *)
Module PyDict.

(** [d[k] = v]: a known key keeps its place and takes the new value, a
    new key goes last. *)
Fixpoint set {K V} `{EqDecision K} (d : list (K * V)) (k : K) (v : V) : list (K * V) :=
  match d with
  | [] => [(k, v)]
  | (k', v') :: rest =>
      if bool_decide (k' = k) then (k', v) :: rest else (k', v') :: set rest k v
  end.

(** [d.get(k)]. *)
Fixpoint get {K V} `{EqDecision K} (d : list (K * V)) (k : K) : option V :=
  match d with
  | [] => None
  | (k', v') :: rest => if bool_decide (k' = k) then Some v' else get rest k
  end.

(** The dict built by inserting the items from left to right. *)
Definition of_items {K V} `{EqDecision K} (items : list (K * V)) : list (K * V) :=
  fold_left (fun d kv => set d kv.1 kv.2) items [].

End PyDict.

Module PyStr.

(** The line feed character as a string. *)
Definition nl : string := String (ascii_of_nat 10) EmptyString.

(** [s[:n]]. *)
Definition slice_to (n : nat) (s : string) : string := String.substring 0 n s.

(** [sep.join(parts)]. *)
Fixpoint join (sep : string) (parts : list string) : string :=
  match parts with
  | [] => EmptyString
  | [p] => p
  | p :: rest => p +:+ sep +:+ join sep rest
  end.

(** [str.lower()] on ASCII text: a byte outside A-Z is left as it
    is, so two strings with the same image here have the same image
    under Python's [lower], which also folds capitals outside ASCII. *)
Definition lower_ascii (c : ascii) : ascii :=
  let n := nat_of_ascii c in
  if (65 <=? n)%nat && (n <=? 90)%nat then ascii_of_nat (n + 32) else c.

Fixpoint lower (s : string) : string :=
  match s with
  | EmptyString => EmptyString
  | String c s' => String (lower_ascii c) (lower s')
  end.

(** The ASCII characters for which [str.isspace()] holds:
    tab, line feed, vertical tab, form feed, carriage return,
    the four separators 0x1c-0x1f and the space. *)
Definition is_space (c : ascii) : bool :=
  let n := nat_of_ascii c in
  ((9 <=? n)%nat && (n <=? 13)%nat)
  || ((28 <=? n)%nat && (n <=? 32)%nat).

Fixpoint lstrip (s : string) : string :=
  match s with
  | EmptyString => EmptyString
  | String c s' => if is_space c then lstrip s' else s
  end.

(** Strip at the right end: a character is dropped when it is a space
    and everything after it has been dropped. Python's [strip] also
    drops the white space outside ASCII. *)
Fixpoint rstrip (s : string) : string :=
  match s with
  | EmptyString => EmptyString
  | String c s' =>
      match rstrip s' with
      | EmptyString => if is_space c then EmptyString else String c EmptyString
      | r => String c r
      end
  end.

Definition strip (s : string) : string := rstrip (lstrip s).

(** [s.lstrip(c)] for a one-character [c]. *)
Fixpoint lstrip_chars (c : string) (s : string) : string :=
  match s with
  | EmptyString => EmptyString
  | String a s' => if bool_decide (String a EmptyString = c) then lstrip_chars c s' else s
  end.

(** Truth value of a string: only the empty string is false. *)
Definition truthy (s : string) : bool :=
  match s with EmptyString => false | _ => true end.

End PyStr.

(** ** src/security/access_control.py *)

Module AccessControl.

(** A value of [USER_ROLES]. *)
Record role_info : Type := RoleInfo {
  ri_name : string;
  ri_access_groups : list string;
}.

Definition USER_ROLES : gmap string role_info :=
  list_to_map
    [ ("admin", RoleInfo "Admin" ["GLOBAL_AUDIT"; "APAC_AUDIT"; "EMEA_AUDIT"; "ALL"]);
      ("apac_auditor", RoleInfo "APAC Auditor" ["APAC_AUDIT"; "GLOBAL_AUDIT"]);
      ("emea_auditor", RoleInfo "EMEA Auditor" ["EMEA_AUDIT"; "GLOBAL_AUDIT"]);
      ("viewer", RoleInfo "Viewer" ["GLOBAL_AUDIT"]) ].

(** The request as [get_current_user] sees it: the raw header list,
    names in lower case as the server hands them over. *)
Record Request : Type := MkRequest {
  headers : list (string * string);
}.

(** [request.headers[key]]: the first header whose name equals the
    lower-cased key. *)
Fixpoint headers_lookup (hs : list (string * string)) (key : string) : option string :=
  match hs with
  | [] => None
  | (k, v) :: hs' =>
      if bool_decide (k = PyStr.lower key) then Some v else headers_lookup hs' key
  end.

(** [request.headers.get(key, default)]. *)
Definition headers_get (hs : list (string * string)) (key dflt : string) : string :=
  default dflt (headers_lookup hs key).

(** The dict [{"role": role, **user}]. *)
Record user : Type := MkUser {
  role : string;
  name : string;
  access_groups : list string;
}.

(** [get_current_user]. Every value of [USER_ROLES] is a non-empty
    dict, so [not user] holds exactly when the lookup returned [None]. *)
Definition get_current_user (request : Request) : result user :=
  let role := headers_get (headers request) "X-User-Role" "admin" in
  match USER_ROLES !! role with
  | None => Raise (HTTPException 403 ("Unknown role: " +:+ role))
  | Some u => Ok (MkUser role (ri_name u) (ri_access_groups u))
  end.

(** A Qdrant filter as [build_access_filter] builds it: the empty dict,
    or a [must] list of [match any] conditions on one payload key. *)
Record match_any : Type := MatchAny {
  ma_key : string;
  ma_any : list string;
}.

Inductive qfilter : Type :=
| FilterEmpty
| FilterMust (conds : list match_any).

(** [build_access_filter]. *)
Definition build_access_filter (u : user) : qfilter :=
  if bool_decide ("ALL" ∈ access_groups u) then FilterEmpty
  else FilterMust [MatchAny "access_group" (access_groups u)].

End AccessControl.

(** ** src/config.py *)

Module Config.

(** The fields of [Settings] the modelled code reads. *)
Record Settings : Type := MkSettings {
  openai_model : string;
  cache_ttl_seconds : Z;
  cohere_api_key : string;
  parent_chunk_size : Z;
  child_chunk_size : Z;
  retrieval_top_k : Z;
  rerank_top_n : Z;
}.

(** The defaults of the class body. *)
Definition default_settings : Settings :=
  {| openai_model := "gpt-4o-mini";
     cache_ttl_seconds := 3600;
     cohere_api_key := "";
     parent_chunk_size := 1500;
     child_chunk_size := 200;
     retrieval_top_k := 20;
     rerank_top_n := 5 |}.

End Config.

(** ** LangChain documents and the vector index *)

Module Doc.

(** [langchain_core.documents.Document]. Metadata values are kept as
    text. *)
Record Document : Type := MkDocument {
  page_content : string;
  metadata : gmap string string;
}.

(** [doc.metadata[k] = v]. *)
Definition set_meta (d : Document) (k v : string) : Document :=
  MkDocument (page_content d) (<[k := v]> (metadata d)).

(** [doc.metadata.get(k, dflt)]. *)
Definition meta_get (d : Document) (k dflt : string) : string :=
  default dflt (metadata d !! k).

End Doc.

Module VectorStore.
Import Doc AccessControl.

(** Whether a point's payload satisfies a [match any] condition. *)
Definition cond_accepts (c : match_any) (d : Document) : bool :=
  match metadata d !! ma_key c with
  | Some v => bool_decide (v ∈ ma_any c)
  | None => false
  end.

(** Whether a point passes the filter of a search; a search without a
    filter takes every point. *)
Definition accepts (f : option qfilter) (d : Document) : bool :=
  match f with
  | None => true
  | Some FilterEmpty => true
  | Some (FilterMust conds) => forallb (fun c => cond_accepts c d) conds
  end.

(** The [search_kwargs] of a retriever made by [as_retriever]. *)
Record Retriever : Type := MkRetriever {
  search_k : Z;
  search_filter : option qfilter;
}.

Section Search.
(** The index's ranking: the points of the collection ordered by
    decreasing similarity to the query. *)
Variable rank : string -> list Document -> list Document.

(** [search(vector, k, filter)]: the [k] best points among those the
    filter accepts. *)
Definition similarity_search (points : list Document) (query : string)
    (k : Z) (f : option qfilter) : list Document :=
  take (Z.to_nat k) (filter (fun d => accepts f d = true) (rank query points)).

(** [retriever.invoke(question)]. *)
Definition invoke (r : Retriever) (points : list Document) (question : string)
    : list Document :=
  similarity_search points question (search_k r) (search_filter r).
End Search.

End VectorStore.

(** ** src/services/document_processor.py *)

Module DocumentProcessor.
Import Doc VectorStore Config.

(** [get_retriever]: the only search argument is [k]. *)
Definition get_retriever (settings : Settings) : Retriever :=
  {| search_k := retrieval_top_k settings; search_filter := None |}.

Section Ingest.
(** [load_document] and the chunk splitter. *)
Variable load_document : string -> result (list Document).
Variable split_documents : list Document -> list Document.

(** [ingest_file] on the collection's points; returns the chunk count
    with the new collection. *)
Definition ingest_file (file_path : string) (points : list Document)
    : result (nat * list Document) :=
  match load_document file_path with
  | Raise e => Raise e
  | Ok documents =>
      let chunks := split_documents documents in
      let points' :=
        match chunks with
        | [] => points
        | _ => points ++ chunks
        end in
      Ok (length chunks, points')
  end.
End Ingest.

End DocumentProcessor.

(** ** src/services/parent_child_retriever.py *)

Module ParentChildRetriever.
Import Doc.

Section Chunks.
(** The two text splitters on one document, and the [uuid4] supply:
    the n-th identifier handed out. *)
Variable parent_split : Document -> list Document.
Variable child_split : Document -> list Document.
Variable uuid4 : nat -> string.

(** The loop over the parents of one document. *)
Fixpoint add_parents (parents : list Document)
    (parent_store : gmap string Document) (n : nat)
    (all_children : list Document)
    : gmap string Document * nat * list Document :=
  match parents with
  | [] => (parent_store, n, all_children)
  | parent :: rest =>
      let parent_id := uuid4 n in
      let parent := set_meta parent "parent_id" parent_id in
      let parent_store := <[parent_id := parent]> parent_store in
      let children := child_split parent in
      let children := map (fun child => set_meta child "parent_id" parent_id) children in
      add_parents rest parent_store (S n) (all_children ++ children)
  end.

(** The loop over the documents. *)
Fixpoint add_documents (documents : list Document)
    (parent_store : gmap string Document) (n : nat)
    (all_children : list Document)
    : gmap string Document * nat * list Document :=
  match documents with
  | [] => (parent_store, n, all_children)
  | doc :: rest =>
      let '(parent_store, n, all_children) :=
        add_parents (parent_split doc) parent_store n all_children in
      add_documents rest parent_store n all_children
  end.

(** [create_parent_child_chunks]: the children, the parents of the
    store (in the map's enumeration order), the new store and the
    number of identifiers used so far. *)
Definition create_parent_child_chunks (documents : list Document)
    (parent_store : gmap string Document) (n : nat)
    : (list Document * list Document) * gmap string Document * nat :=
  let '(parent_store, n, all_children) :=
    add_documents documents parent_store n [] in
  ((all_children, (map_to_list parent_store).*2), parent_store, n).
End Chunks.

(** The loop of [get_parents_for_children], with its two accumulators.
    A stored [Document] is always true, so [if parent] tests that the
    lookup found one. *)
Fixpoint parents_loop (parent_store : gmap string Document)
    (child_docs : list Document) (seen_parent_ids : gset string)
    (parents : list Document) : list Document :=
  match child_docs with
  | [] => parents
  | child :: rest =>
      match metadata child !! "parent_id" with
      | Some parent_id =>
          if PyStr.truthy parent_id && bool_decide (parent_id ∉ seen_parent_ids) then
            match parent_store !! parent_id with
            | Some parent =>
                parents_loop parent_store rest
                  ({[parent_id]} ∪ seen_parent_ids) (parents ++ [parent])
            | None => parents_loop parent_store rest seen_parent_ids parents
            end
          else parents_loop parent_store rest seen_parent_ids parents
      | None => parents_loop parent_store rest seen_parent_ids parents
      end
  end.

(** [get_parents_for_children]. *)
Definition get_parents_for_children (parent_store : gmap string Document)
    (child_docs : list Document) : list Document :=
  parents_loop parent_store child_docs ∅ [].

End ParentChildRetriever.

(** ** Stateful code that can raise

    A computation reads and changes a state and ends with a value or with
    a raised exception; the state at the moment of the raise is kept, as
    a mutation made before a Python exception stays visible afterwards. *)

Module Exec.

Definition M (S A : Type) : Type := S -> result A * S.

Definition ret {S A} (a : A) : M S A := fun s => (Ok a, s).

Definition raise {S A} (e : exn) : M S A := fun s => (Raise e, s).

Definition bind {S A B} (m : M S A) (k : A -> M S B) : M S B :=
  fun s =>
    match m s with
    | (Ok a, s') => k a s'
    | (Raise e, s') => (Raise e, s')
    end.

(** [try: m except Exception as e: h e]. *)
Definition try_except {S A} (m : M S A) (h : exn -> M S A) : M S A :=
  fun s =>
    match m s with
    | (Ok a, s') => (Ok a, s')
    | (Raise e, s') => h e s'
    end.

Definition get {S} : M S S := fun s => (Ok s, s).
Definition put {S} (s : S) : M S unit := fun _ => (Ok tt, s).
Definition modify {S} (f : S -> S) : M S unit := fun s => (Ok tt, f s).

(** Lift a result computed outside the state. *)
Definition lift {S A} (r : result A) : M S A := fun s => (r, s).

(** tenacity's [retry(stop=stop_after_attempt(n))]: run the call again
    after an exception, and raise [RetryError] once [n] attempts have
    failed. The waits between attempts are not part of the state. *)
Fixpoint retry {S A} (attempts : nat) (m : M S A) : M S A :=
  match attempts with
  | O => raise RetryError
  | S n => try_except m (fun _ => retry n m)
  end.

End Exec.

#[global] Instance exec_ret {S} : MRet (Exec.M S) := fun A a => Exec.ret a.
#[global] Instance exec_bind {S} : MBind (Exec.M S) := fun A B k m => Exec.bind m k.

(** ** src/services/advanced_retrieval.py *)

Module AdvancedRetrieval.
Import Doc Config Exec.

(** The attributes of the service that [retrieve] reads: the parent
    store of the [ParentChildRetriever] when one was given, and whether
    a re-ranker was built. *)
Record Service : Type := MkService {
  parent_child : option (gmap string Document);
  reranker : bool;
}.

(** [__init__]: the re-ranker exists when an API key is configured and
    its constructor did not raise. *)
Definition new (settings : Settings) (parent_child_retriever : option (gmap string Document))
    (cohere_constructs : bool) : Service :=
  {| parent_child := parent_child_retriever;
     reranker := PyStr.truthy (cohere_api_key settings) && cohere_constructs |}.

Section Retrieve.
Variable settings : Settings.

(** The external calls. The state is the number of external calls
    made so far, and the outcome of a call depends on it: a service
    may fail on one attempt and answer on the next. *)
Variable multi_query_invoke : nat -> string -> result (list Document).
Variable base_invoke : nat -> string -> result (list Document).
(** [ContextualCompressionRetriever.invoke]: a fresh base search
    followed by the re-ranker. *)
Variable rerank_invoke : nat -> string -> result (list Document).

Definition call (service : nat -> string -> result (list Document))
    (question : string) : M nat (list Document) :=
  fun t => (service t question, S t).

(** The decorated body of [_retrieve_with_retry]. *)
Definition _retrieve_once (question : string) (use_multi_query : bool)
    : M nat (list Document) :=
  if use_multi_query then call multi_query_invoke question
  else call base_invoke question.

(** [_retrieve_with_retry], three attempts. *)
Definition _retrieve_with_retry (question : string) (use_multi_query : bool)
    : M nat (list Document) :=
  retry 3 (_retrieve_once question use_multi_query).

(** Step 1 of [retrieve]; [None] is the early [return []]. *)
Definition retrieve_candidates (question : string) (use_multi_query : bool)
    : M nat (option (list Document)) :=
  try_except
    (docs ← _retrieve_with_retry question use_multi_query;
     ret (Some docs))
    (fun _ =>
       try_except
         (docs ← call base_invoke question; ret (Some docs))
         (fun _ => ret None)).

(** Step 2 of [retrieve]. *)
Definition rerank_step (self : Service) (question : string)
    (use_reranking : bool) (docs : list Document) : M nat (list Document) :=
  if use_reranking && reranker self && (0 <? length docs)%nat then
    try_except
      (call rerank_invoke question)
      (fun _ => ret (py_slice_to docs (rerank_top_n settings)))
  else ret docs.

(** Step 3 of [retrieve]. *)
Definition parent_step (self : Service) (use_parent_child : bool)
    (docs : list Document) : M nat (list Document) :=
  if use_parent_child then
    match parent_child self with
    | Some parent_store =>
        try_except
          (let parent_docs :=
             ParentChildRetriever.get_parents_for_children parent_store docs in
           match parent_docs with
           | [] => ret docs
           | _ => ret parent_docs
           end)
          (fun _ => ret docs)
    | None => ret docs
    end
  else ret docs.

(** [retrieve]. *)
Definition retrieve (self : Service) (question : string)
    (use_reranking use_multi_query use_parent_child : bool)
    : M nat (list Document) :=
  candidates ← retrieve_candidates question use_multi_query;
  match candidates with
  | None => ret []
  | Some docs =>
      docs ← rerank_step self question use_reranking docs;
      docs ← parent_step self use_parent_child docs;
      ret docs
  end.
End Retrieve.

End AdvancedRetrieval.

(** ** src/services/langchain_orchestrator.py *)

Module LangChainOrchestrator.
Import Doc Config Exec.

Definition MAX_HISTORY : nat := 5.

(** [lst[-n:]] for a positive [n]. *)
Definition last_n {A} (n : nat) (l : list A) : list A := drop (length l - n) l.

Record exchange : Type := MkExchange {
  ex_question : string;
  ex_answer : string;
}.

Inductive message : Type :=
| HumanMessage (content : string)
| AIMessage (content : string).

(** The conversation store, and the identifiers [uuid4] handed out. *)
Record State : Type := MkState {
  conversations : gmap string (list exchange);
  uuids_used : nat;
}.

(** An entry of the [sources] list. *)
Record source : Type := MkSource {
  src_content : string;
  src_source : string;
  src_file_type : string;
  src_page : option string;
  src_sheet_name : option string;
  src_slide_number : option string;
}.

(** The dict [ask] returns. *)
Record Answer : Type := MkAnswer {
  answer : string;
  sources : list source;
  conversation_id : string;
  processing_time_ms : pyfloat;
  model_used : string;
}.

(** [_format_docs], numbering from [i]. *)
Fixpoint format_from (i : nat) (docs : list Document) : list string :=
  match docs with
  | [] => []
  | doc :: rest =>
      let source := meta_get doc "filename" (meta_get doc "source" "Unknown") in
      let label := "[Source " +:+ pretty i +:+ ": " +:+ source +:+ "]" in
      (label +:+ PyStr.nl +:+ page_content doc) :: format_from (S i) rest
  end.

Definition _format_docs (docs : list Document) : string :=
  PyStr.join (PyStr.nl +:+ PyStr.nl +:+ "---" +:+ PyStr.nl +:+ PyStr.nl)
    (format_from 1 docs).

(** [_get_history]. *)
Definition _get_history (st : State) (conversation_id : string) : list message :=
  let history := default [] (conversations st !! conversation_id) in
  flat_map (fun entry => [HumanMessage (ex_question entry); AIMessage (ex_answer entry)])
    (last_n MAX_HISTORY history).

(** The documents handed to the prompt: the parents of the retrieved
    chunks when a parent store is there and resolves any. *)
Definition context_docs (parent_child : option (gmap string Document))
    (retrieved_docs : list Document) : list Document :=
  match parent_child with
  | Some parent_store =>
      match ParentChildRetriever.get_parents_for_children parent_store retrieved_docs with
      | [] => retrieved_docs
      | parents => parents
      end
  | None => retrieved_docs
  end.

Definition source_of (doc : Document) : source :=
  {| src_content := PyStr.slice_to 300 (page_content doc);
     src_source := meta_get doc "filename" "Unknown";
     src_file_type := meta_get doc "file_type" "unknown";
     src_page := metadata doc !! "page";
     src_sheet_name := metadata doc !! "sheet_name";
     src_slide_number := metadata doc !! "slide_number" |}.

Section Ask.
Variable settings : Settings.
(** [self.retriever.invoke], the prompt chain and the [uuid4] supply;
    the measured time is read from the clock. *)
Variable retriever_invoke : string -> result (list Document).
Variable chain_invoke : string -> list message -> string -> result string.
Variable uuid4 : nat -> string.
Variable elapsed_ms : pyfloat.

Definition mint : M State string :=
  fun st =>
    let c := uuid4 (uuids_used st) in
    (Ok c, {| conversations := <[c := []]> (conversations st);
              uuids_used := S (uuids_used st) |}).

(** The first statement of [ask]. *)
Definition manage_conversation (conversation_id : option string) : M State string :=
  st ← get;
  match conversation_id with
  | Some c =>
      if PyStr.truthy c && bool_decide (is_Some (conversations st !! c))
      then ret c else mint
  | None => mint
  end.

(** Append the exchange and keep the last [MAX_HISTORY] entries. *)
Definition save_exchange (c : string) (e : exchange) (st : State) : State :=
  let history := default [] (conversations st !! c) ++ [e] in
  let history :=
    if (MAX_HISTORY <? length history)%nat then last_n MAX_HISTORY history
    else history in
  {| conversations := <[c := history]> (conversations st);
     uuids_used := uuids_used st |}.

(** [ask], with the parent store as it is at the call. *)
Definition ask (parent_child : option (gmap string Document))
    (question : string) (conversation_id : option string) : M State Answer :=
  conversation_id ← manage_conversation conversation_id;
  retrieved_docs ← lift (retriever_invoke question);
  let context := _format_docs (context_docs parent_child retrieved_docs) in
  st ← get;
  let history := _get_history st conversation_id in
  answer ← lift (chain_invoke context history question);
  _ ← modify (save_exchange conversation_id (MkExchange question answer));
  ret {| answer := answer;
         sources := map source_of (take 5 retrieved_docs);
         conversation_id := conversation_id;
         processing_time_ms := elapsed_ms;
         model_used := openai_model settings |}.
End Ask.

End LangChainOrchestrator.

(** ** src/services/llamaindex_multi_engine.py *)

Module MultiIndexEngine.

(** A document dict handed to [add_documents]. *)
Record LlamaDoc : Type := MkLlamaDoc {
  content : string;
  doc_metadata : option (gmap string string);
}.

Record TextNode : Type := MkTextNode {
  text : string;
  node_metadata : gmap string string;
}.

(** A [VectorStoreIndex] is the list of nodes it was built from; the
    query engine of an index is the index it reads. *)
Definition VectorStoreIndex : Type := list TextNode.

Record QueryEngineTool : Type := MkTool {
  tool_engine : VectorStoreIndex;
  tool_description : string;
}.

(** The engines [query] can pick. *)
Inductive engine : Type :=
| IndexQueryEngine (index : VectorStoreIndex)
| RouterQueryEngine (tools : list QueryEngineTool)
| SubQuestionQueryEngine (tools : list QueryEngineTool).

(** The attributes of the object. [query_engines] keeps the insertion
    order of the dict, which [query] observes. *)
Record State : Type := MkState {
  indexes : gmap string (option VectorStoreIndex);
  query_engines : list (string * VectorStoreIndex);
  router_engine : option engine;
  sub_question_engine : option engine;
}.

(** [__init__]. *)
Definition init : State :=
  {| indexes := list_to_map [("audit", None); ("policy", None); ("financial", None)];
     query_engines := [];
     router_engine := None;
     sub_question_engine := None |}.

Definition descriptions : gmap string string :=
  list_to_map
    [ ("audit", "Audit reports, findings, observations, risk assessments, and remediation status");
      ("policy", "Compliance policies, regulations, procedures, and governance frameworks");
      ("financial", "Financial data, budgets, cost allocations, and financial tracking spreadsheets") ].

Definition tool_of (entry : string * VectorStoreIndex) : QueryEngineTool :=
  {| tool_engine := entry.2;
     tool_description :=
       default ("Documents in the " +:+ entry.1 +:+ " collection") (descriptions !! entry.1) |}.

(** [_rebuild_engines]. *)
Definition _rebuild_engines (st : State) : State :=
  let tools := map tool_of (query_engines st) in
  if (2 <=? length tools)%nat then
    {| indexes := indexes st;
       query_engines := query_engines st;
       router_engine := Some (RouterQueryEngine tools);
       sub_question_engine := Some (SubQuestionQueryEngine tools) |}
  else st.

Definition node_of (doc : LlamaDoc) : TextNode :=
  {| text := content doc; node_metadata := default ∅ (doc_metadata doc) |}.

(** The text of [list(self.indexes.keys())]: the keys are the three
    that [__init__] inserts, in its order, and no method adds or removes
    one. *)
Definition index_keys_repr : string := "['audit', 'policy', 'financial']".

(** [add_documents], on the path on which the index constructor and
    [as_query_engine] return. Embedding the nodes is their external
    work; a failure there is not modelled, so what is proved of a call
    is proved of a call that returns. *)
Definition add_documents (documents : list LlamaDoc) (index_name : string)
    (st : State) : result State :=
  if bool_decide (is_Some (indexes st !! index_name)) then
    let nodes := map node_of documents in
    let index : VectorStoreIndex := nodes in
    Ok (_rebuild_engines
          {| indexes := <[index_name := Some index]> (indexes st);
             query_engines := PyDict.set (query_engines st) index_name index;
             router_engine := router_engine st;
             sub_question_engine := sub_question_engine st |})
  else
    Raise (ValueError ("Unknown index: " +:+ index_name
                       +:+ ". Use: " +:+ index_keys_repr)).

Record NodeWithScore : Type := MkNodeWithScore {
  nws_text : string;
  nws_metadata : gmap string string;
  nws_score : option pyfloat;
}.

Record Response : Type := MkResponse {
  response_str : string;
  source_nodes : list NodeWithScore;
}.

(** An entry of the [sources] list of [query]. *)
Record source : Type := MkSource {
  src_content : string;
  src_source : string;
  src_file_type : string;
  src_relevance_score : option pyfloat;
}.

(** The dict [query] returns. *)
Record QueryResult : Type := MkQueryResult {
  answer : string;
  sources : list source;
}.

Definition no_documents : QueryResult :=
  {| answer := "No documents indexed yet."; sources := [] |}.

Section Query.
(** [engine.query] and the built-in [round]. *)
Variable engine_query : engine -> string -> result Response.
Variable round_float : pyfloat -> Z -> pyfloat.

Definition source_of (node : NodeWithScore) : source :=
  {| src_content :=
       if (300 <? String.length (nws_text node))%nat
       then PyStr.slice_to 300 (nws_text node) +:+ "..."
       else nws_text node;
     src_source := default "Unknown" (nws_metadata node !! "filename");
     src_file_type := default "unknown" (nws_metadata node !! "file_type");
     src_relevance_score :=
       match nws_score node with
       | Some score =>
           if PyFloat.truthy score then Some (round_float score 4) else None
       | None => None
       end |}.

(** The engine [query] settles on. *)
Definition select_engine (st : State) (engine_type : string) : option engine :=
  match (if bool_decide (engine_type = "sub_question")
         then sub_question_engine st else None) with
  | Some e => Some e
  | None =>
      match router_engine st with
      | Some e => Some e
      | None =>
          match query_engines st with
          | (_, index) :: _ => Some (IndexQueryEngine index)
          | [] => None
          end
      end
  end.

(** [query]. *)
Definition query (st : State) (question : string) (engine_type : string)
    : result QueryResult :=
  match select_engine st engine_type with
  | None => Ok no_documents
  | Some engine =>
      match engine_query engine question with
      | Raise e => Raise e
      | Ok response =>
          Ok {| answer := response_str response;
                sources := map source_of (source_nodes response) |}
      end
  end.
End Query.

End MultiIndexEngine.

(** ** The json module, on documents

    [json.dumps] turns a Python value into a JSON document and
    [json.loads] a document into a Python value. The text between the two
    is represented by the document it denotes: the printer and the parser
    of the standard library are inverse to each other on documents, and
    the text of a document is never the empty string. *)

Module Json.

(** The keys of a dict: strings, the other keys the encoder writes as
    text (a float key is not modelled), and all it rejects. *)
Inductive pykey : Type :=
| KStr (s : string)
| KInt (n : Z)
| KBool (b : bool)
| KNone
| KOther (str : string).

#[global] Instance pykey_eq_dec : EqDecision pykey.
Proof. solve_decision. Defined.

#[local] Set Warnings "-register-all".

(** Python values. A dict is its items in insertion order; [PObject]
    is any value the encoder has no rule for, with its [str()]. *)
Inductive pyval : Type :=
| PNone
| PBool (b : bool)
| PInt (n : Z)
| PFloat (f : pyfloat)
| PStr (s : string)
| PList (items : list pyval)
| PTuple (items : list pyval)
| PDict (items : list (pykey * pyval))
| PObject (str : string).

Inductive json : Type :=
| JNull
| JBool (b : bool)
| JInt (n : Z)
| JFloat (f : pyfloat)
| JNaN
| JStr (s : string)
| JArray (elements : list json)
| JObject (members : list (string * json)).

(** All results, or the first exception. *)
Fixpoint sequence {A} (l : list (result A)) : result (list A) :=
  match l with
  | [] => Ok []
  | Ok a :: rest =>
      match sequence rest with
      | Ok l' => Ok (a :: l')
      | Raise e => Raise e
      end
  | Raise e :: _ => Raise e
  end.

(** The member name the encoder writes for a key. *)
Definition dumps_key (k : pykey) : result string :=
  match k with
  | KStr s => Ok s
  | KInt n => Ok (pretty n)
  | KBool true => Ok "true"
  | KBool false => Ok "false"
  | KNone => Ok "null"
  | KOther str => Raise (TypeError "keys must be str, int, float, bool or None")
  end.

Definition dumps_member (m : result string * result json) : result (string * json) :=
  match m with
  | (Ok k, Ok j) => Ok (k, j)
  | (Raise e, _) => Raise e
  | (_, Raise e) => Raise e
  end.

(** [json.dumps(v, default=str)]. *)
Fixpoint dumps (v : pyval) : result json :=
  match v with
  | PNone => Ok JNull
  | PBool b => Ok (JBool b)
  | PInt n => Ok (JInt n)
  | PFloat f => Ok (if PyFloat.is_nan f then JNaN else JFloat f)
  | PStr s => Ok (JStr s)
  | PList items | PTuple items =>
      match sequence (map dumps items) with
      | Ok js => Ok (JArray js)
      | Raise e => Raise e
      end
  | PDict items =>
      match sequence (map (fun kv => dumps_member (dumps_key kv.1, dumps kv.2)) items) with
      | Ok ms => Ok (JObject ms)
      | Raise e => Raise e
      end
  | PObject str => Ok (JStr str)
  end.

(** [json.loads]. *)
Fixpoint loads (j : json) : pyval :=
  match j with
  | JNull => PNone
  | JBool b => PBool b
  | JInt n => PInt n
  | JFloat f => PFloat f
  | JNaN => PFloat PyFloat.nan
  | JStr s => PStr s
  | JArray elements => PList (map loads elements)
  | JObject members =>
      PDict (PyDict.of_items (map (fun m => (KStr m.1, loads m.2)) members))
  end.

Definition is_str_key (k : pykey) : bool :=
  match k with KStr _ => true | _ => false end.

(** The values JSON has a form of its own for: no tuple, no foreign
    object, string keys, and no NaN but [float('nan')]. The keys of a
    dict are distinct, as in every Python dict. *)
Fixpoint json_native (v : pyval) : bool :=
  match v with
  | PNone | PBool _ | PInt _ | PStr _ => true
  | PFloat f => negb (PyFloat.is_nan f) || bool_decide (f = PyFloat.nan)
  | PList items => forallb json_native items
  | PTuple _ => false
  | PDict items =>
      forallb (fun kv => is_str_key kv.1 && json_native kv.2) items
      && bool_decide (NoDup items.*1)
  | PObject _ => false
  end.

(** Truth value of a Python value. *)
Definition truthy (v : pyval) : bool :=
  match v with
  | PNone => false
  | PBool b => b
  | PInt n => negb (n =? 0)%Z
  | PFloat f => PyFloat.truthy f
  | PStr s => PyStr.truthy s
  | PList items | PTuple items => negb (bool_decide (items = []))
  | PDict items => negb (bool_decide (items = []))
  | PObject _ => true
  end.

End Json.

(** ** The Redis server, as the cache uses it *)

Module Redis.
Import Json Exec.

(** A stored value with the time at which it expires. *)
Record entry : Type := MkEntry {
  value : json;
  expires_at : Z;
}.

(** The server: whether it answers, and its keys. *)
Record Client : Type := MkClient {
  reachable : bool;
  data : gmap string entry;
}.

Definition live (now : Z) (e : entry) : bool := (now <? expires_at e)%Z.

(** Every command raises when the server does not answer. *)
Definition command {A} (m : M Client A) : M Client A :=
  fun c => if reachable c then m c else (Raise ConnectionError, c).

(** [GET key] at time [now]. *)
Definition get (now : Z) (key : string) : M Client (option json) :=
  command (fun c =>
    (Ok (match data c !! key with
         | Some e => if live now e then Some (value e) else None
         | None => None
         end), c)).

(** [SETEX key ttl value] at time [now]. *)
Definition setex (now : Z) (key : string) (ttl : Z) (v : json) : M Client unit :=
  command (fun c =>
    if (0 <? ttl)%Z then
      (Ok tt, {| reachable := reachable c;
                 data := <[key := MkEntry v (now + ttl)]> (data c) |})
    else (Raise (ResponseError "invalid expire time in 'setex' command"), c)).

Definition matches (now : Z) (pre : string) (kv : string * entry) : Prop :=
  String.prefix pre kv.1 = true ∧ live now kv.2 = true.

#[global] Instance matches_dec now pre kv : Decision (matches now pre kv).
Proof. unfold matches. apply _. Defined.

(** [KEYS pre*] at time [now]. *)
Definition keys (now : Z) (pre : string) : M Client (list string) :=
  command (fun c => (Ok (map_to_list (filter (matches now pre) (data c))).*1, c)).

(** [DEL key ...]. *)
Definition delete (ks : list string) : M Client unit :=
  command (fun c =>
    (Ok tt, {| reachable := reachable c;
               data := foldr (fun k m => base.delete k m) (data c) ks |})).

End Redis.

(** ** src/services/cache_service.py *)

Module CacheService.
Import Json Exec Config.

(** The attributes [__init__] leaves: [enabled] is whether the ping
    at start-up was answered. *)
Record t : Type := MkCache {
  enabled : bool;
  ttl : Z;
}.

Definition new (settings : Settings) (ping_answered : bool) : t :=
  {| enabled := ping_answered; ttl := cache_ttl_seconds settings |}.

Section Ops.
(** [hashlib.sha256(bytes).hexdigest()]. *)
Variable sha256_hexdigest : string -> string.

(** [_make_key]. A string is its UTF-8 bytes, so [encode] is the
    identity; a Python string without a UTF-8 encoding (a lone
    surrogate), on which [encode] raises, is no value of the type. *)
Definition _make_key (question : string) : string :=
  let normalised := PyStr.strip (PyStr.lower question) in
  let question_hash := PyStr.slice_to 16 (sha256_hexdigest normalised) in
  "rag_cache:" +:+ question_hash.

(** [get] at time [now]. *)
Definition get (self : t) (now : Z) (question : string) : M Redis.Client (option pyval) :=
  if negb (enabled self) then ret None
  else
    try_except
      (let key := _make_key question in
       cached ← Redis.get now key;
       match cached with
       | Some text => ret (Some (loads text))
       | None => ret None
       end)
      (fun _ => ret None).

(** [set] at time [now]. *)
Definition set (self : t) (now : Z) (question : string) (result : pyval)
    : M Redis.Client unit :=
  if negb (enabled self) then ret tt
  else
    try_except
      (let key := _make_key question in
       text ← lift (dumps result);
       Redis.setex now key (ttl self) text)
      (fun _ => ret tt).

(** [clear] at time [now]. *)
Definition clear (self : t) (now : Z) : M Redis.Client unit :=
  if negb (enabled self) then ret tt
  else
    try_except
      (keys ← Redis.keys now "rag_cache:";
       match keys with
       | [] => ret tt
       | _ => Redis.delete keys
       end)
      (fun _ => ret tt).
End Ops.

(** The dict [get_stats] returns; [ttl_seconds] is there only when the
    keys could be counted. *)
Record Stats : Type := MkStats {
  stats_enabled : bool;
  cached_entries : nat;
  ttl_seconds : option Z;
}.

(** [get_stats] at time [now]. *)
Definition get_stats (settings : Settings) (self : t) (now : Z) : M Redis.Client Stats :=
  if negb (enabled self) then ret (MkStats false 0 None)
  else
    try_except
      (keys ← Redis.keys now "rag_cache:";
       ret (MkStats true (length keys) (Some (cache_ttl_seconds settings))))
      (fun _ => ret (MkStats false 0 None)).

End CacheService.

(** ** os.path, for POSIX paths *)

Module PyPath.

Definition is_dot (c : ascii) : bool := bool_decide (c = "."%char).
Definition is_sep (c : ascii) : bool := bool_decide (c = "/"%char).

(** Whether a string has a character for which [p] holds. *)
Fixpoint has (p : ascii -> bool) (s : string) : bool :=
  match s with
  | EmptyString => false
  | String c s' => p c || has p s'
  end.

(** What follows the last separator: the whole path when it has none. *)
Fixpoint basename (s : string) : string :=
  match s with
  | EmptyString => EmptyString
  | String c s' =>
      if has is_sep s' then basename s'
      else if is_sep c then s' else s
  end.

(** The string from its last dot on, empty when it has no dot. *)
Fixpoint from_last_dot (s : string) : string :=
  match s with
  | EmptyString => EmptyString
  | String c s' =>
      if has is_dot s' then from_last_dot s'
      else if is_dot c then s else EmptyString
  end.

Fixpoint skip_dots (s : string) : string :=
  match s with
  | EmptyString => EmptyString
  | String c s' => if is_dot c then skip_dots s' else s
  end.

(** [os.path.splitext(p)[1]]: the last dot of the last component and
    what follows it, unless only dots come before it in the component. *)
Definition splitext_ext (p : string) : string :=
  from_last_dot (skip_dots (basename p)).

Definition ends_with_sep (s : string) : bool :=
  match String.rev s with
  | String c _ => is_sep c
  | EmptyString => false
  end.

(** [os.path.join(a, b)]. *)
Definition join (a b : string) : string :=
  match b with
  | String c _ =>
      if is_sep c then b
      else if PyStr.truthy a && negb (ends_with_sep a) then a +:+ "/" +:+ b
      else a +:+ b
  | EmptyString =>
      if PyStr.truthy a && negb (ends_with_sep a) then a +:+ "/" else a
  end.

End PyPath.

(** ** src/loaders/router.py *)

Module LoaderRouter.
Import Doc.

(** The loader functions of the four formats. *)
Inductive loader : Type := load_pdf | load_docx | load_xlsx | load_pptx.

Definition LOADER_REGISTRY : list (string * loader) :=
  [ (".pdf", load_pdf); (".docx", load_docx); (".xlsx", load_xlsx); (".pptx", load_pptx) ].

Section Load.
(** [os.path.exists], the read of a text file as UTF-8, and the run of
    a format loader on a path. *)
Variable path_exists : string -> bool.
Variable read_text : string -> result string.
Variable run_loader : loader -> string -> result (list Document).

(** [load_document]. The [FileNotFoundError] of a missing file is
    carried by [ExternalError]. *)
Definition load_document (file_path : string) : result (list Document) :=
  if negb (path_exists file_path) then
    Raise (ExternalError ("File not found: " +:+ file_path))
  else
    let ext := PyStr.lower (PyPath.splitext_ext file_path) in
    if bool_decide (ext ∈ [".txt"; ".md"]) then
      match read_text file_path with
      | Raise e => Raise e
      | Ok content =>
          Ok [MkDocument content
                {["source" := file_path; "file_type" := PyStr.lstrip_chars "." ext]}]
      end
    else
      match PyDict.get LOADER_REGISTRY ext with
      | None =>
          Raise (ValueError ("Unsupported file type: " +:+ ext
                             +:+ ". Supported types: .pdf, .docx, .xlsx, .pptx, .txt, .md"))
      | Some loader_func => run_loader loader_func file_path
      end.
End Load.

(** [get_supported_extensions]. *)
Definition get_supported_extensions : list string :=
  LOADER_REGISTRY.*1 ++ [".txt"; ".md"].

End LoaderRouter.

(** ** src/main.py *)

Module Main.
Import Doc Config Exec AccessControl Json.

Inductive ProcessingStatus : Type := PENDING | PROCESSING | COMPLETED | FAILED.

Inductive QueryEngine : Type := STANDARD | ROUTER | SUB_QUESTION.

(** A value of [document_registry]. *)
Record DocumentInfo : Type := MkDocumentInfo {
  document_id : string;
  filename : string;
  file_type : string;
  category : string;
  access_group : string;
  chunk_count : nat;
  status : ProcessingStatus;
  uploaded_at : string;
}.

(** The module's globals after start-up, with the state of the
    services they hold: the Qdrant collection, the engine of the
    category indexes, the parent store, the conversations and the
    Redis server behind the cache. *)
Record AppState : Type := MkApp {
  processing_jobs : gmap string ProcessingStatus;
  document_registry : gmap string DocumentInfo;
  points : list Document;
  multi_engine : MultiIndexEngine.State;
  parent_store : gmap string Document;
  orchestrator : LangChainOrchestrator.State;
  cache_service : option CacheService.t;
  redis : Redis.Client;
}.

Definition set_job (job_id : string) (s : ProcessingStatus) (st : AppState) : AppState :=
  MkApp (<[job_id := s]> (processing_jobs st)) (document_registry st) (points st)
    (multi_engine st) (parent_store st) (orchestrator st) (cache_service st) (redis st).

Definition set_registry (r : gmap string DocumentInfo) (st : AppState) : AppState :=
  MkApp (processing_jobs st) r (points st)
    (multi_engine st) (parent_store st) (orchestrator st) (cache_service st) (redis st).

Definition set_points (p : list Document) (st : AppState) : AppState :=
  MkApp (processing_jobs st) (document_registry st) p
    (multi_engine st) (parent_store st) (orchestrator st) (cache_service st) (redis st).

Definition set_multi_engine (m : MultiIndexEngine.State) (st : AppState) : AppState :=
  MkApp (processing_jobs st) (document_registry st) (points st)
    m (parent_store st) (orchestrator st) (cache_service st) (redis st).

Definition set_orchestrator (o : LangChainOrchestrator.State) (st : AppState) : AppState :=
  MkApp (processing_jobs st) (document_registry st) (points st)
    (multi_engine st) (parent_store st) o (cache_service st) (redis st).

Definition set_redis (c : Redis.Client) (st : AppState) : AppState :=
  MkApp (processing_jobs st) (document_registry st) (points st)
    (multi_engine st) (parent_store st) (orchestrator st) (cache_service st) c.

(** Run a cache operation on the server of the application. *)
Definition on_redis {A} (m : M Redis.Client A) : M AppState A :=
  fun st => let '(r, c) := m (redis st) in (r, set_redis c st).

(** Run an orchestrator operation on the conversations of the
    application. *)
Definition on_orchestrator {A} (m : M LangChainOrchestrator.State A) : M AppState A :=
  fun st => let '(r, o) := m (orchestrator st) in (r, set_orchestrator o st).

(** [if cache_service: cache_service.clear()]. *)
Definition clear_cache_if_any (now : Z) : M AppState unit :=
  st ← get;
  match cache_service st with
  | Some cs => on_redis (CacheService.clear cs now)
  | None => ret tt
  end.

(** The body of a successful [delete_document]. *)
Record DeleteResponse : Type := MkDeleteResponse {
  dr_message : string;
  dr_document_id : string;
}.

Section Documents.
Variable settings : Settings.
(** The collaborators of ingestion: the loader, the chunk splitter,
    [os.path.splitext(...)[1]] and [time.strftime]. *)
Variable load_document : string -> result (list Document).
Variable split_documents : list Document -> list Document.
Variable splitext_ext : string -> string.
Variable strftime : string.

(** [document_processor.ingest_file] on the collection of the
    application. *)
Definition ingest_file (file_path : string) : M AppState nat :=
  fun st =>
    match DocumentProcessor.ingest_file load_document split_documents
            file_path (points st) with
    | Ok (n, points') => (Ok n, set_points points' st)
    | Raise e => (Raise e, st)
    end.

Definition llama_doc (filename category access_group : string) (doc : Document)
    : MultiIndexEngine.LlamaDoc :=
  {| MultiIndexEngine.content := page_content doc;
     MultiIndexEngine.doc_metadata :=
       Some (<["access_group" := access_group]>
               (<["category" := category]>
                  (<["filename" := filename]> (metadata doc)))) |}.

Definition multi_add_documents (docs : list MultiIndexEngine.LlamaDoc)
    (index_name : string) : M AppState unit :=
  fun st =>
    match MultiIndexEngine.add_documents docs index_name (multi_engine st) with
    | Ok m => (Ok tt, set_multi_engine m st)
    | Raise e => (Raise e, st)
    end.

(** [_process_document_background]. *)
Definition _process_document_background
    (job_id file_path filename category access_group : string) : M AppState unit :=
  try_except
    (_ ← modify (set_job job_id PROCESSING);
     chunk_count ← ingest_file file_path;
     documents ← lift (load_document file_path);
     let llama_docs := map (llama_doc filename category access_group) documents in
     _ ← (if bool_decide (category ∈ ["audit"; "policy"; "financial"])
          then multi_add_documents llama_docs category
          else ret tt);
     _ ← modify (fun st =>
            set_registry
              (<[job_id := {| document_id := job_id;
                              filename := filename;
                              file_type := PyStr.lstrip_chars "." (splitext_ext filename);
                              category := category;
                              access_group := access_group;
                              chunk_count := chunk_count;
                              status := COMPLETED;
                              uploaded_at := strftime |}]>
                 (document_registry st)) st);
     modify (set_job job_id COMPLETED))
    (fun _ => modify (set_job job_id FAILED)).

(** [delete_document] at time [now]. *)
Definition delete_document (now : Z) (document_id : string) (request : Request)
    : M AppState DeleteResponse :=
  user ← lift (get_current_user request);
  if negb (bool_decide ("ALL" ∈ AccessControl.access_groups user)) then
    raise (HTTPException 403 "Admin role required to delete documents")
  else
    st ← get;
    match document_registry st !! document_id with
    | None => raise (HTTPException 404 "Document not found")
    | Some doc_info =>
        _ ← modify (fun st => set_registry (base.delete document_id (document_registry st)) st);
        _ ← clear_cache_if_any now;
        ret {| dr_message := "Document " +:+ filename doc_info +:+ " deleted";
               dr_document_id := document_id |}
    end.
End Documents.

(** The fields of [QuestionRequest]. *)
Record QuestionRequest : Type := MkQuestionRequest {
  question : string;
  engine : QueryEngine;
  use_reranking : bool;
  use_parent_child : bool;
  top_k : Z;
}.

Definition opt_str (o : option string) : pyval :=
  match o with Some s => PStr s | None => PNone end.

Definition opt_float (o : option pyfloat) : pyval :=
  match o with Some f => PFloat f | None => PNone end.

(** An entry of the [sources] list of [ask_question]. *)
Definition source_dict (content source file_type : string)
    (page sheet_name slide_number : option string)
    (relevance_score : option pyfloat) : pyval :=
  PDict [ (KStr "content", PStr (PyStr.slice_to 300 content));
          (KStr "source", PStr source);
          (KStr "file_type", PStr file_type);
          (KStr "page", opt_str page);
          (KStr "sheet_name", opt_str sheet_name);
          (KStr "slide_number", opt_str slide_number);
          (KStr "relevance_score", opt_float relevance_score) ].

Definition source_of_standard (s : LangChainOrchestrator.source) : pyval :=
  source_dict (LangChainOrchestrator.src_content s) (LangChainOrchestrator.src_source s)
    (LangChainOrchestrator.src_file_type s) (LangChainOrchestrator.src_page s)
    (LangChainOrchestrator.src_sheet_name s) (LangChainOrchestrator.src_slide_number s)
    None.

Definition source_of_multi (s : MultiIndexEngine.source) : pyval :=
  source_dict (MultiIndexEngine.src_content s) (MultiIndexEngine.src_source s)
    (MultiIndexEngine.src_file_type s) None None None
    (MultiIndexEngine.src_relevance_score s).

(** [response_data]. *)
Definition response_data (answer : string) (sources : list pyval)
    (model_used engine_name : string) (processing_time_ms : pyfloat) : pyval :=
  PDict [ (KStr "answer", PStr answer);
          (KStr "sources", PList sources);
          (KStr "model_used", PStr model_used);
          (KStr "engine_used", PStr engine_name);
          (KStr "processing_time_ms", PFloat processing_time_ms);
          (KStr "from_cache", PBool false);
          (KStr "trace_id", PNone) ].

Section Ask.
Variable settings : Settings.
(** The collaborators of a question: the ranking of the vector index,
    the prompt chain, the [uuid4] supply, the engines of the category
    indexes, the built-in [round], the key hash and the measured
    time. *)
Variable rank : string -> list Document -> list Document.
Variable chain_invoke : string -> list LangChainOrchestrator.message -> string -> result string.
Variable uuid4 : nat -> string.
Variable engine_query : MultiIndexEngine.engine -> string -> result MultiIndexEngine.Response.
Variable round_float : pyfloat -> Z -> pyfloat.
Variable sha256_hexdigest : string -> string.
Variable elapsed_ms : pyfloat.

(** [orchestrator.ask(question)]: the retriever is the one
    [get_retriever] made at start-up, over the collection as it is
    now, and the parent store is the shared one. *)
Definition orchestrator_ask (question : string) : M AppState LangChainOrchestrator.Answer :=
  st ← get;
  on_orchestrator
    (LangChainOrchestrator.ask settings
       (fun q => Ok (VectorStore.invoke rank (DocumentProcessor.get_retriever settings)
                       (points st) q))
       chain_invoke uuid4 elapsed_ms (Some (parent_store st)) question None).

(** The answer, sources, model and engine name of a question that
    missed the cache. *)
Definition run_engine (request_body : QuestionRequest)
    : M AppState (string * list pyval * string * string) :=
  match engine request_body with
  | STANDARD =>
      result ← orchestrator_ask (question request_body);
      ret (LangChainOrchestrator.answer result,
           map source_of_standard (LangChainOrchestrator.sources result),
           LangChainOrchestrator.model_used result,
           "langchain_lcel")
  | ROUTER | SUB_QUESTION =>
      let engine_type :=
        match engine request_body with ROUTER => "router" | _ => "sub_question" end in
      st ← get;
      result ← lift (MultiIndexEngine.query engine_query round_float
                       (multi_engine st) (question request_body) engine_type);
      ret (MultiIndexEngine.answer result,
           map source_of_multi (MultiIndexEngine.sources result),
           openai_model settings,
           "llamaindex_" +:+ engine_type)
  end.

(** [ask_question] at time [now]; the value is the dict the
    [AnswerResponse] is built from. *)
Definition ask_question (now : Z) (request_body : QuestionRequest) (request : Request)
    : M AppState pyval :=
  user ← lift (get_current_user request);
  st ← get;
  cached ← match cache_service st with
           | Some cs =>
               on_redis (CacheService.get sha256_hexdigest cs now (question request_body))
           | None => ret None
           end;
  match (match cached with
         | Some hit => if truthy hit then Some hit else None
         | None => None
         end) with
  | Some (PDict items) =>
      ret (PDict (PyDict.set (PyDict.set items (KStr "from_cache") (PBool true))
                    (KStr "processing_time_ms") (PFloat elapsed_ms)))
  | Some _ => raise (TypeError "object does not support item assignment")
  | None =>
      r ← run_engine request_body;
      let '(answer, sources, model_used, engine_name) := r in
      let data := response_data answer sources model_used engine_name elapsed_ms in
      _ ← match cache_service st with
          | Some cs =>
              on_redis (CacheService.set sha256_hexdigest cs now (question request_body) data)
          | None => ret tt
          end;
      ret data
  end.
End Ask.

(** The body of a successful [upload_document]. *)
Record IngestionResponse : Type := MkIngestionResponse {
  ir_job_id : string;
  ir_filename : string;
  ir_category : string;
  ir_access_group : string;
  ir_status : ProcessingStatus;
  ir_message : string;
}.

(** The body of [get_stats]. A missing cache service reports
    [{"enabled": False}], which is [None] here. *)
Record DashboardStats : Type := MkDashboardStats {
  total_documents : nat;
  total_chunks : nat;
  documents_by_type : gmap string nat;
  documents_by_category : gmap string nat;
  cache_stats : option CacheService.Stats;
  collection_names : list string;
}.

(** The body of [chat]. *)
Record ChatResponse : Type := MkChatResponse {
  cr_answer : string;
  cr_sources : list (string * string * string);
  cr_conversation_id : string;
  cr_engine_used : string;
}.

(** The extensions [upload_document] lets through. *)
Definition supported : list string := [".pdf"; ".docx"; ".xlsx"; ".pptx"; ".txt"; ".md"].

(** The values of [DocumentCategory]. *)
Definition valid_categories : list string := ["audit"; "policy"; "financial"].

(** The counting loops of [get_stats]:
    [counts[k] = counts.get(k, 0) + 1] for the key of every document. *)
Definition count_by (key : DocumentInfo -> string) (docs : list DocumentInfo)
    : gmap string nat :=
  foldl (fun counts doc => <[key doc := default 0 (counts !! key doc) + 1]> counts) ∅ docs.

(** The values of the registry; the order is the map's, not the order
    of insertion. *)
Definition registry_values (st : AppState) : list DocumentInfo :=
  (map_to_list (document_registry st)).*2.

Section Endpoints.
Variable settings : Settings.
(** The directory of uploads, the write of the uploaded bytes to a path,
    the names of the three collections, and the text
    [', '.join(supported)], whose order is that of the set. *)
Variable upload_dir : string.
Variable write_file : string -> result unit.
Variable collections : list string.
Variable supported_listing : string.

(** [upload_document], with the identifier [uuid4] returned. The value
    is the response with the path handed to the background task. *)
Definition upload_document (job_id : string) (request : Request)
    (file_name category access_group : string)
    : M AppState (IngestionResponse * string) :=
  user ← lift (get_current_user request);
  let ext := PyStr.lower (PyPath.splitext_ext file_name) in
  if negb (bool_decide (ext ∈ supported)) then
    raise (HTTPException 400
             ("Unsupported file type: " +:+ ext +:+ ". Supported: " +:+ supported_listing))
  else if negb (bool_decide (category ∈ valid_categories)) then
    raise (HTTPException 400
             ("Invalid category: " +:+ category
              +:+ ". Use: ['audit', 'policy', 'financial']"))
  else
    let file_path := PyPath.join upload_dir (job_id +:+ "_" +:+ file_name) in
    _ ← lift (write_file file_path);
    _ ← modify (set_job job_id PENDING);
    ret ({| ir_job_id := job_id;
            ir_filename := file_name;
            ir_category := category;
            ir_access_group := access_group;
            ir_status := PENDING;
            ir_message := "Document uploaded. Processing in background." |},
         file_path).

(** [check_status]. *)
Definition check_status (job_id : string) : M AppState (string * ProcessingStatus) :=
  st ← get;
  match processing_jobs st !! job_id with
  | None => raise (HTTPException 404 "Job not found")
  | Some status => ret (job_id, status)
  end.

(** [list_documents]. *)
Definition list_documents (request : Request) : M AppState (list DocumentInfo) :=
  user ← lift (get_current_user request);
  let user_groups := AccessControl.access_groups user in
  st ← get;
  if bool_decide ("ALL" ∈ user_groups) then ret (registry_values st)
  else ret (filter (fun doc => access_group doc ∈ user_groups) (registry_values st)).

(** [get_stats] at time [now]; the collection answers with the number
    of its points. *)
Definition get_stats (now : Z) : M AppState DashboardStats :=
  st ← get;
  let docs := registry_values st in
  cache_stats ← match cache_service st with
                | Some cs => s ← on_redis (CacheService.get_stats settings cs now); ret (Some s)
                | None => ret None
                end;
  ret {| total_documents := size (document_registry st);
         total_chunks := length (points st);
         documents_by_type := count_by file_type docs;
         documents_by_category := count_by category docs;
         cache_stats := cache_stats;
         collection_names := collections |}.

(** [clear_cache] at time [now]. *)
Definition clear_cache (now : Z) (request : Request) : M AppState string :=
  user ← lift (get_current_user request);
  if negb (bool_decide ("ALL" ∈ AccessControl.access_groups user)) then
    raise (HTTPException 403 "Admin role required")
  else
    _ ← clear_cache_if_any now;
    ret "Cache cleared".
End Endpoints.

Section Chat.
Variable settings : Settings.
Variable rank : string -> list Document -> list Document.
Variable chain_invoke : string -> list LangChainOrchestrator.message -> string -> result string.
Variable uuid4 : nat -> string.
Variable elapsed_ms : pyfloat.

(** [orchestrator.ask(message, conversation_id=...)] on the retriever of
    the application. *)
Definition orchestrator_ask_in (message : string) (conversation_id : option string)
    : M AppState LangChainOrchestrator.Answer :=
  st ← get;
  on_orchestrator
    (LangChainOrchestrator.ask settings
       (fun q => Ok (VectorStore.invoke rank (DocumentProcessor.get_retriever settings)
                       (points st) q))
       chain_invoke uuid4 elapsed_ms (Some (parent_store st)) message conversation_id).

(** [chat]. *)
Definition chat (message : string) (conversation_id : option string) (request : Request)
    : M AppState ChatResponse :=
  user ← lift (get_current_user request);
  result ← orchestrator_ask_in message conversation_id;
  ret {| cr_answer := LangChainOrchestrator.answer result;
         cr_sources :=
           map (fun s => (PyStr.slice_to 300 (LangChainOrchestrator.src_content s),
                          LangChainOrchestrator.src_source s,
                          LangChainOrchestrator.src_file_type s))
             (LangChainOrchestrator.sources result);
         cr_conversation_id := LangChainOrchestrator.conversation_id result;
         cr_engine_used := "langchain_lcel" |}.
End Chat.

End Main.

(** * Vocabulary of the properties *)

(** ** Sample data *)

Module Sample.
Import Doc.

(** The scenario of the specification: children c7 and c12 of the
    parent p2. *)
Definition p2 : Document :=
  MkDocument "parent two" {["parent_id" := "p2"]}.
Definition c7 : Document :=
  MkDocument "child seven" {["parent_id" := "p2"]}.
Definition c12 : Document :=
  MkDocument "child twelve" {["parent_id" := "p2"]}.

Definition parents_p2 : gmap string Document := {["p2" := p2]}.

(** An external service that answers every call with the same
    documents, and one that fails every call. *)
Definition answers (docs : list Document) : nat -> string -> result (list Document) :=
  fun _ _ => Ok docs.
Definition down : nat -> string -> result (list Document) :=
  fun _ _ => Raise (ExternalError "connection refused").

(** Two uploads for the category indexes. *)
Definition report_a : MultiIndexEngine.LlamaDoc :=
  MultiIndexEngine.MkLlamaDoc "Finding A: access reviews overdue" None.
Definition report_b : MultiIndexEngine.LlamaDoc :=
  MultiIndexEngine.MkLlamaDoc "Finding B: backups untested" None.

(** A query engine that answers from the first node of its index, and
    a router that has nothing to say. *)
Definition first_node_engine (e : MultiIndexEngine.engine) (question : string)
    : result MultiIndexEngine.Response :=
  match e with
  | MultiIndexEngine.IndexQueryEngine (node :: _) =>
      Ok (MultiIndexEngine.MkResponse (MultiIndexEngine.text node) [])
  | _ => Ok (MultiIndexEngine.MkResponse "Empty Response" [])
  end.

Definition round_id (f : pyfloat) (ndigits : Z) : pyfloat := f.

(** A key hash for the examples. *)
Definition digest (s : string) : string := s.

(** 12.5 as a float. *)
Definition ms_12_5 : pyfloat := FloatBits 4623226492472524800.

(** An answer as [ask_question] caches it. *)
Definition payload : Json.pyval :=
  Main.response_data "Three findings are open." []
    "gpt-4o-mini" "langchain_lcel" ms_12_5.

(** The application after start-up, the cache connected. *)
Definition started : Main.AppState :=
  {| Main.processing_jobs := ∅;
     Main.document_registry := ∅;
     Main.points := [];
     Main.multi_engine := MultiIndexEngine.init;
     Main.parent_store := ∅;
     Main.orchestrator := LangChainOrchestrator.MkState ∅ 0;
     Main.cache_service := Some (CacheService.new Config.default_settings true);
     Main.redis := Redis.MkClient true ∅ |}.

(** The collaborators of the examples: a loader that reads one page
    from any path, a splitter that keeps a short page whole, an index
    that ranks the points as stored, a language model that repeats its
    context. *)
Definition load_page (file_path : string) : result (list Document) :=
  Ok [MkDocument "EMEA branch audit: three critical findings"
        {["source" := file_path; "file_type" := "txt"]}].
Definition keep_whole (docs : list Document) : list Document := docs.
Definition keep_one (doc : Document) : list Document := [doc].
Definition txt_ext (filename : string) : string := ".txt".
Definition as_stored (query : string) (points : list Document) : list Document := points.
Definition repeat_context (context : string)
    (history : list LangChainOrchestrator.message) (question : string) : result string :=
  Ok context.
Definition numbered (n : nat) : string := "id-" +:+ pretty n.

Definition viewer_request : AccessControl.Request :=
  AccessControl.MkRequest [("x-user-role", "viewer")].
Definition admin_request : AccessControl.Request :=
  AccessControl.MkRequest [("x-user-role", "admin")].

End Sample.

(** ** Resolving parents *)

Module ParentChildSpec.
Import Doc.

(** The parent id a child resolves to: present, not empty, and a key
    of the store. *)
Definition resolvable (parent_store : gmap string Document) (child : Document)
    : option string :=
  match metadata child !! "parent_id" with
  | Some parent_id =>
      if PyStr.truthy parent_id && bool_decide (is_Some (parent_store !! parent_id))
      then Some parent_id else None
  | None => None
  end.

(** Keep the first occurrence of every element. *)
Fixpoint first_occurrences (l : list string) : list string :=
  match l with
  | [] => []
  | x :: l' => x :: filter (fun y => y ≠ x) (first_occurrences l')
  end.

(** Every stored parent carries its key as [parent_id]. *)
Definition store_keyed (parent_store : gmap string Document) : Prop :=
  ∀ k p, parent_store !! k = Some p → metadata p !! "parent_id" = Some k.

End ParentChildSpec.

(** ** The retrieval pipeline *)

Module RetrievalSpec.
Import Doc Config Exec AdvancedRetrieval.

Section Pipeline.
Variable settings : Settings.
Variable multi_query_invoke base_invoke rerank_invoke
  : nat -> string -> result (list Document).

(** The service an attempt of [_retrieve_with_retry] calls. *)
Definition attempted (use_multi_query : bool) : nat -> string -> result (list Document) :=
  if use_multi_query then multi_query_invoke else base_invoke.

(** Steps 2 and 3 of [retrieve] on the candidates of step 1. *)
Definition later_steps (self : Service) (question : string)
    (use_reranking use_parent_child : bool) (docs : list Document)
    : M nat (list Document) :=
  docs ← rerank_step settings rerank_invoke self question use_reranking docs;
  docs ← parent_step self use_parent_child docs;
  mret docs.

End Pipeline.

(** What step 3 makes of the documents step 2 hands over. *)
Definition expanded (self : Service) (use_parent_child : bool) (docs : list Document)
    : list Document :=
  if use_parent_child then
    match parent_child self with
    | Some parent_store =>
        match ParentChildRetriever.get_parents_for_children parent_store docs with
        | [] => docs
        | parents => parents
        end
    | None => docs
    end
  else docs.

End RetrievalSpec.

(** ** The category indexes *)

Module MultiIndexSpec.
Import MultiIndexEngine.

(** The keys of [self.indexes]. *)
Definition categories : list string := ["audit"; "policy"; "financial"].

(** A category is READY once its index exists. *)
Definition ready (st : State) (name : string) : bool :=
  match indexes st !! name with
  | Some (Some _) => true
  | _ => false
  end.

(** The number of READY categories. *)
Definition ready_count (st : State) : nat :=
  length (filter (fun name => ready st name = true) categories).

(** The states the object can be in: the one [__init__] leaves, and
    those after a call of [add_documents] that returned. *)
Inductive reachable : State → Prop :=
| reachable_init : reachable init
| reachable_add st documents index_name st' :
    reachable st →
    add_documents documents index_name st = Ok st' →
    reachable st'.

(** What holds in every reachable state. *)
Record consistent (st : State) : Prop := {
  indexes_follow :
    ∀ name, indexes st !! name
            = if bool_decide (name ∈ categories)
              then Some (PyDict.get (query_engines st) name) else None;
  engines_distinct : NoDup (query_engines st).*1;
  engines_known : ∀ name, name ∈ (query_engines st).*1 → name ∈ categories;
  router_follows :
    router_engine st
    = if (2 <=? length (query_engines st))%nat
      then Some (RouterQueryEngine (map tool_of (query_engines st))) else None;
  sub_question_follows :
    sub_question_engine st
    = if (2 <=? length (query_engines st))%nat
      then Some (SubQuestionQueryEngine (map tool_of (query_engines st))) else None;
}.

Section Query.
Variable round_float : pyfloat -> Z -> pyfloat.

(** The dict [query] builds from what an engine returned. *)
Definition answered (r : result Response) : result QueryResult :=
  match r with
  | Raise e => Raise e
  | Ok response =>
      Ok {| answer := response_str response;
            sources := map (source_of round_float) (source_nodes response) |}
  end.

End Query.

(** The engine after one upload to the audit category. *)
Definition one_ready : State :=
  match add_documents [Sample.report_a] "audit" init with
  | Ok st => st
  | Raise _ => init
  end.

(** The engine after two uploads to the audit category. *)
Definition two_uploads : result State :=
  match add_documents [Sample.report_a] "audit" init with
  | Ok st => add_documents [Sample.report_b] "audit" st
  | Raise e => Raise e
  end.

End MultiIndexSpec.

(** ** Python values *)

Module JsonSpec.
Import Json.

(** Induction on Python values, through the lists they nest. *)
Section Induction.
Variable P : pyval → Prop.
Hypothesis HNone : P PNone.
Hypothesis HBool : ∀ b, P (PBool b).
Hypothesis HInt : ∀ n, P (PInt n).
Hypothesis HFloat : ∀ f, P (PFloat f).
Hypothesis HStr : ∀ s, P (PStr s).
Hypothesis HList : ∀ items, Forall P items → P (PList items).
Hypothesis HTuple : ∀ items, Forall P items → P (PTuple items).
Hypothesis HDict : ∀ items, Forall (fun kv => P kv.2) items → P (PDict items).
Hypothesis HObject : ∀ str, P (PObject str).

Fixpoint pyval_nested_ind (v : pyval) : P v :=
  match v with
  | PNone => HNone
  | PBool b => HBool b
  | PInt n => HInt n
  | PFloat f => HFloat f
  | PStr s => HStr s
  | PList items =>
      HList items
        ((fix all (l : list pyval) : Forall P l :=
            match l with
            | [] => List.Forall_nil P
            | x :: r => List.Forall_cons P x r (pyval_nested_ind x) (all r)
            end) items)
  | PTuple items =>
      HTuple items
        ((fix all (l : list pyval) : Forall P l :=
            match l with
            | [] => List.Forall_nil P
            | x :: r => List.Forall_cons P x r (pyval_nested_ind x) (all r)
            end) items)
  | PDict items =>
      HDict items
        ((fix all (l : list (pykey * pyval)) : Forall (fun kv => P kv.2) l :=
            match l with
            | [] => List.Forall_nil _
            | kv :: r => List.Forall_cons _ kv r (pyval_nested_ind kv.2) (all r)
            end) items)
  | PObject str => HObject str
  end.
End Induction.

End JsonSpec.

(** ** The application *)

Module MainSpec.
Import Doc Config Exec AccessControl Json Main.

(** A computation leaves a component of the application as it was. *)
Definition preserves {A X} (f : AppState → X) (m : M AppState A) : Prop :=
  ∀ st, f (m st).2 = f st.

(** The cache of the application, connected at start-up. *)
Definition sample_cache : CacheService.t := CacheService.new default_settings true.

(** The application with one answer cached at time 0. *)
Definition with_cached_answer : AppState :=
  (on_redis (CacheService.set Sample.digest sample_cache 0 "What is open?" Sample.payload)
     Sample.started).2.

(** The background task of an upload: a text file of the EMEA group,
    job doc-1, category audit. *)
Definition ingest_emea : M AppState unit :=
  _process_document_background Sample.load_page Sample.keep_whole Sample.txt_ext
    "2025-03-01T09:00:00Z"
    "doc-1" "data/uploads/doc-1_emea.txt" "emea.txt" "audit" "EMEA_AUDIT".

(** The page the loader reads from that file. *)
Definition emea_page : Document :=
  MkDocument "EMEA branch audit: three critical findings"
    {["source" := "data/uploads/doc-1_emea.txt"; "file_type" := "txt"]}.

(** The parents and children of the page, as
    [create_parent_child_chunks] makes them. *)
Definition chunked : (list Document * list Document) * gmap string Document * nat :=
  ParentChildRetriever.create_parent_child_chunks Sample.keep_one Sample.keep_one
    Sample.numbered [emea_page] ∅ 0.

(** The application after the upload of doc-1, with the retriever
    object holding what [create_parent_child_chunks] makes of the page.
    No code under [src/] calls that method: the state is one a caller of
    the class leaves, not one the endpoints reach. *)
Definition with_parents : AppState :=
  let st := (ingest_emea Sample.started).2 in
  {| processing_jobs := processing_jobs st;
     document_registry := document_registry st;
     points := points st;
     multi_engine := multi_engine st;
     parent_store := chunked.1.2;
     orchestrator := orchestrator st;
     cache_service := cache_service st;
     redis := redis st |}.

(** A float that JSON text gives back bit for bit: any but a NaN other
    than [float('nan')]. *)
Definition float_exact (f : pyfloat) : bool :=
  negb (PyFloat.is_nan f) || bool_decide (f = PyFloat.nan).

(** The scenario of the specification with tagged chunks: the best hit
    belongs to EMEA_AUDIT, five more to GLOBAL_AUDIT. *)
Definition tagged (content group : string) : Document :=
  MkDocument content {["access_group" := group]}.

(** A collection in decreasing similarity to the question. *)
Definition tagged_points : list Document :=
  [ tagged "hit 1" "EMEA_AUDIT"; tagged "hit 2" "GLOBAL_AUDIT";
    tagged "hit 3" "GLOBAL_AUDIT"; tagged "hit 4" "GLOBAL_AUDIT";
    tagged "hit 5" "GLOBAL_AUDIT"; tagged "hit 6" "GLOBAL_AUDIT" ].

(** The default settings with [retrieval_top_k] set to 5. *)
Definition top_5 : Settings :=
  {| openai_model := openai_model default_settings;
     cache_ttl_seconds := cache_ttl_seconds default_settings;
     cohere_api_key := cohere_api_key default_settings;
     parent_chunk_size := parent_chunk_size default_settings;
     child_chunk_size := child_chunk_size default_settings;
     retrieval_top_k := 5;
     rerank_top_n := rerank_top_n default_settings |}.

(** The body of the viewer's request. *)
Definition viewer_question : QuestionRequest :=
  {| question := "What did the branch audit find?";
     engine := STANDARD;
     use_reranking := true;
     use_parent_child := true;
     top_k := 5 |}.

End MainSpec.

(** ** Further sample data *)

Module Cases.
Import Doc Json.

(** The cache of the application, connected. *)
Definition on : CacheService.t := CacheService.new Config.default_settings true.

(** A payload with a key the encoder rejects. *)
Definition keyed_by_object : pyval := PDict [(KOther "<object>", PInt 1)].

(** A payload with an integer key, a tuple and a date, and what JSON
    makes of it. *)
Definition with_tuple : pyval :=
  PDict [(KInt 1, PTuple [PInt 2; PObject "2024-01-01"])].
Definition with_list : pyval :=
  PDict [(KStr "1", PList [PInt 2; PStr "2024-01-01"])].

(** A server that holds a cached answer and a key of another
    application. *)
Definition shared_server : Redis.Client :=
  Redis.MkClient true
    (<["rag_cache:0123456789abcdef" := Redis.MkEntry (JStr "answer") 100]>
       {["session:42" := Redis.MkEntry (JStr "alice") 100]}).

(** A search that fails on its first call and answers from the second
    on. *)
Definition second_try (t : nat) (question : string) : result (list Document) :=
  match t with
  | O => Raise (ExternalError "timeout")
  | S _ => Ok [Sample.c7]
  end.

(** A child splitter that cuts every parent into two children. *)
Definition halves (parent : Document) : list Document :=
  [MkDocument "first half" (metadata parent); MkDocument "second half" (metadata parent)].

(** The engine after an upload to the audit and one to the policy
    category. *)
Definition two_ready : MultiIndexEngine.State :=
  match MultiIndexEngine.add_documents [Sample.report_b] "policy" MultiIndexSpec.one_ready with
  | Ok st => st
  | Raise _ => MultiIndexSpec.one_ready
  end.

(** Six candidates. *)
Definition six_hits : list Document :=
  map (fun content => MkDocument content ∅)
    ["hit 1"; "hit 2"; "hit 3"; "hit 4"; "hit 5"; "hit 6"].


(** A retriever that finds the six candidates, a chain that fails, and
    an orchestrator that has answered nothing yet. *)
Definition finds_six (question : string) : result (list Document) := Ok six_hits.
Definition chain_down (context : string)
    (history : list LangChainOrchestrator.message) (question : string) : result string :=
  Raise (ExternalError "model unavailable").
Definition fresh : LangChainOrchestrator.State := LangChainOrchestrator.MkState ∅ 0.


(** A loader that finds no file. *)
Definition lost_file (file_path : string) : result (list Document) :=
  Raise (ExternalError ("File not found: " +:+ file_path)).


(** The cached question of the examples asked of the router, and the
    viewer's question in other letters, asked of the router. *)
Definition open_by_router : Main.QuestionRequest :=
  {| Main.question := "What is open?";
     Main.engine := Main.ROUTER;
     Main.use_reranking := true;
     Main.use_parent_child := true;
     Main.top_k := 5 |}.
Definition viewer_question_again : Main.QuestionRequest :=
  {| Main.question := "  what did the BRANCH audit find? ";
     Main.engine := Main.ROUTER;
     Main.use_reranking := false;
     Main.use_parent_child := false;
     Main.top_k := 3 |}.


(** A disk that takes every write and holds every path, the listing of
    the supported extensions in one order, a text reader that is never
    asked, and format loaders that return one page. *)
Definition disk_ok (file_path : string) : result unit := Ok tt.
Definition on_disk (file_path : string) : bool := true.
Definition listing : string := ".pdf, .docx, .xlsx, .pptx, .txt, .md".
Definition read_nothing (file_path : string) : result string :=
  Raise (ExternalError "not a text file").
Definition one_page (l : LoaderRouter.loader) (file_path : string)
    : result (list Document) :=
  Ok [MkDocument "page one" {["source" := file_path]}].

End Cases.

(** ** Conversations *)

Module ConversationSpec.
Import LangChainOrchestrator.

(** Whether [ask] continues the conversation it was given: the
    identifier is not empty and names a stored conversation. *)
Definition resumes (st : State) (conversation_id : option string) : bool :=
  match conversation_id with
  | Some c => PyStr.truthy c && bool_decide (is_Some (conversations st !! c))
  | None => false
  end.

End ConversationSpec.

(** ** The chunks of one ingestion *)

Module ChunkingSpec.
Import Doc.

Section Chunks.
Variable child_split : Document -> list Document.
Variable uuid4 : nat -> string.

(** The parents [create_parent_child_chunks] stores from a list of parent
    spans, each with the identifier it draws, the first being the
    [n]-th. *)
Fixpoint made (n : nat) (parents : list Document) : list (string * Document) :=
  match parents with
  | [] => []
  | parent :: rest =>
      (uuid4 n, set_meta parent "parent_id" (uuid4 n)) :: made (S n) rest
  end.

(** The children made of a stored parent. *)
Definition children_of (entry : string * Document) : list Document :=
  map (fun child => set_meta child "parent_id" entry.1) (child_split entry.2).

(** The store after the entries were written in order. *)
Definition stored (parent_store : gmap string Document)
    (entries : list (string * Document)) : gmap string Document :=
  foldl (fun m entry => <[entry.1 := entry.2]> m) parent_store entries.
End Chunks.

End ChunkingSpec.

(** ** Counting documents *)

Module DashboardSpec.
Import Main.

(** The number of documents whose key is [k]. *)
Definition occurrences (key : DocumentInfo -> string) (k : string)
    (docs : list DocumentInfo) : nat :=
  length (filter (fun doc => key doc = k) docs).

(** The sum of the counts of a table. *)
Definition sum_counts (counts : gmap string nat) : nat :=
  map_fold (fun _ n total => n + total) 0 counts.

End DashboardSpec.
(** ** The states the application reaches *)

Module ApplicationSpec.
Import Doc Config Exec AccessControl Json Main.

(** What [lifespan] leaves: no job, no document, no category index, a
    retriever object without parents and an orchestrator without
    conversations. The collection and the Redis server are as they are
    found. *)
Definition after_startup (st : AppState) : Prop :=
  processing_jobs st = ∅
  ∧ document_registry st = ∅
  ∧ multi_engine st = MultiIndexEngine.init
  ∧ parent_store st = ∅
  ∧ LangChainOrchestrator.conversations (orchestrator st) = ∅.

(** One request served or one background task run, with whatever
    collaborators. The evaluation endpoints change the application by
    the questions they put to the orchestrator; the streaming endpoint,
    the health check and the evaluation history change nothing. *)
Inductive serves : AppState → AppState → Prop :=
| serves_upload upload_dir write_file supported_listing job_id request
    file_name category access_group st :
    serves st
      (upload_document upload_dir write_file supported_listing job_id request
         file_name category access_group st).2
| serves_background load_document split_documents splitext_ext strftime
    job_id file_path filename category access_group st :
    serves st
      (_process_document_background load_document split_documents splitext_ext strftime
         job_id file_path filename category access_group st).2
| serves_check_status job_id st :
    serves st (check_status job_id st).2
| serves_list_documents request st :
    serves st (list_documents request st).2
| serves_delete_document now document_id request st :
    serves st (delete_document now document_id request st).2
| serves_ask_question settings rank chain_invoke uuid4 engine_query round_float
    sha256_hexdigest elapsed_ms now request_body request st :
    serves st
      (ask_question settings rank chain_invoke uuid4 engine_query round_float
         sha256_hexdigest elapsed_ms now request_body request st).2
| serves_chat settings rank chain_invoke uuid4 elapsed_ms message conversation_id
    request st :
    serves st
      (chat settings rank chain_invoke uuid4 elapsed_ms message conversation_id
         request st).2
| serves_evaluation_question settings rank chain_invoke uuid4 elapsed_ms question st :
    serves st (orchestrator_ask settings rank chain_invoke uuid4 elapsed_ms question st).2
| serves_get_stats settings collections now st :
    serves st (get_stats settings collections now st).2
| serves_clear_cache now request st :
    serves st (clear_cache now request st).2
| serves_read st :
    serves st st.

(** The states of the application: the one after start-up and those
    after a request or a background task. *)
Inductive reachable : AppState → Prop :=
| reachable_start st : after_startup st → reachable st
| reachable_serves st st' : reachable st → serves st st' → reachable st'.

End ApplicationSpec.

(** * Properties *)

(** ** Identity resolution *)

Module AccessControlFacts.
Import AccessControl.

Lemma admin_role :
  USER_ROLES !! "admin"
  = Some (RoleInfo "Admin" ["GLOBAL_AUDIT"; "APAC_AUDIT"; "EMEA_AUDIT"; "ALL"]).
Proof. vm_compute. reflexivity. Qed.

Lemma get_current_user_known (request : Request) (v : string) (info : role_info) :
  headers_get (headers request) "X-User-Role" "admin" = v ->
  USER_ROLES !! v = Some info ->
  get_current_user request = Ok (MkUser v (ri_name info) (ri_access_groups info)).
Proof. intros Hv Hinfo. unfold get_current_user. rewrite Hv, Hinfo. reflexivity. Qed.

Lemma get_current_user_unknown (request : Request) (v : string) :
  headers_get (headers request) "X-User-Role" "admin" = v ->
  USER_ROLES !! v = None ->
  get_current_user request = Raise (HTTPException 403 ("Unknown role: " +:+ v)).
Proof. intros Hv Hnone. unfold get_current_user. rewrite Hv, Hnone. reflexivity. Qed.

(** C10. [get_current_user] raises exactly when the X-User-Role header
    is present with a value that is no key of [USER_ROLES], and what it
    raises is then a 403; without the header the request is resolved to
    the role "admin", whose access groups contain "ALL". *)
Theorem get_current_user_403_iff_unknown_role (request : Request) :
  ((∃ e, get_current_user request = Raise e)
     ↔ ∃ v, headers_lookup (headers request) "X-User-Role" = Some v
            ∧ USER_ROLES !! v = None)
  ∧ (∀ e, get_current_user request = Raise e → ∃ detail, e = HTTPException 403 detail)
  ∧ (headers_lookup (headers request) "X-User-Role" = None →
       ∃ u, get_current_user request = Ok u
            ∧ role u = "admin" ∧ "ALL" ∈ access_groups u).
Proof.
  destruct (headers_lookup (headers request) "X-User-Role") as [v|] eqn:Hhdr.
  - assert (Hget : headers_get (headers request) "X-User-Role" "admin" = v)
      by (unfold headers_get; rewrite Hhdr; reflexivity).
    destruct (USER_ROLES !! v) as [info|] eqn:Hrole.
    + rewrite (get_current_user_known _ _ _ Hget Hrole).
      split; [split|split].
      * intros [e He]. discriminate.
      * intros (v' & Hv' & Hnone). congruence.
      * intros e He. discriminate.
      * intros Habs. discriminate.
    + rewrite (get_current_user_unknown _ _ Hget Hrole).
      split; [split|split].
      * intros _. exists v. split; [reflexivity | assumption].
      * intros _. eexists. reflexivity.
      * intros e He. injection He as <-. eexists. reflexivity.
      * intros Habs. discriminate.
  - assert (Hget : headers_get (headers request) "X-User-Role" "admin" = "admin")
      by (unfold headers_get; rewrite Hhdr; reflexivity).
    rewrite (get_current_user_known _ _ _ Hget admin_role).
    split; [split|split].
    + intros [e He]. discriminate.
    + intros (v & Hv & _). discriminate.
    + intros e He. discriminate.
    + intros _. eexists. split; [reflexivity|]. split; [reflexivity|].
      simpl. set_solver.
Qed.

(** The claim at a request without headers. *)
Lemma get_current_user_403_iff_unknown_role_witness :
  ∃ u, get_current_user (MkRequest []) = Ok u
       ∧ role u = "admin" ∧ "ALL" ∈ access_groups u.
Proof.
  apply (get_current_user_403_iff_unknown_role (MkRequest [])). reflexivity.
Defined.

End AccessControlFacts.

(** ** Resolving parents *)

Module ParentChildFacts.
Import Doc ParentChildRetriever Sample ParentChildSpec.

Lemma truthy_ne_empty (s : string) : PyStr.truthy s = true ↔ s ≠ "".
Proof. destruct s; simpl; split; congruence. Qed.

Lemma filter_drop_excluded (P : string → Prop) `{!∀ y, Decision (P y)}
    (x : string) (l : list string) :
  ¬ P x → filter P (filter (fun y => y ≠ x) l) = filter P l.
Proof.
  intros Hx. induction l as [|y l IH]; [reflexivity|].
  rewrite (filter_cons (fun y => y ≠ x)). destruct (decide (y ≠ x)) as [Hy|Hy].
  - rewrite !filter_cons. destruct (decide (P y)); [f_equal|]; exact IH.
  - apply dec_stable in Hy. subst y. rewrite filter_cons.
    destruct (decide (P x)); [contradiction | exact IH].
Qed.

Lemma filter_swap (P Q : string → Prop) `{!∀ y, Decision (P y)} `{!∀ y, Decision (Q y)}
    (l : list string) :
  filter P (filter Q l) = filter Q (filter P l).
Proof.
  induction l as [|y l IH]; [reflexivity|].
  rewrite (filter_cons Q), (filter_cons P).
  destruct (decide (Q y)), (decide (P y)); rewrite ?filter_cons;
    repeat case_decide; try contradiction; rewrite ?IH; reflexivity.
Qed.

Lemma first_occurrences_filter (P : string → Prop) `{!∀ y, Decision (P y)}
    (l : list string) :
  first_occurrences (filter P l) = filter P (first_occurrences l).
Proof.
  induction l as [|x l IH]; [reflexivity|].
  rewrite filter_cons. destruct (decide (P x)) as [Hx|Hx]; simpl.
  - rewrite filter_cons. destruct (decide (P x)); [|contradiction].
    rewrite IH. f_equal. apply filter_swap.
  - rewrite filter_cons. destruct (decide (P x)); [contradiction|].
    rewrite IH. symmetry. apply filter_drop_excluded. exact Hx.
Qed.

Lemma elem_of_first_occurrences (x : string) (l : list string) :
  x ∈ first_occurrences l ↔ x ∈ l.
Proof.
  induction l as [|y l IH]; simpl; [reflexivity|].
  rewrite !elem_of_cons, list_elem_of_filter, IH.
  destruct (decide (x = y)); naive_solver.
Qed.

Lemma NoDup_first_occurrences (l : list string) : NoDup (first_occurrences l).
Proof.
  induction l as [|x l IH]; simpl; constructor.
  - rewrite list_elem_of_filter. intros [Hne _]. apply Hne. reflexivity.
  - apply NoDup_filter. exact IH.
Qed.

(** The loop, with its accumulators, against the list it resolves. *)
Lemma parents_loop_spec (parent_store : gmap string Document)
    (child_docs : list Document) (seen : gset string) (parents : list Document) :
  map Some (parents_loop parent_store child_docs seen parents)
  = map Some parents
    ++ map (fun k => parent_store !! k)
         (first_occurrences
            (filter (fun k => k ∉ seen) (omap (resolvable parent_store) child_docs))).
Proof.
  revert seen parents.
  induction child_docs as [|child rest IH]; intros seen parents; simpl.
  - rewrite app_nil_r. reflexivity.
  - unfold resolvable at 1.
    destruct (metadata child !! "parent_id") as [pid|] eqn:Hpid; [|apply IH].
    destruct (PyStr.truthy pid) eqn:Htruthy; simpl; [|apply IH].
    destruct (decide (pid ∉ seen)) as [Hfresh|Hseen].
    + rewrite (bool_decide_eq_true_2 _ Hfresh).
      destruct (parent_store !! pid) as [parent|] eqn:Hstore.
      * rewrite (bool_decide_eq_true_2 (is_Some (Some parent))) by eauto.
        rewrite IH, filter_cons. destruct (decide (pid ∉ seen)); [|contradiction].
        simpl. rewrite Hstore, map_app, <- app_assoc. simpl. do 3 f_equal.
        rewrite <- first_occurrences_filter, list_filter_filter.
        f_equal. apply list_filter_iff. intros k. set_solver.
      * rewrite (bool_decide_eq_false_2 (is_Some None)) by (intros [? ?]; discriminate).
        apply IH.
    + rewrite (bool_decide_eq_false_2 _ Hseen).
      destruct (bool_decide (is_Some (parent_store !! pid))); [|apply IH].
      rewrite filter_cons. destruct (decide (pid ∉ seen)); [contradiction|].
      apply IH.
Qed.

Lemma elem_of_resolvable (parent_store : gmap string Document)
    (child_docs : list Document) (pid : string) :
  pid ∈ omap (resolvable parent_store) child_docs
  ↔ ∃ child, child ∈ child_docs ∧ metadata child !! "parent_id" = Some pid
             ∧ pid ≠ "" ∧ is_Some (parent_store !! pid).
Proof.
  rewrite list_elem_of_omap. unfold resolvable. split.
  - intros (child & Hin & Hres). exists child. split; [exact Hin|].
    destruct (metadata child !! "parent_id") as [k|]; [|discriminate].
    destruct (PyStr.truthy k) eqn:Ht; [|discriminate]. simpl in Hres.
    case_bool_decide; [|discriminate]. injection Hres as ->.
    apply truthy_ne_empty in Ht. auto.
  - intros (child & Hin & Hmeta & Hne & Hsome). exists child. split; [exact Hin|].
    rewrite Hmeta. apply truthy_ne_empty in Hne. rewrite Hne. simpl.
    rewrite (bool_decide_eq_true_2 _ Hsome). reflexivity.
Qed.

Lemma get_parents_for_children_lookup (parent_store : gmap string Document)
    (child_docs : list Document) :
  map Some (get_parents_for_children parent_store child_docs)
  = map (fun k => parent_store !! k)
      (first_occurrences (omap (resolvable parent_store) child_docs)).
Proof.
  unfold get_parents_for_children. rewrite parents_loop_spec. simpl.
  do 2 f_equal. induction (omap (resolvable parent_store) child_docs) as [|k l IH];
    [reflexivity|].
  rewrite filter_cons. destruct (decide (k ∉ (∅ : gset string))); [|set_solver].
  f_equal. exact IH.
Qed.

Lemma NoDup_looked_up (parent_store : gmap string Document)
    (ids : list string) (parents : list Document) :
  store_keyed parent_store →
  NoDup ids →
  map Some parents = map (fun k => parent_store !! k) ids →
  NoDup parents.
Proof.
  intros Hkeyed Hnodup. revert parents.
  induction Hnodup as [|k ids Hnotin Hnodup IH]; intros parents Hmap.
  - destruct parents; [constructor | discriminate].
  - destruct parents as [|p parents]; [discriminate|].
    simpl in Hmap. injection Hmap as Hp Hrest. constructor.
    + intros Hin. apply Hnotin.
      assert (Hin2 : Some p ∈ map (fun k => parent_store !! k) ids).
      { rewrite <- Hrest. apply (list_elem_of_fmap_2 Some). exact Hin. }
      apply list_elem_of_In, in_map_iff in Hin2 as (k' & Hk' & Hin').
      apply list_elem_of_In in Hin'.
      symmetry in Hp. apply Hkeyed in Hp, Hk'.
      assert (k = k') as -> by congruence. exact Hin'.
    + apply IH. exact Hrest.
Qed.

(** [create_parent_child_chunks] keeps every parent under its own id. *)
Lemma add_parents_keyed parent_split uuid4 (parents : list Document)
    (parent_store : gmap string Document) (n : nat) (all_children : list Document) :
  store_keyed parent_store →
  store_keyed (add_parents parent_split uuid4 parents parent_store n all_children).1.1.
Proof.
  revert parent_store n all_children.
  induction parents as [|parent rest IH]; intros parent_store n all_children Hkeyed;
    simpl; [exact Hkeyed|].
  apply IH. intros k p. rewrite lookup_insert. case_decide as Hk.
  - intros [= <-]. subst k. simpl. apply lookup_insert_eq.
  - apply Hkeyed.
Qed.

Lemma create_parent_child_chunks_keyed parent_split child_split uuid4
    (documents : list Document) (parent_store : gmap string Document) (n : nat) :
  store_keyed parent_store →
  store_keyed
    (create_parent_child_chunks parent_split child_split uuid4 documents parent_store n).1.2.
Proof.
  unfold create_parent_child_chunks.
  generalize (@nil Document) as all_children. revert parent_store n.
  induction documents as [|doc rest IH]; intros parent_store n all_children Hkeyed;
    simpl; [exact Hkeyed|].
  pose proof (add_parents_keyed child_split uuid4 (parent_split doc)
                parent_store n all_children Hkeyed) as Hstep.
  destruct (add_parents child_split uuid4 (parent_split doc) parent_store n all_children)
    as [[parent_store' n'] all_children'].
  simpl in Hstep. specialize (IH parent_store' n' all_children' Hstep).
  destruct (add_documents parent_split child_split uuid4 rest parent_store' n' all_children')
    as [[parent_store'' n''] all_children''].
  exact IH.
Qed.

(** C8. [get_parents_for_children] returns, position by position, the
    stored parents of the parent ids its input resolves to, in the
    order in which each id first occurs: every such id exactly once,
    where an id resolves when a child carries it, it is not empty and
    the store has it (every other child is skipped, and the function
    is total). When every stored parent is kept under its own id, as
    [create_parent_child_chunks] stores them, no parent occurs twice
    in the result. Two children of one stored parent resolve to that
    parent alone. *)
Theorem get_parents_for_children_first_occurrence_order
    (parent_store : gmap string Document) (child_docs : list Document) :
  let ids := first_occurrences (omap (resolvable parent_store) child_docs) in
  map Some (get_parents_for_children parent_store child_docs)
    = map (fun k => parent_store !! k) ids
  ∧ NoDup ids
  ∧ (∀ pid, pid ∈ ids
       ↔ ∃ child, child ∈ child_docs ∧ metadata child !! "parent_id" = Some pid
                  ∧ pid ≠ "" ∧ is_Some (parent_store !! pid))
  ∧ (store_keyed parent_store →
       NoDup (get_parents_for_children parent_store child_docs))
  ∧ (∀ c1 c2 pid parent,
       metadata c1 !! "parent_id" = Some pid →
       metadata c2 !! "parent_id" = Some pid →
       pid ≠ "" →
       parent_store !! pid = Some parent →
       get_parents_for_children parent_store [c1; c2] = [parent]).
Proof.
  intros ids. split; [apply get_parents_for_children_lookup|].
  split; [apply NoDup_first_occurrences|].
  split; [intros pid; unfold ids;
          rewrite elem_of_first_occurrences; apply elem_of_resolvable|].
  split.
  - intros Hkeyed.
    apply (NoDup_looked_up parent_store ids); [exact Hkeyed| |].
    + apply NoDup_first_occurrences.
    + apply get_parents_for_children_lookup.
  - intros c1 c2 pid parent H1 H2 Hne Hstore.
    apply truthy_ne_empty in Hne.
    unfold get_parents_for_children. simpl.
    rewrite H1, H2, Hne, Hstore. simpl.
    rewrite (bool_decide_eq_true_2 (pid ∉ (∅ : gset string))) by set_solver.
    rewrite (bool_decide_eq_false_2 (pid ∉ {[pid]} ∪ (∅ : gset string))) by set_solver.
    reflexivity.
Qed.

Lemma get_parents_for_children_first_occurrence_order_witness :
  NoDup (get_parents_for_children parents_p2 [c7; c12])
  ∧ get_parents_for_children parents_p2 [c7; c12] = [p2].
Proof.
  pose proof (get_parents_for_children_first_occurrence_order
                parents_p2 [c7; c12]) as (_ & _ & _ & Hnodup & Hsame).
  split.
  - apply Hnodup. intros k p Hkp. unfold parents_p2 in Hkp.
    apply lookup_singleton_Some in Hkp as [<- <-]. reflexivity.
  - apply (Hsame c7 c12 "p2" p2); [reflexivity | reflexivity | discriminate | reflexivity].
Defined.

End ParentChildFacts.

(** ** The retrieval pipeline *)

Module AdvancedRetrievalFacts.
Import Doc Config Exec AdvancedRetrieval Sample RetrievalSpec.

Section Pipeline.
Variable settings : Settings.
Variable multi_query_invoke base_invoke rerank_invoke
  : nat -> string -> result (list Document).

Local Notation attempted := (RetrievalSpec.attempted multi_query_invoke base_invoke).
Local Notation later_steps := (RetrievalSpec.later_steps settings rerank_invoke).

Lemma _retrieve_once_attempted (question : string) (use_multi_query : bool) (t : nat) :
  _retrieve_once multi_query_invoke base_invoke question use_multi_query t
  = (attempted use_multi_query t question, S t).
Proof. destruct use_multi_query; reflexivity. Qed.

(** Three failed attempts exhaust the retry and raise [RetryError]. *)
Lemma _retrieve_with_retry_exhausted (question : string) (use_multi_query : bool) (t : nat) :
  (∀ i, i < 3 → is_ok (attempted use_multi_query (t + i) question) = false) →
  _retrieve_with_retry multi_query_invoke base_invoke question use_multi_query t
  = (Raise RetryError, t + 3).
Proof.
  intros Hfail.
  pose proof (Hfail 0 ltac:(lia)) as H0.
  pose proof (Hfail 1 ltac:(lia)) as H1.
  pose proof (Hfail 2 ltac:(lia)) as H2.
  replace (t + 0) with t in H0 by lia.
  replace (t + 1) with (S t) in H1 by lia.
  replace (t + 2) with (S (S t)) in H2 by lia.
  replace (t + 3) with (S (S (S t))) by lia.
  unfold _retrieve_with_retry. cbn [retry]. unfold try_except.
  rewrite _retrieve_once_attempted.
  destruct (attempted use_multi_query t question); [discriminate|].
  cbv beta iota. rewrite _retrieve_once_attempted.
  destruct (attempted use_multi_query (S t) question); [discriminate|].
  cbv beta iota. rewrite _retrieve_once_attempted.
  destruct (attempted use_multi_query (S (S t)) question); [discriminate|].
  reflexivity.
Qed.

(** The candidate stage always ends with a value. *)
Lemma retrieve_candidates_total (question : string) (use_multi_query : bool) (t : nat) :
  ∃ candidates t',
    retrieve_candidates multi_query_invoke base_invoke question use_multi_query t
    = (Ok candidates, t').
Proof.
  unfold retrieve_candidates, _retrieve_with_retry. cbn [retry].
  unfold try_except, mbind, exec_bind, bind, mret, exec_ret, ret.
  rewrite _retrieve_once_attempted.
  destruct (attempted use_multi_query t question); [eauto|].
  cbv beta iota. rewrite _retrieve_once_attempted.
  destruct (attempted use_multi_query (S t) question); [eauto|].
  cbv beta iota. rewrite _retrieve_once_attempted.
  destruct (attempted use_multi_query (S (S t)) question); [eauto|].
  unfold raise, call. destruct (base_invoke (S (S (S t))) question); eauto.
Qed.

Lemma rerank_step_total (self : Service) (question : string) (use_reranking : bool)
    (docs : list Document) (t : nat) :
  ∃ docs' t',
    rerank_step settings rerank_invoke self question use_reranking docs t
    = (Ok docs', t').
Proof.
  unfold rerank_step, try_except, call, mret, exec_ret, ret.
  destruct (use_reranking && reranker self && (0 <? length docs)%nat); [|eauto].
  destruct (rerank_invoke t question); eauto.
Qed.

Lemma parent_step_total (self : Service) (use_parent_child : bool)
    (docs : list Document) (t : nat) :
  ∃ docs', parent_step self use_parent_child docs t = (Ok docs', t).
Proof.
  unfold parent_step, try_except, mret, exec_ret, ret.
  destruct use_parent_child; [|eauto].
  destruct (parent_child self) as [parent_store|]; [|eauto].
  destruct (ParentChildRetriever.get_parents_for_children parent_store docs); eauto.
Qed.

Lemma retrieve_after_candidates (self : Service) (question : string)
    (use_reranking use_multi_query use_parent_child : bool) (t t1 : nat)
    (candidates : option (list Document)) :
  retrieve_candidates multi_query_invoke base_invoke question use_multi_query t
    = (Ok candidates, t1) →
  retrieve settings multi_query_invoke base_invoke rerank_invoke self question
    use_reranking use_multi_query use_parent_child t
  = match candidates with
    | None => (Ok [], t1)
    | Some docs => later_steps self question use_reranking use_parent_child docs t1
    end.
Proof.
  intros Hcand. unfold retrieve, mbind, exec_bind, bind at 1. rewrite Hcand.
  destruct candidates; reflexivity.
Qed.

Lemma later_steps_total (self : Service) (question : string)
    (use_reranking use_parent_child : bool) (docs : list Document) (t : nat) :
  ∃ docs' t',
    later_steps self question use_reranking use_parent_child docs t = (Ok docs', t').
Proof.
  unfold later_steps, mbind, exec_bind, bind.
  destruct (rerank_step_total self question use_reranking docs t) as (d1 & t1 & ->).
  destruct (parent_step_total self use_parent_child d1 t1) as (d2 & ->).
  eauto.
Qed.

(** C6. [retrieve] always ends with a list and never with a raised
    exception. When the three attempts of the retried retrieval all
    fail, the fourth call is one direct search on the question: its
    documents are the candidates of the later steps when it
    succeeds, and when it fails too the result is the empty list. *)
Theorem retrieve_degrades_to_empty (self : Service) (question : string)
    (use_reranking use_multi_query use_parent_child : bool) (t : nat) :
  (∃ docs t',
     retrieve settings multi_query_invoke base_invoke rerank_invoke self question
       use_reranking use_multi_query use_parent_child t = (Ok docs, t'))
  ∧ ((∀ i, i < 3 → is_ok (attempted use_multi_query (t + i) question) = false) →
       retrieve settings multi_query_invoke base_invoke rerank_invoke self question
         use_reranking use_multi_query use_parent_child t
       = match base_invoke (t + 3) question with
         | Ok docs =>
             later_steps self question use_reranking use_parent_child docs (t + 4)
         | Raise _ => (Ok [], t + 4)
         end).
Proof.
  split.
  - destruct (retrieve_candidates_total question use_multi_query t)
      as (candidates & t1 & Hcand).
    rewrite (retrieve_after_candidates _ _ _ _ _ _ _ _ Hcand).
    destruct candidates as [docs|]; [|eauto].
    apply later_steps_total.
  - intros Hfail.
    assert (Hcand :
      retrieve_candidates multi_query_invoke base_invoke question use_multi_query t
      = (Ok (match base_invoke (t + 3) question with
             | Ok docs => Some docs
             | Raise _ => None
             end), t + 4)).
    { unfold retrieve_candidates, try_except, mbind, exec_bind, bind at 1.
      rewrite (_retrieve_with_retry_exhausted _ _ _ Hfail).
      unfold bind, call, mret, exec_ret, ret.
      replace (S (t + 3)) with (t + 4) by lia.
      destruct (base_invoke (t + 3) question); reflexivity. }
    rewrite (retrieve_after_candidates _ _ _ _ _ _ _ _ Hcand).
    destruct (base_invoke (t + 3) question); reflexivity.
Qed.
End Pipeline.

Lemma retrieve_degrades_to_empty_witness :
  retrieve default_settings down down down (MkService (Some parents_p2) true)
    "What changed?" true true true 0
  = (Ok [], 4).
Proof.
  apply (retrieve_degrades_to_empty default_settings down down down
           (MkService (Some parents_p2) true) "What changed?" true true true 0).
  intros i Hi. reflexivity.
Defined.

Lemma py_slice_to_nonempty {A} (l : list A) (n : Z) :
  l ≠ [] → (1 ≤ n)%Z → py_slice_to l n ≠ [].
Proof.
  intros Hl Hn. unfold py_slice_to.
  destruct (0 <=? n)%Z eqn:Hsign; [|lia].
  destruct l as [|x l]; [contradiction|].
  destruct (Z.to_nat n) as [|k] eqn:Hk; [lia|]. discriminate.
Qed.

Lemma parent_step_expanded (self : Service) (use_parent_child : bool)
    (docs : list Document) (t : nat) :
  parent_step self use_parent_child docs t = (Ok (expanded self use_parent_child docs), t).
Proof.
  unfold parent_step, expanded, try_except, mret, exec_ret, ret.
  destruct use_parent_child; [|reflexivity].
  destruct (parent_child self) as [parent_store|]; [|reflexivity].
  destruct (ParentChildRetriever.get_parents_for_children parent_store docs); reflexivity.
Qed.

Lemma expanded_nonempty (self : Service) (use_parent_child : bool) (docs : list Document) :
  docs ≠ [] → expanded self use_parent_child docs ≠ [].
Proof.
  intros Hdocs. unfold expanded.
  destruct use_parent_child; [|exact Hdocs].
  destruct (parent_child self) as [parent_store|]; [|exact Hdocs].
  destruct (ParentChildRetriever.get_parents_for_children parent_store docs);
    [exact Hdocs | discriminate].
Qed.

(** C7, as the code has it. When step 1 yields a non-empty candidate
    list, re-ranking is asked for, a re-ranker exists and its call
    raises, step 2 keeps the candidates in their order, cut to
    [rerank_top_n]; [retrieve] returns that list when parent expansion
    is off or resolves no parent, and the resolved parents of that list
    otherwise. It does not raise, and for a [rerank_top_n] of at least
    one the result is not empty. *)
Theorem retrieve_rerank_failure_keeps_order (settings : Settings)
    (multi_query_invoke base_invoke rerank_invoke : nat -> string -> result (list Document))
    (self : Service) (question : string) (use_multi_query use_parent_child : bool)
    (t t1 : nat) (docs : list Document) :
  retrieve_candidates multi_query_invoke base_invoke question use_multi_query t
    = (Ok (Some docs), t1) →
  docs ≠ [] →
  reranker self = true →
  is_ok (rerank_invoke t1 question) = false →
  let truncated := py_slice_to docs (rerank_top_n settings) in
  retrieve settings multi_query_invoke base_invoke rerank_invoke self question
    true use_multi_query use_parent_child t
  = (Ok (expanded self use_parent_child truncated), S t1)
  ∧ ((1 ≤ rerank_top_n settings)%Z → expanded self use_parent_child truncated ≠ []).
Proof.
  intros Hcand Hdocs Hreranker Hfail truncated. split.
  - rewrite (retrieve_after_candidates _ _ _ _ _ _ _ _ _ _ _ _ Hcand).
    unfold later_steps, mbind, exec_bind, bind at 1.
    unfold rerank_step. rewrite Hreranker.
    destruct docs as [|d docs]; [contradiction|]. simpl.
    unfold try_except, call.
    destruct (rerank_invoke t1 question); [discriminate|].
    unfold mret, exec_ret, ret, bind.
    rewrite parent_step_expanded. reflexivity.
  - intros Htop. apply expanded_nonempty, py_slice_to_nonempty; assumption.
Qed.

Lemma retrieve_rerank_failure_keeps_order_witness :
  retrieve default_settings (answers [c7; c12]) down down (MkService None true)
    "What changed?" true true false 0
  = (Ok [c7; c12], 2)
  ∧ [c7; c12] ≠ [].
Proof.
  pose proof (retrieve_rerank_failure_keeps_order default_settings
                (answers [c7; c12]) down down (MkService None true)
                "What changed?" true false 0 1 [c7; c12]
                eq_refl ltac:(discriminate) eq_refl eq_refl) as [Hret Hne].
  split; [exact Hret | apply Hne; vm_compute; discriminate].
Defined.

(** C7 as stated fails when parent expansion resolves a parent: the
    candidate c7 survives the failed re-ranking, and [retrieve] returns
    its parent p2 in its place. *)
Lemma retrieve_rerank_failure_returns_parents :
  let self := MkService (Some parents_p2) true in
  retrieve_candidates (answers [c7]) down "What changed?" true 0 = (Ok (Some [c7]), 1)
  ∧ is_ok (down 1 "What changed?") = false
  ∧ (retrieve default_settings (answers [c7]) down down self
       "What changed?" true true true 0).1 = Ok [p2]
  ∧ [p2] ≠ py_slice_to [c7] (rerank_top_n default_settings).
Proof.
  simpl. split; [reflexivity|]. split; [reflexivity|]. split.
  - vm_compute. reflexivity.
  - vm_compute. discriminate.
Qed.

End AdvancedRetrievalFacts.

(** ** Insertion-ordered dicts *)

Module PyDictFacts.

Section Dict.
Context {K V : Type} `{EqDecision K}.
Implicit Types (d : list (K * V)) (k : K) (v : V).

Lemma keys_set d k v :
  (PyDict.set d k v).*1 = if bool_decide (k ∈ d.*1) then d.*1 else d.*1 ++ [k].
Proof.
  induction d as [|[k' v'] d IH].
  - reflexivity.
  - cbn [PyDict.set]. destruct (decide (k' = k)) as [->|Hk].
    + rewrite (bool_decide_eq_true_2 (k = k)) by reflexivity.
      rewrite (bool_decide_eq_true_2 (k ∈ _)) by set_solver. reflexivity.
    + rewrite (bool_decide_eq_false_2 _ Hk), fmap_cons, IH. cbn [fst]. destruct (decide (k ∈ d.*1)) as [Hin|Hin].
      * rewrite !bool_decide_eq_true_2 by set_solver. reflexivity.
      * rewrite !bool_decide_eq_false_2 by set_solver. reflexivity.
Qed.

Lemma get_set d k v k' :
  PyDict.get (PyDict.set d k v) k'
  = if bool_decide (k = k') then Some v else PyDict.get d k'.
Proof.
  induction d as [|[k0 v0] d IH]; simpl.
  - repeat case_bool_decide; congruence.
  - destruct (decide (k0 = k)) as [->|Hk0].
    + rewrite (bool_decide_eq_true_2 (k = k)) by reflexivity. simpl.
      repeat case_bool_decide; congruence.
    + rewrite (bool_decide_eq_false_2 _ Hk0). simpl. rewrite IH.
      repeat case_bool_decide; congruence.
Qed.

Lemma get_is_Some d k : is_Some (PyDict.get d k) ↔ k ∈ d.*1.
Proof.
  induction d as [|[k0 v0] d IH]; simpl.
  - split; [intros [? ?]; discriminate | set_solver].
  - case_bool_decide as Hk.
    + subst k0. split; [set_solver | eauto].
    + rewrite IH. set_solver.
Qed.
End Dict.

End PyDictFacts.

(** ** The category indexes and their engines *)

Module MultiIndexFacts.
Import MultiIndexEngine MultiIndexSpec.

Lemma consistent_init : consistent init.
Proof.
  split; simpl; try reflexivity; [| constructor | set_solver].
  intros name. unfold init, categories. simpl.
  case_bool_decide as Hin.
  - repeat (apply elem_of_cons in Hin as [->|Hin]; [vm_compute; reflexivity|]).
    set_solver.
  - rewrite !lookup_insert_ne by set_solver. apply lookup_empty.
Qed.

Lemma add_documents_ok (documents : list LlamaDoc) (index_name : string) (st st' : State) :
  add_documents documents index_name st = Ok st' →
  is_Some (indexes st !! index_name)
  ∧ st' = _rebuild_engines
            {| indexes := <[index_name := Some (map node_of documents)]> (indexes st);
               query_engines :=
                 PyDict.set (query_engines st) index_name (map node_of documents);
               router_engine := router_engine st;
               sub_question_engine := sub_question_engine st |}.
Proof.
  unfold add_documents. case_bool_decide as Hknown; [|discriminate].
  intros [= <-]. split; [exact Hknown | reflexivity].
Qed.

Lemma length_keys {V} (d : list (string * V)) : length d.*1 = length d.
Proof. apply length_fmap. Qed.

Lemma consistent_add (documents : list LlamaDoc) (index_name : string) (st st' : State) :
  consistent st →
  add_documents documents index_name st = Ok st' →
  consistent st'.
Proof.
  intros [Hidx Hdistinct Hknown Hrouter Hsub] Hadd.
  apply add_documents_ok in Hadd as [Hvalid ->].
  assert (Hcat : index_name ∈ categories).
  { rewrite Hidx in Hvalid. case_bool_decide; [assumption|].
    destruct Hvalid; discriminate. }
  set (index := map node_of documents) in *.
  set (engines := PyDict.set (query_engines st) index_name index).
  assert (Hkeys : engines.*1
                  = if bool_decide (index_name ∈ (query_engines st).*1)
                    then (query_engines st).*1
                    else (query_engines st).*1 ++ [index_name])
    by apply PyDictFacts.keys_set.
  assert (Hlen : length (query_engines st) ≤ length engines).
  { rewrite <- (length_keys engines), Hkeys, <- (length_keys (query_engines st)).
    case_bool_decide; [lia | rewrite length_app; simpl; lia]. }
  assert (Hbase : consistent
    {| indexes := <[index_name := Some index]> (indexes st);
       query_engines := engines;
       router_engine :=
         if (2 <=? length engines)%nat
         then Some (RouterQueryEngine (map tool_of engines)) else router_engine st;
       sub_question_engine :=
         if (2 <=? length engines)%nat
         then Some (SubQuestionQueryEngine (map tool_of engines))
         else sub_question_engine st |}).
  { split; cbn [indexes query_engines router_engine sub_question_engine].
    - intros name. unfold engines. rewrite PyDictFacts.get_set, lookup_insert.
      destruct (decide (index_name = name)) as [->|Hne].
      + rewrite !bool_decide_eq_true_2 by (reflexivity || assumption). reflexivity.
      + rewrite (bool_decide_eq_false_2 _ Hne). apply Hidx.
    - rewrite Hkeys. case_bool_decide as Hin; [assumption|].
      apply NoDup_app. split; [assumption|]. split; [|apply NoDup_singleton].
      intros x Hx Hx'. apply list_elem_of_singleton in Hx'. subst x. contradiction.
    - intros name. rewrite Hkeys. case_bool_decide; [apply Hknown|].
      rewrite elem_of_app, list_elem_of_singleton. intros [Hin | ->]; auto.
    - destruct (2 <=? length engines)%nat eqn:Hge; [reflexivity|].
      rewrite Hrouter. apply Nat.leb_gt in Hge.
      rewrite (proj2 (Nat.leb_gt 2 (length (query_engines st)))) by lia. reflexivity.
    - destruct (2 <=? length engines)%nat eqn:Hge; [reflexivity|].
      rewrite Hsub. apply Nat.leb_gt in Hge.
      rewrite (proj2 (Nat.leb_gt 2 (length (query_engines st)))) by lia. reflexivity. }
  unfold _rebuild_engines.
  cbn [indexes query_engines router_engine sub_question_engine].
  rewrite length_map. fold engines.
  destruct (2 <=? length engines)%nat; exact Hbase.
Qed.

Lemma reachable_consistent (st : State) : reachable st → consistent st.
Proof.
  induction 1 as [|st documents index_name st' _ IH Hadd].
  - apply consistent_init.
  - exact (consistent_add _ _ _ _ IH Hadd).
Qed.

Lemma ready_iff_engine (st : State) (name : string) :
  consistent st → ready st name = true ↔ name ∈ (query_engines st).*1.
Proof.
  intros Hst. unfold ready. rewrite (indexes_follow st Hst).
  rewrite <- PyDictFacts.get_is_Some.
  case_bool_decide as Hcat.
  - destruct (PyDict.get (query_engines st) name);
      split; (discriminate || eauto || intros [? ?]; discriminate).
  - split; [discriminate|]. intros Hsome. exfalso. apply Hcat.
    apply (engines_known st Hst), PyDictFacts.get_is_Some, Hsome.
Qed.

Lemma ready_count_engines (st : State) :
  consistent st → ready_count st = length (query_engines st).
Proof.
  intros Hst. unfold ready_count. rewrite <- (length_keys (query_engines st)).
  apply Permutation_length, NoDup_Permutation.
  - apply NoDup_filter. unfold categories.
    repeat (constructor; [set_solver|]). constructor.
  - apply (engines_distinct st Hst).
  - intros name. rewrite list_elem_of_filter, (ready_iff_engine st name Hst).
    split; [tauto|]. intros Hin. split; [exact Hin|].
    apply (engines_known st Hst), Hin.
Qed.

Section Query.
Variable engine_query : engine -> string -> result Response.
Variable round_float : pyfloat -> Z -> pyfloat.

Local Notation answered := (MultiIndexSpec.answered round_float).

(** C4, as the code has it. In a state the engine can reach, a query
    of either engine type while no category index is READY returns
    the "no documents indexed" answer with an empty source list
    without raising; while exactly one category index is READY it
    is answered by the query engine of that one index, whatever that
    engine returns or raises. *)
Theorem query_below_two_ready (st : State) :
  reachable st →
  (ready_count st = 0 →
     ∀ question engine_type,
       query engine_query round_float st question engine_type = Ok no_documents)
  ∧ (ready_count st = 1 →
       ∃ name index,
         indexes st !! name = Some (Some index)
         ∧ (∀ other, ready st other = true → other = name)
         ∧ ∀ question engine_type,
             query engine_query round_float st question engine_type
             = answered (engine_query (IndexQueryEngine index) question)).
Proof.
  intros Hreach. pose proof (reachable_consistent st Hreach) as Hst.
  rewrite (ready_count_engines st Hst).
  pose proof (router_follows st Hst) as Hrouter.
  pose proof (sub_question_follows st Hst) as Hsub.
  split; intros Hcount.
  - intros question engine_type. rewrite Hcount in Hrouter, Hsub.
    destruct (query_engines st) eqn:Hengines; [|discriminate].
    unfold query, select_engine. rewrite Hrouter, Hsub, Hengines.
    destruct (bool_decide (engine_type = "sub_question")); reflexivity.
  - rewrite Hcount in Hrouter, Hsub.
    destruct (query_engines st) as [|[name index] [|? ?]] eqn:Hengines;
      try discriminate.
    exists name, index. split; [|split].
    + rewrite (indexes_follow st Hst), Hengines.
      rewrite bool_decide_eq_true_2.
      * simpl. rewrite bool_decide_eq_true_2 by reflexivity. reflexivity.
      * apply (engines_known st Hst). rewrite Hengines. set_solver.
    + intros other Hother. apply (ready_iff_engine st other Hst) in Hother.
      rewrite Hengines in Hother. set_solver.
    + intros question engine_type.
      unfold query, select_engine. rewrite Hrouter, Hsub, Hengines.
      destruct (bool_decide (engine_type = "sub_question")); reflexivity.
Qed.
End Query.

Lemma one_ready_reachable : reachable one_ready.
Proof.
  apply (reachable_add init [Sample.report_a] "audit"); [constructor|].
  vm_compute. reflexivity.
Qed.

Lemma one_ready_count : ready_count one_ready = 1.
Proof. vm_compute. reflexivity. Qed.

Lemma query_below_two_ready_witness :
  (∀ question engine_type,
     query Sample.first_node_engine Sample.round_id init question engine_type
     = Ok no_documents)
  ∧ ∃ name index,
      indexes one_ready !! name = Some (Some index)
      ∧ (∀ other, ready one_ready other = true → other = name)
      ∧ ∀ question engine_type,
          query Sample.first_node_engine Sample.round_id one_ready question engine_type
          = answered Sample.round_id
              (Sample.first_node_engine (IndexQueryEngine index) question).
Proof.
  split.
  - apply (query_below_two_ready Sample.first_node_engine Sample.round_id init
             reachable_init). vm_compute. reflexivity.
  - apply (query_below_two_ready Sample.first_node_engine Sample.round_id one_ready
             one_ready_reachable). exact one_ready_count.
Defined.

(** C4 as stated fails with exactly one category READY: the router
    query is answered from the audit index. *)
Lemma query_one_ready_answers_from_index :
  reachable one_ready
  ∧ ready_count one_ready = 1
  ∧ query Sample.first_node_engine Sample.round_id one_ready
      "Which findings are overdue?" "router"
    = Ok {| answer := "Finding A: access reviews overdue"; sources := [] |}
  ∧ query Sample.first_node_engine Sample.round_id one_ready
      "Which findings are overdue?" "router"
    ≠ Ok no_documents.
Proof.
  split; [exact one_ready_reachable|]. split; [exact one_ready_count|].
  assert (Hq : query Sample.first_node_engine Sample.round_id one_ready
                 "Which findings are overdue?" "router"
               = Ok {| answer := "Finding A: access reviews overdue"; sources := [] |})
    by (vm_compute; reflexivity).
  split; [exact Hq|]. rewrite Hq. discriminate.
Qed.

(** C5, what the code does. A second [add_documents] for a category
    builds the category's index, and its query engine, from the
    documents of that call alone. *)
Theorem add_documents_replaces_index (docs1 docs2 : list LlamaDoc) (name : string)
    (st st1 st2 : State) :
  add_documents docs1 name st = Ok st1 →
  add_documents docs2 name st1 = Ok st2 →
  indexes st2 !! name = Some (Some (map node_of docs2))
  ∧ PyDict.get (query_engines st2) name = Some (map node_of docs2).
Proof.
  intros _ Hadd2. apply add_documents_ok in Hadd2 as [_ ->].
  unfold _rebuild_engines.
  cbn [indexes query_engines router_engine sub_question_engine].
  destruct (2 <=? _)%nat; cbn [indexes query_engines];
    rewrite lookup_insert_eq, PyDictFacts.get_set, bool_decide_eq_true_2 by reflexivity;
    split; reflexivity.
Qed.

Lemma add_documents_replaces_index_witness :
  ∃ st2, two_uploads = Ok st2
         ∧ indexes st2 !! "audit" = Some (Some [node_of Sample.report_b])
         ∧ node_of Sample.report_a ∉ [node_of Sample.report_b].
Proof.
  destruct two_uploads as [st2|e] eqn:Htwo; [|vm_compute in Htwo; discriminate].
  exists st2. split; [reflexivity|]. split.
  - unfold two_uploads in Htwo.
    destruct (add_documents [Sample.report_a] "audit" init) as [st1|] eqn:Hone;
      [|discriminate].
    apply (add_documents_replaces_index [Sample.report_a] [Sample.report_b]
             "audit" init st1 st2 Hone Htwo).
  - intros Hin. apply list_elem_of_singleton in Hin. discriminate.
Defined.

End MultiIndexFacts.

(** ** The json round trip *)

Module JsonFacts.
Import Json JsonSpec.

Lemma set_fresh {V} (d : list (pykey * V)) (k : pykey) (v : V) :
  k ∉ d.*1 → PyDict.set d k v = d ++ [(k, v)].
Proof.
  induction d as [|[k' v'] d IH]; intros Hfresh; [reflexivity|].
  cbn [PyDict.set]. rewrite fmap_cons in Hfresh. cbn [fst] in Hfresh.
  rewrite bool_decide_eq_false_2 by set_solver.
  rewrite IH by set_solver. reflexivity.
Qed.

Lemma fold_set_distinct {V} (items acc : list (pykey * V)) :
  NoDup (acc ++ items).*1 →
  fold_left (fun d kv => PyDict.set d kv.1 kv.2) items acc = acc ++ items.
Proof.
  revert acc. induction items as [|[k v] items IH]; intros acc Hnodup; simpl.
  - rewrite app_nil_r. reflexivity.
  - rewrite fmap_app, fmap_cons in Hnodup. cbn [fst] in Hnodup.
    rewrite set_fresh.
    + rewrite IH; rewrite <- app_assoc; [reflexivity|].
      rewrite fmap_app. exact Hnodup.
    + apply NoDup_app in Hnodup as (_ & Hdisj & _). intros Hin.
      apply (Hdisj k Hin). set_solver.
Qed.

(** A dict with distinct keys is rebuilt item by item as it was. *)
Lemma of_items_distinct {V} (items : list (pykey * V)) :
  NoDup items.*1 → PyDict.of_items items = items.
Proof. intros Hnodup. unfold PyDict.of_items. apply (fold_set_distinct items []), Hnodup. Qed.

Lemma dumps_float_loads (f : pyfloat) :
  negb (PyFloat.is_nan f) || bool_decide (f = PyFloat.nan) = true →
  loads (if PyFloat.is_nan f then JNaN else JFloat f) = PFloat f.
Proof.
  destruct (PyFloat.is_nan f); simpl; [|reflexivity].
  intros Hnan. apply bool_decide_eq_true_1 in Hnan. subst f. reflexivity.
Qed.

Lemma dumps_list (items : list pyval) :
  dumps (PList items)
  = match sequence (map dumps items) with
    | Ok js => Ok (JArray js)
    | Raise e => Raise e
    end.
Proof. reflexivity. Qed.

Lemma dumps_dict (items : list (pykey * pyval)) :
  dumps (PDict items)
  = match sequence (map (fun kv => dumps_member (dumps_key kv.1, dumps kv.2)) items) with
    | Ok ms => Ok (JObject ms)
    | Raise e => Raise e
    end.
Proof. reflexivity. Qed.

Lemma loads_array (js : list json) : loads (JArray js) = PList (map loads js).
Proof. reflexivity. Qed.

Lemma loads_object (ms : list (string * json)) :
  loads (JObject ms)
  = PDict (PyDict.of_items (map (fun m => (KStr m.1, loads m.2)) ms)).
Proof. reflexivity. Qed.

(** A JSON-native value is written without an exception and read back
    as it was. *)
Lemma loads_dumps (v : pyval) :
  json_native v = true → ∃ j, dumps v = Ok j ∧ loads j = v.
Proof.
  induction v as [| b | n | f | s | items IH | items IH | items IH | str]
    using pyval_nested_ind; intros Hnative; try discriminate;
    try (eexists; split; reflexivity).
  - eexists. split; [reflexivity|]. apply dumps_float_loads, Hnative.
  - assert (Hitems : ∃ js, sequence (map dumps items) = Ok js ∧ map loads js = items).
    { simpl in Hnative. induction IH as [|x r Hx _ IHr]; [exists []; split; reflexivity|].
      simpl in Hnative. apply andb_true_iff in Hnative as [Hnx Hnr].
      destruct (Hx Hnx) as (j & Hj & Hjx). destruct (IHr Hnr) as (js & Hjs & Hjr).
      exists (j :: js). simpl. rewrite Hj, Hjs. split; [reflexivity|].
      rewrite Hjx, Hjr. reflexivity. }
    destruct Hitems as (js & Hjs & Hback). exists (JArray js).
    rewrite dumps_list, Hjs, loads_array, Hback. split; reflexivity.
  - simpl in Hnative. apply andb_true_iff in Hnative as [Hvalues Hkeys].
    apply bool_decide_eq_true_1 in Hkeys.
    assert (Hitems : ∃ ms,
      sequence (map (fun kv => dumps_member (dumps_key kv.1, dumps kv.2)) items) = Ok ms
      ∧ map (fun m => (KStr m.1, loads m.2)) ms = items).
    { clear Hkeys. induction IH as [|[k x] r Hx _ IHr]; [exists []; split; reflexivity|].
      simpl in Hvalues. apply andb_true_iff in Hvalues as [Hkx Hnr].
      apply andb_true_iff in Hkx as [Hk Hnx].
      destruct k as [key| | | |]; try discriminate.
      destruct (Hx Hnx) as (j & Hj & Hjx). destruct (IHr Hnr) as (ms & Hms & Hmr).
      exists ((key, j) :: ms). simpl in *. rewrite Hj, Hms. split; [reflexivity|].
      rewrite Hjx, Hmr. reflexivity. }
    destruct Hitems as (ms & Hms & Hback). exists (JObject ms).
    rewrite dumps_dict, Hms, loads_object, Hback, (of_items_distinct items Hkeys).
    split; reflexivity.
Qed.

End JsonFacts.

(** ** The answer cache *)

Module CacheFacts.
Import Json Exec CacheService.

Section Cache.
Variable sha256_hexdigest : string -> string.

Lemma _make_key_prefix (question : string) :
  String.prefix "rag_cache:" (_make_key sha256_hexdigest question) = true.
Proof.
  unfold _make_key. simpl.
  destruct (PyStr.slice_to 16 _); reflexivity.
Qed.



Lemma set_stores (self : t) (now : Z) (question : string) (v : pyval) (text : json)
    (c : Redis.Client) :
  enabled self = true →
  Redis.reachable c = true →
  (0 < ttl self)%Z →
  dumps v = Ok text →
  set sha256_hexdigest self now question v c
  = (Ok tt,
     {| Redis.reachable := true;
        Redis.data :=
          <[_make_key sha256_hexdigest question
              := Redis.MkEntry text (now + ttl self)]> (Redis.data c) |}).
Proof.
  intros Henabled Hup Httl Htext.
  unfold set, try_except, mbind, exec_bind, bind, lift, Redis.setex, Redis.command.
  rewrite Henabled, Htext. cbn beta iota delta [negb]. rewrite Hup.
  rewrite (proj2 (Z.ltb_lt 0 (ttl self)) Httl). reflexivity.
Qed.

Lemma get_reads (self : t) (now : Z) (question : string) (c : Redis.Client) :
  enabled self = true →
  Redis.reachable c = true →
  get sha256_hexdigest self now question c
  = (Ok (match Redis.data c !! _make_key sha256_hexdigest question with
         | Some e => if Redis.live now e then Some (loads (Redis.value e)) else None
         | None => None
         end), c).
Proof.
  intros Henabled Hup.
  unfold get, try_except, mbind, exec_bind, bind, Redis.get, Redis.command.
  rewrite Henabled. cbn beta iota delta [negb]. rewrite Hup.
  unfold mret, exec_ret, ret.
  destruct (Redis.data c !! _make_key sha256_hexdigest question) as [e|];
    [destruct (Redis.live now e)|]; reflexivity.
Qed.

(** After [clear], what is left under the cache's prefix has
    expired. *)
Lemma clear_leaves_expired (self : t) (now : Z) (c : Redis.Client) :
  enabled self = true →
  Redis.reachable c = true →
  ∃ c', clear self now c = (Ok tt, c')
        ∧ Redis.reachable c' = true
        ∧ ∀ k e, String.prefix "rag_cache:" k = true →
                 Redis.data c' !! k = Some e → Redis.live now e = false.
Proof.
  intros Henabled Hup.
  unfold clear, try_except, mbind, exec_bind, bind, Redis.keys, Redis.command.
  rewrite Henabled. cbn beta iota delta [negb]. rewrite Hup.
  set (found := (map_to_list (filter (Redis.matches now "rag_cache:") (Redis.data c))).*1).
  assert (Hfound : ∀ k e, String.prefix "rag_cache:" k = true →
            Redis.data c !! k = Some e → k ∉ found → Redis.live now e = false).
  { intros k e Hpre Hk Hnot. destruct (Redis.live now e) eqn:Hlive; [|reflexivity].
    exfalso. apply Hnot. unfold found.
    apply list_elem_of_fmap. exists (k, e). split; [reflexivity|].
    apply elem_of_map_to_list, map_lookup_filter_Some. split; [exact Hk|].
    split; assumption. }
  destruct found as [|k0 found'] eqn:Hkeys.
  - exists c. split; [reflexivity|]. split; [exact Hup|].
    intros k e Hpre Hk. apply (Hfound k e Hpre Hk). set_solver.
  - unfold Redis.delete, Redis.command. rewrite Hup. eexists.
    split; [reflexivity|]. split; [reflexivity|]. cbn [Redis.data].
    intros k e Hpre Hk. destruct (decide (k ∈ k0 :: found')) as [Hin|Hnot].
    + rewrite (lookup_foldr_delete _ _ _ Hin) in Hk. discriminate.
    + rewrite (lookup_foldr_delete_not_elem_of _ _ _ Hnot) in Hk.
      apply (Hfound k e Hpre Hk Hnot).
Qed.

End Cache.

End CacheFacts.

Module CacheExamples.
Import Json Config CacheService.




End CacheExamples.

(** ** The application: ingestion, deletion and questions *)

Module MainFacts.
Import Doc Config Exec AccessControl Json Main MainSpec.

Section Preserves.
Context {X : Type} (f : AppState → X).

Lemma preserves_ret {A} (a : A) : preserves f (mret a).
Proof. intros st. reflexivity. Qed.


Lemma preserves_lift {A} (r : result A) : preserves f (lift r).
Proof. intros st. reflexivity. Qed.


Lemma preserves_modify (g : AppState → AppState) :
  (∀ st, f (g st) = f st) → preserves f (modify g).
Proof. intros Hg st. apply Hg. Qed.

Lemma preserves_bind {A B} (m : M AppState A) (k : A → M AppState B) :
  preserves f m → (∀ a, preserves f (k a)) → preserves f (m ≫= k).
Proof.
  intros Hm Hk st. unfold mbind, exec_bind, bind.
  specialize (Hm st). destruct (m st) as [[a|e] st']; simpl in *.
  - rewrite Hk. exact Hm.
  - exact Hm.
Qed.

Lemma preserves_try_except {A} (m : M AppState A) (h : exn → M AppState A) :
  preserves f m → (∀ e, preserves f (h e)) → preserves f (try_except m h).
Proof.
  intros Hm Hh st. unfold try_except.
  specialize (Hm st). destruct (m st) as [[a|e] st']; simpl in *.
  - exact Hm.
  - rewrite Hh. exact Hm.
Qed.
End Preserves.

Section Ingestion.
Variable load_document : string -> result (list Document).
Variable split_documents : list Document -> list Document.
Variable splitext_ext : string -> string.
Variable strftime : string.

Lemma ingest_file_preserves {X} (f : AppState → X) (file_path : string) :
  (∀ p st, f (set_points p st) = f st) →
  preserves f (ingest_file load_document split_documents file_path).
Proof.
  intros Hf st. unfold ingest_file.
  destruct (DocumentProcessor.ingest_file _ _ _ _) as [[n points']|e]; simpl; auto.
Qed.

Lemma multi_add_documents_preserves {X} (f : AppState → X)
    (docs : list MultiIndexEngine.LlamaDoc) (index_name : string) :
  (∀ m st, f (set_multi_engine m st) = f st) →
  preserves f (multi_add_documents docs index_name).
Proof.
  intros Hf st. unfold multi_add_documents.
  destruct (MultiIndexEngine.add_documents _ _ _) as [m|e]; simpl; auto.
Qed.

(** Ingestion reads and writes neither the cache nor the parent
    store. *)
Lemma _process_document_background_preserves {X} (f : AppState → X)
    (job_id file_path filename category access_group : string) :
  (∀ j s st, f (set_job j s st) = f st) →
  (∀ p st, f (set_points p st) = f st) →
  (∀ m st, f (set_multi_engine m st) = f st) →
  (∀ r st, f (set_registry r st) = f st) →
  preserves f
    (_process_document_background load_document split_documents splitext_ext strftime
       job_id file_path filename category access_group).
Proof.
  intros Hjob Hpoints Hmulti Hregistry. unfold _process_document_background.
  apply preserves_try_except; [|intros e; apply preserves_modify; auto].
  apply preserves_bind; [apply preserves_modify; auto | intros _].
  apply preserves_bind; [apply ingest_file_preserves; auto | intros chunk_count].
  apply preserves_bind; [apply preserves_lift | intros documents].
  apply preserves_bind.
  - case_bool_decide; [apply multi_add_documents_preserves; auto | apply preserves_ret].
  - intros _. apply preserves_bind; [|intros _]; apply preserves_modify; auto.
Qed.
End Ingestion.



(** A deletion that goes through empties the cache. *)
Lemma delete_document_clears_cache (now later : Z) (document_id : string)
    (request : Request) (st : AppState) (u : user) (doc_info : DocumentInfo)
    (cs : CacheService.t) (sha256_hexdigest : string -> string) (question : string) :
  get_current_user request = Ok u →
  "ALL" ∈ access_groups u →
  document_registry st !! document_id = Some doc_info →
  cache_service st = Some cs →
  CacheService.enabled cs = true →
  Redis.reachable (redis st) = true →
  (now ≤ later)%Z →
  let after := (delete_document now document_id request st).2 in
  document_registry after !! document_id = None
  ∧ (CacheService.get sha256_hexdigest cs later question (redis after)).1 = Ok None.
Proof.
  intros Huser Hadmin Hdoc Hcs Henabled Hup Hlater after.
  destruct (CacheFacts.clear_leaves_expired cs now (redis st) Henabled Hup)
    as (c' & Hclear & Hup' & Hleft).
  assert (Hafter : after = set_redis c' (set_registry (delete document_id (document_registry st)) st)).
  { unfold after, delete_document, mbind, exec_bind, bind, lift.
    rewrite Huser, (bool_decide_eq_true_2 _ Hadmin). simpl.
    rewrite Hdoc. unfold modify, clear_cache_if_any, mbind, exec_bind, bind, get.
    simpl. rewrite Hcs. unfold on_redis. simpl. rewrite Hclear. reflexivity. }
  rewrite Hafter. simpl. split; [apply lookup_delete_eq|].
  rewrite (CacheFacts.get_reads sha256_hexdigest cs later question c' Henabled Hup').
  simpl. destruct (Redis.data c' !! _) as [e|] eqn:Hkey; [|reflexivity].
  pose proof (Hleft _ e (CacheFacts._make_key_prefix sha256_hexdigest question) Hkey) as Hdead.
  unfold Redis.live in *. apply Z.ltb_ge in Hdead.
  rewrite (proj2 (Z.ltb_ge later (Redis.expires_at e))) by lia. reflexivity.
Qed.

(** *** The divergences, on a run of the application *)

(** C2, at an ingestion. The answer cached before the upload of doc-1 is
    still served after the upload has completed and the collection has
    grown: [_process_document_background] never calls [clear], as
    [delete_document] does. *)
Theorem ingestion_keeps_cached_answer :
  let after := (ingest_emea with_cached_answer).2 in
  processing_jobs after !! "doc-1" = Some COMPLETED
  ∧ points with_cached_answer = []
  ∧ points after = [emea_page]
  ∧ redis after = redis with_cached_answer
  ∧ (CacheService.get Sample.digest sample_cache 1 "What is open?" (redis after)).1
    = Ok (Some Sample.payload).
Proof.
  intros after.
  assert (Hredis : redis after = redis with_cached_answer).
  { apply (_process_document_background_preserves Sample.load_page Sample.keep_whole
             Sample.txt_ext "2025-03-01T09:00:00Z" redis); reflexivity. }
  split; [vm_compute; reflexivity|]. split; [reflexivity|].
  split; [vm_compute; reflexivity|]. split; [exact Hredis|].
  rewrite Hredis. vm_compute. reflexivity.
Qed.


(** The search of the question path takes the best [k] points, whoever
    asks. *)
Lemma get_retriever_unfiltered (rank : string -> list Document -> list Document)
    (settings : Settings) (points : list Document) (question : string) :
  VectorStore.invoke rank (DocumentProcessor.get_retriever settings) points question
  = take (Z.to_nat (retrieval_top_k settings)) (rank question points).
Proof.
  unfold VectorStore.invoke, VectorStore.similarity_search, DocumentProcessor.get_retriever.
  simpl. f_equal. induction (rank question points) as [|d l IH]; [reflexivity|].
  rewrite filter_cons. destruct (decide _) as [_|Hno]; [|contradiction Hno; reflexivity].
  f_equal. exact IH.
Qed.

(** A search that is given the filter of [build_access_filter] returns
    accessible points only. *)
Lemma filtered_search_accessible (rank : string -> list Document -> list Document)
    (u : user) (points : list Document) (question : string) (k : Z) (d : Document) :
  "ALL" ∉ access_groups u →
  d ∈ VectorStore.similarity_search rank points question k (Some (build_access_filter u)) →
  ∃ group, metadata d !! "access_group" = Some group ∧ group ∈ access_groups u.
Proof.
  intros Hall Hin. unfold VectorStore.similarity_search in Hin.
  apply elem_of_take in Hin as (i & Hi & _). apply list_elem_of_lookup_2 in Hi.
  apply list_elem_of_filter in Hi as [Hacc _].
  unfold build_access_filter in Hacc. rewrite (bool_decide_eq_false_2 _ Hall) in Hacc.
  simpl in Hacc. unfold VectorStore.cond_accepts in Hacc. simpl in Hacc.
  destruct (metadata d !! "access_group") as [group|]; [|discriminate].
  exists group. split; [reflexivity|].
  rewrite andb_true_r in Hacc. apply bool_decide_eq_true_1 in Hacc. exact Hacc.
Qed.

(** The payloads [ask_question] caches are JSON-native. *)
Lemma source_dict_native (content source file_type : string)
    (page sheet_name slide_number : option string) (score : option pyfloat) :
  (∀ f, score = Some f → float_exact f = true) →
  json_native (source_dict content source file_type page sheet_name slide_number score)
  = true.
Proof.
  intros Hscore. unfold source_dict.
  assert (Hs : json_native (opt_float score) = true).
  { destruct score as [f|]; [apply (Hscore f eq_refl) | reflexivity]. }
  assert (Ho : ∀ o, json_native (opt_str o) = true) by (intros [?|]; reflexivity).
  cbn [json_native forallb fst snd is_str_key andb].
  rewrite Hs, !Ho. vm_compute. reflexivity.
Qed.

Lemma response_data_native (answer : string) (sources : list pyval)
    (model_used engine_name : string) (elapsed_ms : pyfloat) :
  forallb json_native sources = true →
  float_exact elapsed_ms = true →
  json_native (response_data answer sources model_used engine_name elapsed_ms) = true.
Proof.
  intros Hsources Helapsed. unfold response_data.
  cbn [json_native forallb fst snd is_str_key andb].
  unfold float_exact in Helapsed. rewrite Hsources, Helapsed. vm_compute. reflexivity.
Qed.

Lemma standard_sources_native (l : list LangChainOrchestrator.source) :
  forallb json_native (map source_of_standard l) = true.
Proof.
  induction l as [|s l IH]; [reflexivity|]. cbn [map forallb].
  rewrite IH, andb_true_r. apply source_dict_native. discriminate.
Qed.

(** The retriever of the application returns the inaccessible best hit
    and four accessible ones; a search given the viewer's filter would
    return the five accessible hits. *)
Lemma unfiltered_top_5_includes_emea :
  VectorStore.invoke Sample.as_stored (DocumentProcessor.get_retriever top_5)
    tagged_points "q"
  = take 5 tagged_points
  ∧ VectorStore.similarity_search Sample.as_stored tagged_points "q" 5
      (Some (build_access_filter (MkUser "viewer" "Viewer" ["GLOBAL_AUDIT"])))
    = drop 1 tagged_points.
Proof. split; vm_compute; reflexivity. Qed.

Section Questions.
Variable settings : Settings.
Variable rank : string -> list Document -> list Document.
Variable chain_invoke : string -> list LangChainOrchestrator.message -> string -> result string.
Variable uuid4 : nat -> string.
Variable engine_query : MultiIndexEngine.engine -> string -> result MultiIndexEngine.Response.
Variable round_float : pyfloat -> Z -> pyfloat.
Variable sha256_hexdigest : string -> string.
Variable elapsed_ms : pyfloat.

(** What [ask_question] does is the same for every requester that is
    let in: the resolved user is not used again. *)
Lemma ask_question_ignores_user (now : Z) (request_body : QuestionRequest)
    (request1 request2 : Request) (u1 u2 : user) (st : AppState) :
  get_current_user request1 = Ok u1 →
  get_current_user request2 = Ok u2 →
  ask_question settings rank chain_invoke uuid4 engine_query round_float
    sha256_hexdigest elapsed_ms now request_body request1 st
  = ask_question settings rank chain_invoke uuid4 engine_query round_float
      sha256_hexdigest elapsed_ms now request_body request2 st.
Proof.
  intros H1 H2. unfold ask_question, mbind, exec_bind, bind at 1 3, lift.
  rewrite H1, H2. reflexivity.
Qed.
End Questions.

(** C1, at a question. After the upload of doc-1 with access group
    EMEA_AUDIT, a viewer, whose groups are GLOBAL_AUDIT alone, asks a
    question: the search returns the chunk of doc-1, which carries no
    [access_group] at all, and the sources of the answer cite it. The
    retriever was made without a filter and the question path never
    builds one. *)
Theorem viewer_answer_cites_emea_document :
  let st := (ingest_emea Sample.started).2 in
  let retrieved :=
    VectorStore.invoke Sample.as_stored (DocumentProcessor.get_retriever default_settings)
      (points st) (question viewer_question) in
  (access_group <$> document_registry st !! "doc-1") = Some "EMEA_AUDIT"
  ∧ (access_groups <$> match get_current_user Sample.viewer_request with
                       | Ok u => Some u
                       | Raise _ => None
                       end) = Some ["GLOBAL_AUDIT"]
  ∧ VectorStore.search_filter (DocumentProcessor.get_retriever default_settings) = None
  ∧ retrieved = [emea_page]
  ∧ metadata emea_page !! "access_group" = None
  ∧ ∃ items,
      (ask_question default_settings Sample.as_stored Sample.repeat_context Sample.numbered
         Sample.first_node_engine Sample.round_id Sample.digest Sample.ms_12_5
         7 viewer_question Sample.viewer_request st).1 = Ok (PDict items)
      ∧ PyDict.get items (KStr "sources")
        = Some (PList [source_dict (page_content emea_page) "Unknown" "txt"
                         None None None None]).
Proof.
  intros st retrieved.
  split; [vm_compute; reflexivity|]. split; [vm_compute; reflexivity|].
  split; [reflexivity|]. split; [vm_compute; reflexivity|].
  split; [vm_compute; reflexivity|].
  eexists. split; vm_compute; reflexivity.
Qed.

End MainFacts.
(** ** The answer cache: failures, expiry, what comes back, counting *)

Module CacheBehaviour.
Import Json Exec Config CacheService.

Lemma sequence_Forall2 {A B} (f : A → result B) (l : list A) (rs : list B) :
  sequence (map f l) = Ok rs → Forall2 (fun x r => f x = Ok r) l rs.
Proof.
  revert rs. induction l as [|x l IH]; intros rs Hseq; simpl in Hseq.
  - injection Hseq as <-. constructor.
  - destruct (f x) as [r|e] eqn:Hx; [|discriminate].
    destruct (sequence (map f l)) as [rs'|e]; [|discriminate].
    injection Hseq as <-. constructor; [exact Hx | apply IH; reflexivity].
Qed.

Lemma set_Forall {V} (P : pykey * V → Prop) (d : list (pykey * V)) (k : pykey) (v : V) :
  Forall P d → P (k, v) → Forall P (PyDict.set d k v).
Proof.
  intros Hd Hkv. induction Hd as [|[k' v'] d Hhead Htail IH]; simpl.
  - constructor; [exact Hkv | constructor].
  - case_bool_decide as Hk.
    + subst k'. constructor; assumption.
    + constructor; assumption.
Qed.

Lemma of_items_Forall {V} (P : pykey * V → Prop) (items : list (pykey * V)) :
  Forall P items → Forall P (PyDict.of_items items).
Proof.
  unfold PyDict.of_items. generalize (@nil (pykey * V)) (List.Forall_nil P).
  induction items as [|[k v] items IH]; intros acc Hacc Hitems; simpl; [exact Hacc|].
  apply Forall_cons in Hitems as [Hkv Hitems].
  apply IH; [apply set_Forall; assumption | exact Hitems].
Qed.

Lemma of_items_keys_distinct {V} (items : list (pykey * V)) :
  NoDup (PyDict.of_items items).*1.
Proof.
  unfold PyDict.of_items.
  assert (Hnil : NoDup (@nil (pykey * V)).*1) by constructor.
  revert Hnil. generalize (@nil (pykey * V)).
  induction items as [|[k v] items IH]; intros acc Hacc; simpl; [exact Hacc|].
  apply IH. rewrite PyDictFacts.keys_set. case_bool_decide as Hin; [exact Hacc|].
  apply NoDup_app. split; [exact Hacc|]. split; [|apply NoDup_singleton].
  intros x Hx Hx'. apply list_elem_of_singleton in Hx'. subst x. contradiction.
Qed.

(** Whatever [dumps] wrote is read back as a JSON-native value. *)
Lemma loads_is_native (v : pyval) (text : json) :
  dumps v = Ok text → json_native (loads text) = true.
Proof.
  revert text.
  induction v as [| b | n | f | s | items IH | items IH | items IH | str]
    using JsonSpec.pyval_nested_ind; intros text Hdumps.
  - injection Hdumps as <-. reflexivity.
  - injection Hdumps as <-. reflexivity.
  - injection Hdumps as <-. reflexivity.
  - cbn [dumps] in Hdumps.
    destruct (PyFloat.is_nan f) eqn:Hnan; injection Hdumps as <-;
      cbn [loads json_native].
    + apply orb_true_iff. right. apply bool_decide_eq_true_2. reflexivity.
    + rewrite Hnan. reflexivity.
  - injection Hdumps as <-. reflexivity.
  - rewrite JsonFacts.dumps_list in Hdumps.
    destruct (sequence (map dumps items)) as [js|] eqn:Hseq; [|discriminate].
    injection Hdumps as <-. rewrite JsonFacts.loads_array.
    apply sequence_Forall2 in Hseq. cbn [json_native].
    induction Hseq as [|x j l js Hx _ IHl]; [reflexivity|].
    apply Forall_cons in IH as [IHx IHrest]. cbn [map forallb].
    rewrite (IHx j Hx), (IHl IHrest). reflexivity.
  - change (dumps (PTuple items)) with (dumps (PList items)) in Hdumps.
    rewrite JsonFacts.dumps_list in Hdumps.
    destruct (sequence (map dumps items)) as [js|] eqn:Hseq; [|discriminate].
    injection Hdumps as <-. rewrite JsonFacts.loads_array.
    apply sequence_Forall2 in Hseq. cbn [json_native].
    induction Hseq as [|x j l js Hx _ IHl]; [reflexivity|].
    apply Forall_cons in IH as [IHx IHrest]. cbn [map forallb].
    rewrite (IHx j Hx), (IHl IHrest). reflexivity.
  - rewrite JsonFacts.dumps_dict in Hdumps.
    destruct (sequence _) as [ms|] eqn:Hseq; [|discriminate].
    injection Hdumps as <-. rewrite JsonFacts.loads_object.
    apply sequence_Forall2 in Hseq. cbn [json_native].
    apply andb_true_iff. split;
      [|apply bool_decide_eq_true_2, of_items_keys_distinct].
    apply Is_true_true, forallb_True, of_items_Forall.
    induction Hseq as [|[k x] [name j] l ms Hkx _ IHl]; [constructor|].
    apply Forall_cons in IH as [IHx IHrest]. cbn [map].
    constructor; [|apply IHl, IHrest]. cbn [fst snd is_str_key andb].
    cbn [fst snd] in Hkx, IHx. unfold dumps_member in Hkx.
    destruct (dumps_key k); [|discriminate].
    destruct (dumps x) as [j'|] eqn:Hx; [|discriminate].
    injection Hkx as _ <-. apply Is_true_true, (IHx j' eq_refl).
  - injection Hdumps as <-. reflexivity.
Qed.

Section Cache.
Variable sha256_hexdigest : string -> string.
Variable settings : Settings.

Lemma get_unavailable (self : t) (now : Z) (question : string) (c : Redis.Client) :
  enabled self = false ∨ Redis.reachable c = false →
  get sha256_hexdigest self now question c = (Ok None, c).
Proof.
  intros Hoff. unfold get. destruct (enabled self); simpl; [|reflexivity].
  destruct Hoff as [Hoff|Hdown]; [discriminate|].
  unfold try_except, mbind, exec_bind, bind, Redis.get, Redis.command.
  rewrite Hdown. reflexivity.
Qed.

Lemma set_unavailable (self : t) (now : Z) (question : string) (v : pyval)
    (c : Redis.Client) :
  enabled self = false ∨ Redis.reachable c = false ∨ (∃ e, dumps v = Raise e)
  ∨ (ttl self ≤ 0)%Z →
  set sha256_hexdigest self now question v c = (Ok tt, c).
Proof.
  intros Hoff. unfold set. destruct (enabled self); simpl; [|reflexivity].
  unfold try_except, mbind, exec_bind, bind, lift, Redis.setex, Redis.command.
  destruct (dumps v) as [text|e]; [|reflexivity].
  destruct (Redis.reachable c); [|reflexivity].
  destruct (0 <? ttl self)%Z eqn:Httl; [|reflexivity].
  apply Z.ltb_lt in Httl.
  destruct Hoff as [Hoff|[Hoff|[[e He]|Hoff]]]; (discriminate || lia).
Qed.

Lemma clear_unavailable (self : t) (now : Z) (c : Redis.Client) :
  enabled self = false ∨ Redis.reachable c = false →
  clear self now c = (Ok tt, c).
Proof.
  intros Hoff. unfold clear. destruct (enabled self); simpl; [|reflexivity].
  destruct Hoff as [Hoff|Hdown]; [discriminate|].
  unfold try_except, mbind, exec_bind, bind, Redis.keys, Redis.command.
  rewrite Hdown. reflexivity.
Qed.

Lemma get_stats_unavailable (self : t) (now : Z) (c : Redis.Client) :
  enabled self = false ∨ Redis.reachable c = false →
  get_stats settings self now c = (Ok (MkStats false 0 None), c).
Proof.
  intros Hoff. unfold get_stats. destruct (enabled self); simpl; [|reflexivity].
  destruct Hoff as [Hoff|Hdown]; [discriminate|].
  unfold try_except, mbind, exec_bind, bind, Redis.keys, Redis.command.
  rewrite Hdown. reflexivity.
Qed.

Lemma get_stats_counts (self : t) (now : Z) (c : Redis.Client) :
  enabled self = true →
  Redis.reachable c = true →
  get_stats settings self now c
  = (Ok (MkStats true
           (size (filter (Redis.matches now "rag_cache:") (Redis.data c)))
           (Some (cache_ttl_seconds settings))), c).
Proof.
  intros Henabled Hup.
  unfold get_stats, try_except, mbind, exec_bind, bind, Redis.keys, Redis.command.
  rewrite Henabled. cbn beta iota delta [negb]. rewrite Hup.
  unfold mret, exec_ret, ret. rewrite length_fmap, length_map_to_list. reflexivity.
Qed.

(** Every operation of the cache ends without an exception, whatever
    the state of the server and whatever the payload; [get] and
    [get_stats] leave the server as it is. With the cache disabled or
    the server not answering, [get] misses, [get_stats] reports a
    disabled cache without entries, and [set] and [clear] change
    nothing; a payload the encoder rejects is not stored. *)
Theorem cache_operations_fail_soft (self : t) (now : Z) (question : string) (v : pyval)
    (c : Redis.Client) :
  (∃ hit, get sha256_hexdigest self now question c = (Ok hit, c))
  ∧ (∃ c', set sha256_hexdigest self now question v c = (Ok tt, c'))
  ∧ (∃ c', clear self now c = (Ok tt, c'))
  ∧ (∃ stats, get_stats settings self now c = (Ok stats, c))
  ∧ (enabled self = false ∨ Redis.reachable c = false →
       get sha256_hexdigest self now question c = (Ok None, c)
       ∧ set sha256_hexdigest self now question v c = (Ok tt, c)
       ∧ clear self now c = (Ok tt, c)
       ∧ get_stats settings self now c = (Ok (MkStats false 0 None), c))
  ∧ ((∃ e, dumps v = Raise e) →
       set sha256_hexdigest self now question v c = (Ok tt, c)).
Proof.
  destruct (enabled self) eqn:Henabled; [destruct (Redis.reachable c) eqn:Hup|].
  - split; [|split; [|split; [|split; [|split]]]].
    + rewrite CacheFacts.get_reads by assumption. eauto.
    + destruct (dumps v) as [text|e] eqn:Hdumps.
      * destruct (decide (0 < ttl self)%Z) as [Httl|Httl].
        -- rewrite (CacheFacts.set_stores _ self now question v text c) by assumption.
           eauto.
        -- rewrite set_unavailable by (right; right; right; lia). eauto.
      * rewrite set_unavailable by eauto. eauto.
    + destruct (CacheFacts.clear_leaves_expired self now c Henabled Hup) as (c' & -> & _).
      eauto.
    + rewrite get_stats_counts by assumption. eauto.
    + intros [?|?]; discriminate.
    + intros Hbad. apply set_unavailable. auto.
  - assert (Hoff : enabled self = false ∨ Redis.reachable c = false) by auto.
    rewrite (get_unavailable self now question c), (clear_unavailable self now c),
      get_stats_unavailable, (set_unavailable self now question v c) by auto.
    repeat split; eauto.
  - assert (Hoff : enabled self = false ∨ Redis.reachable c = false) by auto.
    rewrite (get_unavailable self now question c), (clear_unavailable self now c),
      get_stats_unavailable, (set_unavailable self now question v c) by auto.
    repeat split; eauto.
Qed.

(** Once the TTL of the last [set] has run out, [get] misses: the entry a
    successful [set] writes replaces what was stored under the key and
    expires [ttl] seconds later. *)
Theorem cached_answer_expires (self : t) (c : Redis.Client) (question : string)
    (v : pyval) (text : json) (now later : Z) :
  dumps v = Ok text →
  (0 < ttl self)%Z →
  (now + ttl self ≤ later)%Z →
  let c1 := (set sha256_hexdigest self now question v c).2 in
  get sha256_hexdigest self later question c1 = (Ok None, c1).
Proof.
  intros Hdumps Httl Hlate c1.
  destruct (enabled self) eqn:Henabled; [destruct (Redis.reachable c) eqn:Hup|].
  - unfold c1. rewrite (CacheFacts.set_stores _ self now question v text c) by assumption.
    cbn [snd]. rewrite CacheFacts.get_reads by auto. cbn [Redis.data].
    rewrite lookup_insert_eq. unfold Redis.live. cbn [Redis.expires_at].
    rewrite (proj2 (Z.ltb_ge later (now + ttl self))) by lia. reflexivity.
  - unfold c1. rewrite set_unavailable by auto. cbn [snd].
    apply get_unavailable. auto.
  - apply get_unavailable. auto.
Qed.

(** What a cached payload comes back as. For every payload the encoder
    accepts, [get] after [set] returns the reading of the JSON text that
    was written: the value itself when it is JSON-native, and in general
    a JSON-native value, so that caching the returned value once more
    returns it unchanged. *)
Theorem cached_value_is_json_image (self : t) (c : Redis.Client) (question : string)
    (v : pyval) (text : json) (now later : Z) :
  enabled self = true →
  Redis.reachable c = true →
  dumps v = Ok text →
  (now ≤ later < now + ttl self)%Z →
  let c1 := (set sha256_hexdigest self now question v c).2 in
  get sha256_hexdigest self later question c1 = (Ok (Some (loads text)), c1)
  ∧ json_native (loads text) = true
  ∧ (json_native v = true → loads text = v)
  ∧ ∃ text', dumps (loads text) = Ok text' ∧ loads text' = loads text.
Proof.
  intros Henabled Hup Hdumps Htime c1.
  split; [|split; [apply (loads_is_native v), Hdumps | split]].
  - unfold c1. rewrite (CacheFacts.set_stores _ self now question v text c);
      [|assumption..|lia|assumption].
    cbn [snd]. rewrite CacheFacts.get_reads by auto. cbn [Redis.data].
    rewrite lookup_insert_eq. unfold Redis.live. cbn [Redis.expires_at Redis.value].
    rewrite (proj2 (Z.ltb_lt later (now + ttl self))) by lia. reflexivity.
  - intros Hnative. destruct (JsonFacts.loads_dumps v Hnative) as (text0 & Htext0 & Hback).
    congruence.
  - apply JsonFacts.loads_dumps, (loads_is_native v), Hdumps.
Qed.

Lemma no_live_keys (now : Z) (m : gmap string Redis.entry) :
  (∀ k e, String.prefix "rag_cache:" k = true → m !! k = Some e → Redis.live now e = false) →
  filter (Redis.matches now "rag_cache:") m = ∅.
Proof.
  intros Hdead. apply map_empty. intros k. apply map_lookup_filter_None.
  destruct (m !! k) as [e|] eqn:Hk; [right|left; reflexivity].
  intros e' [= <-] [Hpre Hlive]. simpl in *.
  rewrite (Hdead k e Hpre Hk) in Hlive. discriminate.
Qed.

Lemma live_later (now later : Z) (e : Redis.entry) :
  (now ≤ later)%Z → Redis.live now e = false → Redis.live later e = false.
Proof. unfold Redis.live. intros Hle Hdead. apply Z.ltb_ge in Hdead. apply Z.ltb_ge. lia. Qed.

(** [clear] empties the namespace of the cache and nothing else: every
    key of the server that does not start with "rag_cache:" keeps its
    value, and [get_stats] reports no entry from then on. *)
Theorem clear_empties_only_the_cache (self : t) (c : Redis.Client) (now later : Z) :
  enabled self = true →
  Redis.reachable c = true →
  (now ≤ later)%Z →
  let c1 := (clear self now c).2 in
  (∀ k, String.prefix "rag_cache:" k = false → Redis.data c1 !! k = Redis.data c !! k)
  ∧ get_stats settings self later c1
    = (Ok (MkStats true 0 (Some (cache_ttl_seconds settings))), c1).
Proof.
  intros Henabled Hup Hlater c1. split.
  - intros k Hforeign. unfold c1, clear, try_except, mbind, exec_bind, bind,
      Redis.keys, Redis.command.
    rewrite Henabled. cbn beta iota delta [negb]. rewrite Hup.
    set (found := (map_to_list (filter (Redis.matches now "rag_cache:") (Redis.data c))).*1).
    assert (Hnot : k ∉ found).
    { unfold found. intros Hin. apply list_elem_of_fmap in Hin as ([k' e] & Hk & Hin).
      simpl in Hk. subst k'.
      apply elem_of_map_to_list, map_lookup_filter_Some in Hin as [_ [Hpre _]].
      simpl in Hpre. congruence. }
    destruct found as [|k0 found']; [reflexivity|].
    unfold Redis.delete, Redis.command. rewrite Hup. cbn [snd Redis.data].
    apply lookup_foldr_delete_not_elem_of, Hnot.
  - destruct (CacheFacts.clear_leaves_expired self now c Henabled Hup)
      as (c' & Hclear & Hup' & Hleft).
    unfold c1. rewrite Hclear. cbn [snd].
    rewrite get_stats_counts by assumption.
    rewrite (no_live_keys later (Redis.data c')); [reflexivity|].
    intros k e Hpre Hk. apply (live_later now later); [exact Hlater|].
    apply (Hleft k e Hpre Hk).
Qed.

(** [get_stats] counts questions, not calls of [set]: right after a
    successful [set], the number of entries is one more than before when
    [get] missed the question, and the same as before when it hit. *)
Theorem set_counts_each_key_once (self : t) (c : Redis.Client) (question : string)
    (v : pyval) (text : json) (now : Z) (n : nat) (hit : option pyval) :
  enabled self = true →
  Redis.reachable c = true →
  dumps v = Ok text →
  (0 < ttl self)%Z →
  (get_stats settings self now c).1
    = Ok (MkStats true n (Some (cache_ttl_seconds settings))) →
  (get sha256_hexdigest self now question c).1 = Ok hit →
  let c1 := (set sha256_hexdigest self now question v c).2 in
  (get_stats settings self now c1).1
  = Ok (MkStats true (if hit is Some _ then n else S n) (Some (cache_ttl_seconds settings))).
Proof.
  intros Henabled Hup Hdumps Httl Hstats Hget c1.
  rewrite get_stats_counts in Hstats by assumption.
  rewrite CacheFacts.get_reads in Hget by assumption.
  cbn [fst] in Hstats, Hget. injection Hstats as <-. injection Hget as <-.
  unfold c1. rewrite (CacheFacts.set_stores _ self now question v text c) by assumption.
  cbn [snd]. rewrite get_stats_counts by auto. cbn [fst Redis.data]. do 2 f_equal.
  set (key := _make_key sha256_hexdigest question).
  set (e' := Redis.MkEntry text (now + ttl self)).
  assert (Hnew : Redis.matches now "rag_cache:" (key, e')).
  { split; [apply CacheFacts._make_key_prefix|]. unfold Redis.live. simpl.
    apply Z.ltb_lt. lia. }
  rewrite (map_filter_insert_True _ _ _ _ Hnew).
  destruct (Redis.data c !! key) as [e|] eqn:Hkey.
  - destruct (Redis.live now e) eqn:Hlive.
    + apply map_size_insert_Some. exists e.
      apply map_lookup_filter_Some. split; [exact Hkey|].
      split; [apply CacheFacts._make_key_prefix | exact Hlive].
    + apply map_size_insert_None, map_lookup_filter_None. right.
      intros e0 He0 [_ Hlive0]. simpl in Hlive0. congruence.
  - apply map_size_insert_None, map_lookup_filter_None. left. exact Hkey.
Qed.
End Cache.

Lemma cache_operations_fail_soft_witness :
  let off := new default_settings false in
  let c := Redis.MkClient true ∅ in
  get Sample.digest off 0 "What is open?" c = (Ok None, c)
  ∧ set Sample.digest off 0 "What is open?" Sample.payload c = (Ok tt, c)
  ∧ set Sample.digest Cases.on 0 "What is open?" Cases.keyed_by_object c = (Ok tt, c).
Proof.
  pose proof (cache_operations_fail_soft Sample.digest default_settings
                (new default_settings false) 0 "What is open?" Sample.payload
                (Redis.MkClient true ∅)) as (_ & _ & _ & _ & Hoff & _).
  pose proof (cache_operations_fail_soft Sample.digest default_settings
                Cases.on 0 "What is open?" Cases.keyed_by_object
                (Redis.MkClient true ∅)) as (_ & _ & _ & _ & _ & Hbad).
  destruct (Hoff (or_introl eq_refl)) as (Hget & Hset & _).
  split; [exact Hget|]. split; [exact Hset|].
  apply Hbad. eexists. vm_compute. reflexivity.
Defined.

Lemma cached_answer_expires_witness :
  let c1 := (set Sample.digest Cases.on 0 "What is open?" Sample.payload
               (Redis.MkClient true ∅)).2 in
  get Sample.digest Cases.on 3600 "What is open?" c1 = (Ok None, c1).
Proof.
  eapply (cached_answer_expires Sample.digest Cases.on (Redis.MkClient true ∅)
            "What is open?" Sample.payload _ 0 3600).
  - vm_compute. reflexivity.
  - reflexivity.
  - simpl. lia.
Defined.

Lemma cached_value_is_json_image_witness :
  let c1 := (set Sample.digest Cases.on 0 "What is open?" Cases.with_tuple
               (Redis.MkClient true ∅)).2 in
  get Sample.digest Cases.on 1 "What is open?" c1 = (Ok (Some Cases.with_list), c1)
  ∧ json_native Cases.with_list = true.
Proof.
  pose proof (cached_value_is_json_image Sample.digest Cases.on (Redis.MkClient true ∅)
                "What is open?" Cases.with_tuple
                (JObject [("1", JArray [JInt 2; JStr "2024-01-01"])]) 0 1
                eq_refl eq_refl eq_refl ltac:(simpl; lia)) as (Hget & Hnative & _).
  split; [exact Hget | exact Hnative].
Defined.

Lemma clear_empties_only_the_cache_witness :
  let c1 := (clear Cases.on 5 Cases.shared_server).2 in
  Redis.data c1 !! "session:42" = Redis.data Cases.shared_server !! "session:42"
  ∧ get_stats default_settings Cases.on 5 c1
    = (Ok (MkStats true 0 (Some 3600%Z)), c1).
Proof.
  pose proof (clear_empties_only_the_cache default_settings Cases.on Cases.shared_server
                5 5 eq_refl eq_refl ltac:(lia)) as [Hforeign Hstats].
  split; [apply Hforeign; reflexivity | exact Hstats].
Defined.

Lemma set_counts_each_key_once_witness :
  let c := Redis.MkClient true ∅ in
  let c1 := (set Sample.digest Cases.on 0 "What is open?" Sample.payload c).2 in
  let c2 := (set Sample.digest Cases.on 0 "  WHAT is open?" Sample.payload c1).2 in
  (get_stats default_settings Cases.on 0 c1).1 = Ok (MkStats true 1 (Some 3600%Z))
  ∧ (get_stats default_settings Cases.on 0 c2).1 = Ok (MkStats true 1 (Some 3600%Z)).
Proof.
  split.
  - eapply (set_counts_each_key_once Sample.digest default_settings Cases.on
              (Redis.MkClient true ∅) "What is open?" Sample.payload _ 0 0 None);
      reflexivity.
  - eapply (set_counts_each_key_once Sample.digest default_settings Cases.on
              _ "  WHAT is open?" Sample.payload _ 0 1 (Some Sample.payload));
      reflexivity.
Defined.

End CacheBehaviour.

(** ** The retrieval pipeline: retries, call budget, re-ranking *)

Module RetrievalBehaviour.
Import Doc Config Exec AdvancedRetrieval RetrievalSpec.

Section Pipeline.
Variable settings : Settings.
Variable multi_query_invoke base_invoke rerank_invoke
  : nat -> string -> result (list Document).

Local Notation attempted := (RetrievalSpec.attempted multi_query_invoke base_invoke).
Local Notation candidates_of :=
  (retrieve_candidates multi_query_invoke base_invoke).
Local Notation retrieve_with :=
  (retrieve settings multi_query_invoke base_invoke rerank_invoke).

Lemma retry_once_more (question : string) (use_multi_query : bool) (t : nat) (n : nat) :
  retry (S n) (_retrieve_once multi_query_invoke base_invoke question use_multi_query) t
  = match attempted use_multi_query t question with
    | Ok docs => (Ok docs, S t)
    | Raise _ =>
        retry n (_retrieve_once multi_query_invoke base_invoke question use_multi_query) (S t)
    end.
Proof.
  cbn [retry]. unfold try_except.
  rewrite AdvancedRetrievalFacts._retrieve_once_attempted.
  destruct (attempted use_multi_query t question); reflexivity.
Qed.

Lemma retry_first_success (question : string) (use_multi_query : bool)
    (n i t : nat) (docs : list Document) :
  i < n →
  (∀ j, j < i → is_ok (attempted use_multi_query (t + j) question) = false) →
  attempted use_multi_query (t + i) question = Ok docs →
  retry n (_retrieve_once multi_query_invoke base_invoke question use_multi_query) t
  = (Ok docs, t + i + 1).
Proof.
  revert i t. induction n as [|n IH]; intros i t Hi Hfail Hok; [lia|].
  rewrite retry_once_more. destruct i as [|i].
  - replace (t + 0) with t in Hok by lia. rewrite Hok. f_equal. lia.
  - pose proof (Hfail 0 ltac:(lia)) as H0. replace (t + 0) with t in H0 by lia.
    destruct (attempted use_multi_query t question); [discriminate|].
    rewrite (IH i (S t)).
    + f_equal. lia.
    + lia.
    + intros j Hj. replace (S t + j) with (t + S j) by lia. apply Hfail. lia.
    + replace (S t + i) with (t + S i) by lia. exact Hok.
Qed.

(** The retried retrieval stops at its first success: when the attempt
    number [i + 1] of the three is the first that answers, its documents
    are the candidates, [i + 1] calls were made, and the direct search of
    the fallback is not called. *)
Theorem retry_stops_at_first_success (question : string) (use_multi_query : bool)
    (i t : nat) (docs : list Document) :
  i < 3 →
  (∀ j, j < i → is_ok (attempted use_multi_query (t + j) question) = false) →
  attempted use_multi_query (t + i) question = Ok docs →
  candidates_of question use_multi_query t = (Ok (Some docs), t + i + 1).
Proof.
  intros Hi Hfail Hok.
  unfold retrieve_candidates, try_except, mbind, exec_bind, bind at 1,
    _retrieve_with_retry.
  rewrite (retry_first_success question use_multi_query 3 i t docs Hi Hfail Hok).
  reflexivity.
Qed.

Lemma retry_ticks (question : string) (use_multi_query : bool) (n t : nat) :
  ∃ r t', retry n (_retrieve_once multi_query_invoke base_invoke question use_multi_query) t
          = (r, t')
          ∧ t ≤ t' ≤ t + n ∧ (is_ok r = false → t' = t + n) ∧ (is_ok r = true → t < t').
Proof.
  revert t. induction n as [|n IH]; intros t.
  - exists (Raise RetryError), t. repeat split; try lia. discriminate.
  - rewrite retry_once_more. destruct (attempted use_multi_query t question) as [docs|e].
    + exists (Ok docs), (S t). repeat split; try lia. discriminate.
    + destruct (IH (S t)) as (r & t' & -> & Hrange & Hfail & Hok).
      exists r, t'. split; [reflexivity|]. split; [lia|]. split.
      * intros Hr. rewrite (Hfail Hr). lia.
      * intros Hr. specialize (Hok Hr). lia.
Qed.

Lemma candidates_ticks (question : string) (use_multi_query : bool) (t : nat) :
  ∃ candidates t', candidates_of question use_multi_query t = (Ok candidates, t')
                   ∧ t < t' ≤ t + 4.
Proof.
  unfold retrieve_candidates, try_except, mbind, exec_bind, bind at 1,
    _retrieve_with_retry.
  destruct (retry_ticks question use_multi_query 3 t) as (r & t1 & -> & Hrange & Hfail & Hok).
  destruct r as [docs|e].
  - exists (Some docs), t1. split; [reflexivity|]. specialize (Hok eq_refl). lia.
  - specialize (Hfail eq_refl). subst t1. unfold bind, call, mret, exec_ret, ret.
    destruct (base_invoke (t + 3) question) as [docs|e'].
    + exists (Some docs), (S (t + 3)). split; [reflexivity|lia].
    + exists None, (S (t + 3)). split; [reflexivity|lia].
Qed.

Lemma later_steps_ticks (self : Service) (question : string)
    (use_reranking use_parent_child : bool) (docs : list Document) (t : nat) :
  ∃ docs' t', later_steps settings rerank_invoke self question use_reranking
                use_parent_child docs t = (Ok docs', t')
              ∧ t ≤ t' ≤ t + 1.
Proof.
  unfold later_steps, mbind, exec_bind, bind at 1, rerank_step.
  destruct (use_reranking && reranker self && (0 <? length docs)%nat).
  - unfold try_except, call. destruct (rerank_invoke t question) as [d|e];
      unfold bind, mret, exec_ret, ret; rewrite AdvancedRetrievalFacts.parent_step_expanded;
      eexists _, _; (split; [reflexivity|lia]).
  - unfold bind, mret, exec_ret, ret. rewrite AdvancedRetrievalFacts.parent_step_expanded.
    eexists _, _. split; [reflexivity|lia].
Qed.

(** One [retrieve] makes at least one and at most five external calls:
    up to three attempts of the retried retrieval, one direct search
    when they all fail, and one call of the re-ranker. *)
Theorem retrieve_call_budget (self : Service) (question : string)
    (use_reranking use_multi_query use_parent_child : bool) (t : nat) :
  let calls_after :=
    (retrieve_with self question use_reranking use_multi_query use_parent_child t).2 in
  t < calls_after ≤ t + 5.
Proof.
  intros calls_after. unfold calls_after.
  destruct (candidates_ticks question use_multi_query t) as (candidates & t1 & Hcand & Ht1).
  rewrite (AdvancedRetrievalFacts.retrieve_after_candidates _ _ _ _ _ _ _ _ _ _ _ _ Hcand).
  destruct candidates as [docs|]; [|simpl; lia].
  destruct (later_steps_ticks self question use_reranking use_parent_child docs t1)
    as (docs' & t2 & -> & Ht2).
  simpl. lia.
Qed.

(** When the re-ranker answers, its documents take the place of the
    candidates: [retrieve] returns the re-ranker's list, or the parents
    it resolves to, whatever the candidates of step 1 were. *)
Theorem reranked_documents_replace_candidates (self : Service) (question : string)
    (use_multi_query use_parent_child : bool) (t t1 : nat)
    (docs reranked : list Document) :
  candidates_of question use_multi_query t = (Ok (Some docs), t1) →
  docs ≠ [] →
  reranker self = true →
  rerank_invoke t1 question = Ok reranked →
  retrieve_with self question true use_multi_query use_parent_child t
  = (Ok (expanded self use_parent_child reranked), S t1).
Proof.
  intros Hcand Hdocs Hreranker Hrerank.
  rewrite (AdvancedRetrievalFacts.retrieve_after_candidates _ _ _ _ _ _ _ _ _ _ _ _ Hcand).
  unfold later_steps, mbind, exec_bind, bind at 1, rerank_step.
  rewrite Hreranker. destruct docs as [|d docs]; [contradiction|]. simpl.
  unfold try_except, call. rewrite Hrerank.
  unfold bind, mret, exec_ret, ret.
  rewrite AdvancedRetrievalFacts.parent_step_expanded. reflexivity.
Qed.

(** Without re-ranking the candidates are not cut: when re-ranking is
    switched off, no re-ranker was built or there is no candidate,
    [retrieve] makes no further call and returns all candidates of step
    1, or the parents they resolve to. No re-ranker is built when the
    Cohere key is empty, as it is by default. *)
Theorem candidates_uncut_without_reranker (self : Service) (question : string)
    (use_reranking use_multi_query use_parent_child : bool) (t t1 : nat)
    (docs : list Document) :
  candidates_of question use_multi_query t = (Ok (Some docs), t1) →
  use_reranking = false ∨ reranker self = false ∨ docs = [] →
  retrieve_with self question use_reranking use_multi_query use_parent_child t
  = (Ok (expanded self use_parent_child docs), t1)
  ∧ (cohere_api_key settings = "" →
     ∀ parent_child_retriever cohere_constructs,
       reranker (new settings parent_child_retriever cohere_constructs) = false).
Proof.
  intros Hcand Hskip. split.
  - rewrite (AdvancedRetrievalFacts.retrieve_after_candidates _ _ _ _ _ _ _ _ _ _ _ _ Hcand).
    unfold later_steps, mbind, exec_bind, bind at 1, rerank_step.
    assert (Hguard : use_reranking && reranker self && (0 <? length docs)%nat = false).
    { destruct Hskip as [Hs | [Hs | Hs]]; rewrite Hs.
      - reflexivity.
      - destruct use_reranking; reflexivity.
      - destruct use_reranking, (reranker self); reflexivity. }
    rewrite Hguard. unfold bind, mret, exec_ret, ret.
    rewrite AdvancedRetrievalFacts.parent_step_expanded. reflexivity.
  - intros Hkey pc ctor. unfold new. simpl. rewrite Hkey. reflexivity.
Qed.
End Pipeline.

Lemma retry_stops_at_first_success_witness :
  retrieve_candidates Cases.second_try Sample.down "What changed?" true 0
  = (Ok (Some [Sample.c7]), 2).
Proof.
  apply (retry_stops_at_first_success Cases.second_try Sample.down
           "What changed?" true 1 0 [Sample.c7]).
  - lia.
  - intros j Hj. assert (j = 0) as -> by lia. reflexivity.
  - reflexivity.
Defined.

Lemma reranked_documents_replace_candidates_witness :
  retrieve default_settings (Sample.answers [Sample.c7; Sample.c12]) Sample.down
    (Sample.answers []) (MkService None true) "What changed?" true true true 0
  = (Ok [], 2).
Proof.
  apply (reranked_documents_replace_candidates default_settings
           (Sample.answers [Sample.c7; Sample.c12]) Sample.down (Sample.answers [])
           (MkService None true) "What changed?" true true 0 1
           [Sample.c7; Sample.c12] [] eq_refl ltac:(discriminate) eq_refl eq_refl).
Defined.

Lemma candidates_uncut_without_reranker_witness :
  retrieve default_settings (Sample.answers Cases.six_hits) Sample.down Sample.down
    (new default_settings None true) "What changed?" true true true 0
  = (Ok Cases.six_hits, 1)
  ∧ length Cases.six_hits = 6.
Proof.
  split; [|reflexivity].
  apply (candidates_uncut_without_reranker default_settings
           (Sample.answers Cases.six_hits) Sample.down Sample.down
           (new default_settings None true) "What changed?" true true true 0 1
           Cases.six_hits eq_refl).
  right. left. reflexivity.
Defined.

End RetrievalBehaviour.

(** ** Parents and children of an ingestion *)

Module ChunkingBehaviour.
Import Doc ParentChildRetriever ParentChildSpec ChunkingSpec.

Lemma stored_lookup (parent_store : gmap string Document)
    (entries : list (string * Document)) (k : string) :
  (k ∉ entries.*1 ∧ stored parent_store entries !! k = parent_store !! k)
  ∨ (∃ p, (k, p) ∈ entries ∧ stored parent_store entries !! k = Some p).
Proof.
  revert parent_store. induction entries as [|[k0 p0] entries IH] using rev_ind;
    intros parent_store.
  - left. split; [apply not_elem_of_nil | reflexivity].
  - unfold stored. rewrite foldl_app. cbn [foldl fst snd].
    destruct (decide (k0 = k)) as [->|Hne].
    + right. exists p0. split; [set_solver | apply lookup_insert_eq].
    + rewrite lookup_insert_ne by exact Hne.
      destruct (IH parent_store) as [[Hnot Hsame]|(p & Hin & Hp)].
      * left. split; [|exact Hsame]. rewrite fmap_app. set_solver.
      * right. exists p. split; [set_solver | exact Hp].
Qed.

Lemma stored_distinct (parent_store : gmap string Document)
    (entries : list (string * Document)) (k : string) (p : Document) :
  NoDup entries.*1 → (k, p) ∈ entries → stored parent_store entries !! k = Some p.
Proof.
  revert parent_store. induction entries as [|[k0 p0] entries IH]; intros parent_store Hnodup Hin.
  - apply elem_of_nil in Hin. contradiction.
  - rewrite fmap_cons in Hnodup. apply NoDup_cons in Hnodup as [Hfirst Hnodup].
    unfold stored. cbn [foldl fst snd]. apply elem_of_cons in Hin as [[= -> ->]|Hin].
    + destruct (stored_lookup (<[k0 := p0]> parent_store) entries k0)
        as [[_ Hsame]|(p & Hin & _)].
      * unfold stored in Hsame. rewrite Hsame. apply lookup_insert_eq.
      * exfalso. apply Hfirst. apply list_elem_of_fmap. exists (k0, p). auto.
    + apply (IH _ Hnodup Hin).
Qed.

Lemma filter_all (k : string) (l : list string) :
  k ∉ l → filter (fun y => y ≠ k) l = l.
Proof.
  induction l as [|y l IH]; intros Hnot; [reflexivity|].
  rewrite filter_cons. destruct (decide (y ≠ k)) as [_|Heq].
  - f_equal. apply IH. set_solver.
  - exfalso. apply Hnot. apply dec_stable in Heq. set_solver.
Qed.

Section Chunks.
Variable parent_split child_split : Document -> list Document.
Variable uuid4 : nat -> string.

Local Notation made := (ChunkingSpec.made uuid4).
Local Notation children_of := (ChunkingSpec.children_of child_split).

Lemma add_parents_made (parents : list Document) (parent_store : gmap string Document)
    (n : nat) (all_children : list Document) :
  add_parents child_split uuid4 parents parent_store n all_children
  = (stored parent_store (made n parents), n + length parents,
     all_children ++ flat_map children_of (made n parents)).
Proof.
  revert parent_store n all_children.
  induction parents as [|parent rest IH]; intros parent_store n all_children.
  - simpl. rewrite app_nil_r, Nat.add_0_r. reflexivity.
  - cbn [add_parents]. rewrite IH. cbn [ChunkingSpec.made flat_map length].
    unfold stored. cbn [foldl fst snd]. f_equal; [f_equal; lia|].
    rewrite <- app_assoc. reflexivity.
Qed.

Lemma made_app (n : nat) (l1 l2 : list Document) :
  made n (l1 ++ l2) = made n l1 ++ made (n + length l1) l2.
Proof.
  revert n. induction l1 as [|p l1 IH]; intros n; simpl.
  - rewrite Nat.add_0_r. reflexivity.
  - rewrite IH. do 3 f_equal. lia.
Qed.

Lemma add_documents_made (documents : list Document)
    (parent_store : gmap string Document) (n : nat) (all_children : list Document) :
  add_documents parent_split child_split uuid4 documents parent_store n all_children
  = (stored parent_store (made n (flat_map parent_split documents)),
     n + length (flat_map parent_split documents),
     all_children ++ flat_map children_of (made n (flat_map parent_split documents))).
Proof.
  revert parent_store n all_children.
  induction documents as [|doc rest IH]; intros parent_store n all_children.
  - simpl. rewrite app_nil_r, Nat.add_0_r. reflexivity.
  - cbn [add_documents]. rewrite add_parents_made, IH.
    cbn [flat_map]. rewrite made_app, flat_map_app, length_app.
    unfold stored. rewrite foldl_app, <- app_assoc, Nat.add_assoc. reflexivity.
Qed.

Lemma create_made (documents : list Document) (parent_store : gmap string Document)
    (n : nat) :
  create_parent_child_chunks parent_split child_split uuid4 documents parent_store n
  = let entries := made n (flat_map parent_split documents) in
    ((flat_map children_of entries, (map_to_list (stored parent_store entries)).*2),
     stored parent_store entries, n + length entries).
Proof.
  unfold create_parent_child_chunks. rewrite add_documents_made. simpl.
  do 2 f_equal. clear. generalize n. induction (flat_map parent_split documents) as [|p l IH];
    intros m; simpl; [reflexivity|]. rewrite <- IH. reflexivity.
Qed.

Lemma made_keyed (n : nat) (parents : list Document) (k : string) (p : Document) :
  (k, p) ∈ made n parents → metadata p !! "parent_id" = Some k.
Proof.
  revert n. induction parents as [|parent rest IH]; intros n Hin; simpl in Hin.
  - apply elem_of_nil in Hin. contradiction.
  - apply elem_of_cons in Hin as [[= -> ->]|Hin]; [apply lookup_insert_eq | eauto].
Qed.

(** No child of an ingestion dangles. Every child
    [create_parent_child_chunks] returns carries a [parent_id] under
    which the store holds a parent with that same [parent_id]; the call
    draws one identifier per parent span, and every key it does not draw
    keeps its parent. *)
Theorem created_children_have_stored_parent (documents : list Document)
    (parent_store : gmap string Document) (n : nat) :
  let outcome :=
    create_parent_child_chunks parent_split child_split uuid4 documents parent_store n in
  let children := outcome.1.1.1 in
  let store' := outcome.1.2 in
  (∀ child, child ∈ children →
     ∃ pid parent, metadata child !! "parent_id" = Some pid
                   ∧ store' !! pid = Some parent
                   ∧ metadata parent !! "parent_id" = Some pid)
  ∧ outcome.2 = n + length (flat_map parent_split documents)
  ∧ (∀ k, (∀ i, n ≤ i < outcome.2 → uuid4 i ≠ k) → store' !! k = parent_store !! k).
Proof.
  intros outcome children store'. unfold children, store', outcome.
  rewrite create_made. cbn [fst snd].
  set (entries := made n (flat_map parent_split documents)).
  assert (Hlen : ∀ m l, length (made m l) = length l).
  { intros m l. revert m. induction l as [|p l IH]; intros m; simpl; [|rewrite IH]; reflexivity. }
  split; [|split].
  - intros child Hin. apply list_elem_of_In, in_flat_map in Hin as ([k p] & Hentry & Hchild).
    apply list_elem_of_In in Hentry.
    unfold ChunkingSpec.children_of in Hchild. cbn [fst snd] in Hchild.
    apply in_map_iff in Hchild as (c & <- & _).
    destruct (stored_lookup parent_store entries k) as [[Hnot _]|(p' & Hin' & Hp')].
    + exfalso. apply Hnot. apply list_elem_of_fmap. exists (k, p). auto.
    + exists k, p'. split; [apply lookup_insert_eq|]. split; [exact Hp'|].
      apply (made_keyed n (flat_map parent_split documents)), Hin'.
  - unfold entries. rewrite Hlen. reflexivity.
  - intros k Hfresh.
    destruct (stored_lookup parent_store entries k) as [[_ Hsame]|(p & Hin & _)];
      [exact Hsame|].
    exfalso. unfold entries in Hin, Hfresh. rewrite Hlen in Hfresh.
    revert Hin Hfresh. generalize n. induction (flat_map parent_split documents) as [|q l IH];
      intros m Hin Hfresh; simpl in Hin.
    + apply elem_of_nil in Hin. contradiction.
    + apply elem_of_cons in Hin as [[= -> _]|Hin].
      * apply (Hfresh m); [simpl; lia | reflexivity].
      * apply (IH (S m) Hin). intros i Hi. apply Hfresh. simpl. lia.
Qed.

Lemma first_occurrences_blocks (entries : list (string * Document)) :
  NoDup entries.*1 →
  Forall (fun entry => children_of entry ≠ []) entries →
  first_occurrences
    (flat_map (fun entry => replicate (length (children_of entry)) entry.1) entries)
  = entries.*1.
Proof.
  induction entries as [|[k p] entries IH]; intros Hnodup Hchildren; [reflexivity|].
  rewrite fmap_cons in Hnodup. apply NoDup_cons in Hnodup as [Hfirst Hnodup].
  apply Forall_cons in Hchildren as [Hsome Hchildren].
  cbn [flat_map fst]. destruct (children_of (k, p)) as [|c cs] eqn:Hcs; [contradiction|].
  cbn [length replicate app first_occurrences]. rewrite fmap_cons. cbn [fst]. f_equal.
  rewrite <- ParentChildFacts.first_occurrences_filter, filter_app.
  replace (filter (fun y => y ≠ k) (replicate (length cs) k)) with (@nil string).
  - rewrite app_nil_l, <- (IH Hnodup Hchildren). f_equal.
    apply filter_all. intros Hin. apply Hfirst.
    rewrite <- (IH Hnodup Hchildren).
    apply ParentChildFacts.elem_of_first_occurrences. exact Hin.
  - symmetry. induction (length cs) as [|m IHm]; [reflexivity|]. simpl.
    rewrite filter_cons. destruct (decide (k ≠ k)); [congruence | exact IHm].
Qed.

(** Ingest, then resolve. When the identifiers drawn are distinct and
    not empty and every parent span has at least one child span, the
    children of an ingestion resolve to exactly the parents the ingestion
    stored, each once, in the order in which they were made. *)
Theorem created_children_resolve_to_their_parents (documents : list Document)
    (parent_store : gmap string Document) (n : nat) :
  let entries := made n (flat_map parent_split documents) in
  let outcome :=
    create_parent_child_chunks parent_split child_split uuid4 documents parent_store n in
  NoDup entries.*1 →
  Forall (fun entry => entry.1 ≠ "" ∧ child_split entry.2 ≠ []) entries →
  get_parents_for_children outcome.1.2 outcome.1.1.1 = entries.*2.
Proof.
  intros entries outcome Hnodup Hgood.
  unfold outcome. rewrite create_made. cbn [fst snd]. fold entries.
  set (store' := stored parent_store entries).
  assert (Hres : omap (resolvable store') (flat_map children_of entries)
                 = flat_map (fun entry => replicate (length (children_of entry)) entry.1)
                     entries).
  { assert (Hall : Forall (fun entry => entry.1 ≠ "" ∧ is_Some (store' !! entry.1)) entries).
    { apply Forall_forall. intros [k p] Hin. split.
      - apply (proj1 (Forall_forall _ _) Hgood (k, p) Hin).
      - exists p. apply stored_distinct; assumption. }
    clearbody store'. clear Hgood Hnodup.
    induction Hall as [|[k p] rest [Hk Hsome] _ IH]; [reflexivity|].
    cbn [fst] in Hk, Hsome. cbn [flat_map]. rewrite omap_app, IH. f_equal.
    unfold ChunkingSpec.children_of. cbn [fst snd].
    induction (child_split p) as [|c cs IHc]; [reflexivity|].
    cbn [map omap list_omap length replicate]. unfold resolvable at 1.
    cbn [set_meta metadata]. rewrite lookup_insert_eq.
    apply ParentChildFacts.truthy_ne_empty in Hk. rewrite Hk.
    rewrite (bool_decide_eq_true_2 _ Hsome). cbn [andb]. f_equal. exact IHc. }
  assert (Hmap : map Some (get_parents_for_children store' (flat_map children_of entries))
                 = map Some entries.*2).
  { rewrite ParentChildFacts.get_parents_for_children_lookup, Hres.
    rewrite first_occurrences_blocks.
    - assert (Hin : ∀ entry, entry ∈ entries → store' !! entry.1 = Some entry.2).
      { intros [k p] Hin. apply stored_distinct; assumption. }
      clearbody store'. clear Hres Hgood Hnodup.
      induction entries as [|[k p] rest IH]; [reflexivity|].
      rewrite !fmap_cons. cbn [map fst snd]. f_equal.
      + apply (Hin (k, p)). set_solver.
      + apply IH. intros entry Hentry. apply Hin. set_solver.
    - exact Hnodup.
    - apply Forall_forall. intros [k p] Hin.
      destruct (proj1 (Forall_forall _ _) Hgood (k, p) Hin) as [_ Hsplit].
      unfold ChunkingSpec.children_of. cbn [fst snd] in Hsplit |- *.
      destruct (child_split p); [contradiction | discriminate]. }
  revert Hmap. generalize (get_parents_for_children store' (flat_map children_of entries))
    entries.*2.
  intros l1. induction l1 as [|x l1 IH]; intros [|y l2] Hmap; try discriminate;
    [reflexivity|].
  injection Hmap as -> Hmap. f_equal. apply IH, Hmap.
Qed.
End Chunks.

Lemma created_children_have_stored_parent_witness :
  let outcome :=
    create_parent_child_chunks Sample.keep_one Cases.halves Sample.numbered
      [MainSpec.emea_page] ∅ 0 in
  length outcome.1.1.1 = 2
  ∧ (∀ child, child ∈ outcome.1.1.1 →
       ∃ pid parent, metadata child !! "parent_id" = Some pid
                     ∧ outcome.1.2 !! pid = Some parent
                     ∧ metadata parent !! "parent_id" = Some pid)
  ∧ outcome.1.2 !! "other" = None.
Proof.
  pose proof (created_children_have_stored_parent Sample.keep_one Cases.halves Sample.numbered
                [MainSpec.emea_page] ∅ 0) as (Hchildren & _ & Hkept).
  split; [reflexivity|]. split; [exact Hchildren|].
  rewrite Hkept; [reflexivity|].
  intros i Hi. assert (i = 0) as -> by (simpl in Hi; lia). discriminate.
Defined.

Lemma created_children_resolve_to_their_parents_witness :
  let outcome :=
    create_parent_child_chunks Sample.keep_one Cases.halves Sample.numbered
      [MainSpec.emea_page; Sample.c7] ∅ 0 in
  get_parents_for_children outcome.1.2 outcome.1.1.1
  = [set_meta MainSpec.emea_page "parent_id" "id-0"; set_meta Sample.c7 "parent_id" "id-1"].
Proof.
  apply (created_children_resolve_to_their_parents Sample.keep_one Cases.halves
           Sample.numbered [MainSpec.emea_page; Sample.c7] ∅ 0).
  - vm_compute. repeat constructor; set_solver.
  - repeat constructor; discriminate.
Defined.

End ChunkingBehaviour.

(** ** The category indexes beyond one READY index *)

Module MultiIndexBehaviour.
Import MultiIndexEngine MultiIndexSpec.

(** An upload names one of the three categories or is refused. In a
    state the engine can reach, [add_documents] raises the [ValueError]
    that names the unknown index and lists the three known ones exactly
    when the name is none of audit, policy and financial; a call that
    returns was for one of the three and leaves that category READY. *)
Theorem add_documents_refuses_other_names (st : State) (documents : list LlamaDoc)
    (index_name : string) :
  reachable st →
  (index_name ∉ categories
   ↔ add_documents documents index_name st
     = Raise (ValueError ("Unknown index: " +:+ index_name
                          +:+ ". Use: ['audit', 'policy', 'financial']")))
  ∧ ∀ st', add_documents documents index_name st = Ok st' →
      index_name ∈ categories ∧ ready st' index_name = true.
Proof.
  intros Hreach. pose proof (MultiIndexFacts.reachable_consistent st Hreach) as Hst.
  pose proof (indexes_follow st Hst index_name) as Hidx.
  unfold add_documents. rewrite Hidx.
  case_bool_decide as Hcat.
  - rewrite bool_decide_eq_true_2 by eauto. split.
    + split; [contradiction | discriminate].
    + intros st' [= <-]. split; [exact Hcat|].
      unfold ready, _rebuild_engines.
      cbn [indexes query_engines router_engine sub_question_engine].
      destruct (2 <=? _)%nat; cbn [indexes]; rewrite lookup_insert_eq; reflexivity.
  - rewrite bool_decide_eq_false_2 by (intros [? ?]; discriminate). split.
    + split; [reflexivity | intros _; exact Hcat].
    + discriminate.
Qed.

Lemma add_documents_refuses_other_names_witness :
  add_documents [Sample.report_b] "hr" one_ready
  = Raise (ValueError "Unknown index: hr. Use: ['audit', 'policy', 'financial']")
  ∧ ∀ st', add_documents [Sample.report_b] "policy" one_ready = Ok st' →
      ready st' "policy" = true.
Proof.
  split.
  - destruct (add_documents_refuses_other_names one_ready [Sample.report_b] "hr"
                MultiIndexFacts.one_ready_reachable) as [[Hrefused _] _].
    apply Hrefused. vm_compute. set_solver.
  - intros st' Hadd.
    destruct (add_documents_refuses_other_names one_ready [Sample.report_b] "policy"
                MultiIndexFacts.one_ready_reachable) as [_ Hreturned].
    exact (proj2 (Hreturned st' Hadd)).
Defined.

(** An upload to one category leaves the others alone. After
    [add_documents] returned, every other category has the index and the
    query engine it had, no READY category stopped being READY, and at
    most three are READY. *)
Theorem add_documents_keeps_other_categories (st st' : State)
    (documents : list LlamaDoc) (index_name : string) :
  reachable st →
  add_documents documents index_name st = Ok st' →
  (∀ other, other ≠ index_name →
     indexes st' !! other = indexes st !! other
     ∧ PyDict.get (query_engines st') other = PyDict.get (query_engines st) other)
  ∧ (∀ name, ready st name = true → ready st' name = true)
  ∧ ready_count st ≤ ready_count st' ≤ 3.
Proof.
  intros Hreach Hadd.
  assert (Hreach' : reachable st') by exact (reachable_add _ _ _ _ Hreach Hadd).
  pose proof (MultiIndexFacts.reachable_consistent st Hreach) as Hst.
  pose proof (MultiIndexFacts.reachable_consistent st' Hreach') as Hst'.
  apply MultiIndexFacts.add_documents_ok in Hadd as [_ Hst'eq].
  assert (Hidx : indexes st' = <[index_name := Some (map node_of documents)]> (indexes st)).
  { rewrite Hst'eq. unfold _rebuild_engines.
    cbn [indexes query_engines]. destruct (2 <=? _)%nat; reflexivity. }
  assert (Heng : query_engines st'
                 = PyDict.set (query_engines st) index_name (map node_of documents)).
  { rewrite Hst'eq. unfold _rebuild_engines.
    cbn [indexes query_engines]. destruct (2 <=? _)%nat; reflexivity. }
  assert (Hkeep : ∀ name, ready st name = true → ready st' name = true).
  { intros name. unfold ready. rewrite Hidx.
    destruct (decide (index_name = name)) as [->|Hne].
    - rewrite lookup_insert_eq. reflexivity.
    - rewrite lookup_insert_ne by exact Hne. auto. }
  split; [|split; [exact Hkeep|split]].
  - intros other Hne. rewrite Hidx, Heng, PyDictFacts.get_set.
    rewrite lookup_insert_ne by congruence.
    rewrite bool_decide_eq_false_2 by congruence. split; reflexivity.
  - rewrite (MultiIndexFacts.ready_count_engines st Hst),
      (MultiIndexFacts.ready_count_engines st' Hst'), Heng.
    rewrite <- (MultiIndexFacts.length_keys (PyDict.set _ _ _)), PyDictFacts.keys_set,
      <- (MultiIndexFacts.length_keys (query_engines st)).
    case_bool_decide; [lia | rewrite length_app; simpl; lia].
  - unfold ready_count. etransitivity; [apply length_filter|]. reflexivity.
Qed.

Lemma add_documents_keeps_other_categories_witness :
  ∃ st', add_documents [Sample.report_b] "policy" one_ready = Ok st'
         ∧ indexes st' !! "audit" = Some (Some [node_of Sample.report_a])
         ∧ ready_count st' = 2.
Proof.
  destruct (add_documents [Sample.report_b] "policy" one_ready) as [st'|e] eqn:Hadd;
    [|vm_compute in Hadd; discriminate].
  exists st'. split; [reflexivity|].
  destruct (add_documents_keeps_other_categories one_ready st' [Sample.report_b] "policy"
              MultiIndexFacts.one_ready_reachable Hadd) as (Hother & _ & _).
  split.
  - transitivity (indexes one_ready !! "audit");
      [exact (proj1 (Hother "audit" ltac:(discriminate))) | vm_compute; reflexivity].
  - vm_compute in Hadd. injection Hadd as <-. vm_compute. reflexivity.
Defined.

Section Query.
Variable engine_query : engine -> string -> result Response.
Variable round_float : pyfloat -> Z -> pyfloat.

Local Notation answered := (MultiIndexSpec.answered round_float).

(** From two READY categories on a query goes through a composite
    engine. In a state the engine can reach with two or more READY
    categories, a sub-question query is answered by the sub-question
    engine and a query of any other type by the router, each over one
    tool per READY category, which reads the index the category has now
    and carries the description of the category. *)
Theorem query_from_two_ready (st : State) :
  reachable st →
  2 ≤ ready_count st →
  ∃ tools,
    length tools = ready_count st
    ∧ (∀ name index,
         indexes st !! name = Some (Some index)
         ↔ ∃ description,
             descriptions !! name = Some description
             ∧ PyDict.get (query_engines st) name = Some index
             ∧ MkTool index description ∈ tools)
    ∧ ∀ question engine_type,
        query engine_query round_float st question engine_type
        = answered
            (engine_query
               (if bool_decide (engine_type = "sub_question")
                then SubQuestionQueryEngine tools else RouterQueryEngine tools)
               question).
Proof.
  intros Hreach. pose proof (MultiIndexFacts.reachable_consistent st Hreach) as Hst.
  rewrite (MultiIndexFacts.ready_count_engines st Hst). intros Hcount.
  pose proof (router_follows st Hst) as Hrouter.
  pose proof (sub_question_follows st Hst) as Hsub.
  rewrite (proj2 (Nat.leb_le 2 _) Hcount) in Hrouter, Hsub.
  exists (map tool_of (query_engines st)). split; [apply length_map|]. split.
  - intros name index. rewrite (indexes_follow st Hst name).
    case_bool_decide as Hcat; split.
    + intros [= Hget].
      assert (∃ description, descriptions !! name = Some description) as [d Hd].
      { unfold categories in Hcat.
        repeat (apply elem_of_cons in Hcat as [->|Hcat]; [eexists; vm_compute; reflexivity|]).
        apply elem_of_nil in Hcat. contradiction. }
      exists d. split; [exact Hd|]. split; [exact Hget|].
      apply list_elem_of_In, in_map_iff. exists (name, index). split.
      * unfold tool_of. cbn [fst snd]. rewrite Hd. reflexivity.
      * apply list_elem_of_In. clear -Hget.
        induction (query_engines st) as [|[k v] rest IH]; [discriminate|].
        simpl in Hget. case_bool_decide as Hk.
        -- injection Hget as ->. subst k. left.
        -- right. apply IH, Hget.
    + intros (d & _ & Hget & _). rewrite Hget. reflexivity.
    + discriminate.
    + intros (d & Hd & _). exfalso. apply Hcat. unfold categories.
      destruct (decide (name = "audit")) as [->|?]; [set_solver|].
      destruct (decide (name = "policy")) as [->|?]; [set_solver|].
      destruct (decide (name = "financial")) as [->|?]; [set_solver|].
      unfold descriptions in Hd. simpl in Hd.
      rewrite !lookup_insert_ne in Hd by congruence. rewrite lookup_empty in Hd.
      discriminate.
  - intros question engine_type. unfold query, select_engine.
    rewrite Hrouter, Hsub. destruct (bool_decide (engine_type = "sub_question")); reflexivity.
Qed.
End Query.

Lemma query_from_two_ready_witness :
  ∃ tools,
    length tools = 2
    ∧ query Sample.first_node_engine Sample.round_id Cases.two_ready
        "Which findings are overdue?" "sub_question"
      = MultiIndexSpec.answered Sample.round_id
          (Sample.first_node_engine (SubQuestionQueryEngine tools)
             "Which findings are overdue?").
Proof.
  assert (Hreach : reachable Cases.two_ready).
  { apply (reachable_add one_ready [Sample.report_b] "policy");
      [exact MultiIndexFacts.one_ready_reachable | vm_compute; reflexivity]. }
  destruct (query_from_two_ready Sample.first_node_engine Sample.round_id
              Cases.two_ready Hreach) as (tools & Hlen & _ & Hquery).
  - vm_compute. lia.
  - exists tools. split; [rewrite Hlen; vm_compute; reflexivity|].
    apply (Hquery "Which findings are overdue?" "sub_question").
Defined.

End MultiIndexBehaviour.

(** ** Conversations of the orchestrator *)

Module ConversationBehaviour.
Import Doc Config Exec LangChainOrchestrator ConversationSpec.

Lemma last_n_length {A} (n : nat) (l : list A) : length (last_n n l) = min n (length l).
Proof. unfold last_n. rewrite length_drop. lia. Qed.

Lemma last_n_short {A} (n : nat) (l : list A) : length l ≤ n → last_n n l = l.
Proof.
  intros Hlen. unfold last_n. replace (length l - n) with 0 by lia. reflexivity.
Qed.

Lemma slice_to_length (n : nat) (s : string) :
  String.length (PyStr.slice_to n s) = min n (String.length s).
Proof.
  unfold PyStr.slice_to. revert s. induction n as [|n IH]; intros [|c s]; simpl;
    try reflexivity. rewrite IH. reflexivity.
Qed.

Section Ask.
Variable settings : Settings.
Variable retriever_invoke : string -> result (list Document).
Variable chain_invoke : string -> list message -> string -> result string.
Variable uuid4 : nat -> string.
Variable elapsed_ms : pyfloat.

Local Notation ask := (LangChainOrchestrator.ask settings retriever_invoke chain_invoke
                         uuid4 elapsed_ms).
Local Notation manage_conversation := (LangChainOrchestrator.manage_conversation uuid4).

Lemma manage_conversation_cases (st : State) (conversation_id : option string) :
  manage_conversation conversation_id st
  = if resumes st conversation_id
    then (Ok (default "" conversation_id), st)
    else (Ok (uuid4 (uuids_used st)),
          {| conversations := <[uuid4 (uuids_used st) := []]> (conversations st);
             uuids_used := S (uuids_used st) |}).
Proof.
  unfold LangChainOrchestrator.manage_conversation, resumes.
  destruct conversation_id as [c|]; [|reflexivity].
  unfold mbind, exec_bind, bind, get. cbn beta iota.
  destruct (PyStr.truthy c && bool_decide (is_Some (conversations st !! c))); reflexivity.
Qed.

Lemma ask_run (parent_child : option (gmap string Document)) (question : string)
    (conversation_id : option string) (st : State) :
  ask parent_child question conversation_id st
  = let picked := manage_conversation conversation_id st in
    match picked.1 with
    | Raise e => (Raise e, picked.2)
    | Ok c =>
        match retriever_invoke question with
        | Raise e => (Raise e, picked.2)
        | Ok retrieved_docs =>
            match chain_invoke (_format_docs (context_docs parent_child retrieved_docs))
                    (_get_history picked.2 c) question with
            | Raise e => (Raise e, picked.2)
            | Ok answer =>
                (Ok {| answer := answer;
                       sources := map source_of (take 5 retrieved_docs);
                       conversation_id := c;
                       processing_time_ms := elapsed_ms;
                       model_used := openai_model settings |},
                 save_exchange c (MkExchange question answer) picked.2)
            end
        end
    end.
Proof.
  unfold LangChainOrchestrator.ask. unfold mbind, exec_bind, bind at 1.
  destruct (manage_conversation conversation_id st) as [[c|e] st1]; cbn [fst snd];
    [|reflexivity].
  unfold bind, lift, get, modify, mret, exec_ret, ret.
  destruct (retriever_invoke question) as [docs|e]; [|reflexivity].
  destruct (chain_invoke _ _ question) as [a|e]; reflexivity.
Qed.

Lemma save_exchange_conversations (c : string) (e : exchange) (st : State) :
  conversations (save_exchange c e st)
  = <[c := last_n MAX_HISTORY (default [] (conversations st !! c) ++ [e])]>
      (conversations st).
Proof.
  unfold save_exchange. cbn [conversations].
  destruct (MAX_HISTORY <? _) eqn:Hlong; [reflexivity|].
  apply Nat.ltb_ge in Hlong. rewrite last_n_short by exact Hlong. reflexivity.
Qed.

Lemma last_n_snoc {A} (l : list A) (x : A) :
  length (last_n MAX_HISTORY (l ++ [x])) ≤ MAX_HISTORY
  ∧ last (last_n MAX_HISTORY (l ++ [x])) = Some x.
Proof.
  split; [rewrite last_n_length; lia|].
  unfold last_n. rewrite last_lookup, length_drop, lookup_drop, length_app.
  cbn [length]. unfold MAX_HISTORY.
  replace (length l + 1 - 5 + pred (length l + 1 - (length l + 1 - 5)))
    with (length l) by lia.
  rewrite lookup_app_r by lia. rewrite Nat.sub_diag. reflexivity.
Qed.

(** The store after an answered question. *)
Lemma ask_stores (parent_child : option (gmap string Document))
    (question : string) (requested : option string) (st st' : State) (a : Answer) :
  ask parent_child question requested st = (Ok a, st') →
  let earlier :=
    if resumes st requested
    then default [] (conversations st !! conversation_id a) else [] in
  conversation_id a
  = (if resumes st requested then default "" requested else uuid4 (uuids_used st))
  ∧ conversations st'
    = <[conversation_id a
          := last_n MAX_HISTORY (earlier ++ [MkExchange question (answer a)])]>
        (conversations st)
  ∧ uuids_used st' = (if resumes st requested then uuids_used st else S (uuids_used st)).
Proof.
  rewrite ask_run, manage_conversation_cases. cbv zeta.
  destruct (resumes st requested) eqn:Hres; cbn [fst snd];
    destruct (retriever_invoke question) as [docs|?]; try discriminate;
    destruct (chain_invoke _ _ question) as [text|?]; try discriminate;
    intros [= <- <-]; cbn [conversation_id answer];
    rewrite save_exchange_conversations.
  - split; [reflexivity|]. split; reflexivity.
  - cbn [conversations uuids_used]. rewrite lookup_insert_eq, insert_insert_eq.
    split; [reflexivity|]. split; reflexivity.
Qed.

(** What an answered question leaves in the conversation store. When
    [ask] returns, the conversation it names is the one it was given if
    that is a known, non-empty identifier, and a newly drawn one
    otherwise; that conversation holds its earlier exchanges followed by
    the new one, cut to the last five, and every other conversation is as
    it was. *)
Theorem ask_appends_and_keeps_five (parent_child : option (gmap string Document))
    (question : string) (requested : option string) (st st' : State) (a : Answer) :
  ask parent_child question requested st = (Ok a, st') →
  let c := conversation_id a in
  let earlier :=
    if resumes st requested then default [] (conversations st !! c) else [] in
  c = (if resumes st requested then default "" requested else uuid4 (uuids_used st))
  ∧ conversations st' !! c
    = Some (last_n MAX_HISTORY (earlier ++ [MkExchange question (answer a)]))
  ∧ (∃ history, conversations st' !! c = Some history
                ∧ length history ≤ MAX_HISTORY
                ∧ last history = Some (MkExchange question (answer a)))
  ∧ ∀ other, other ≠ c → conversations st' !! other = conversations st !! other.
Proof.
  intros Hask c earlier.
  destruct (ask_stores _ _ _ _ _ _ Hask) as (Hc & Hstore & _).
  fold c earlier in Hc, Hstore. rewrite Hstore.
  split; [exact Hc|]. split; [apply lookup_insert_eq|]. split.
  - eexists. split; [apply lookup_insert_eq|]. apply last_n_snoc.
  - intros other Hne. apply lookup_insert_ne. congruence.
Qed.

(** A question that fails records nothing. When the retriever raises,
    or the chain raises on the context and the history [ask] hands it,
    [ask] raises the same exception and stores no exchange: a
    conversation that was to be continued is untouched, and a newly drawn
    one stays behind with an empty history. *)
Theorem ask_failure_records_no_exchange (parent_child : option (gmap string Document))
    (question : string) (requested : option string) (st : State) (e : exn) :
  let c := if resumes st requested then default "" requested
           else uuid4 (uuids_used st) in
  let st1 := if resumes st requested then st
             else {| conversations := <[c := []]> (conversations st);
                     uuids_used := S (uuids_used st) |} in
  retriever_invoke question = Raise e
  ∨ (∃ docs, retriever_invoke question = Ok docs
             ∧ chain_invoke (_format_docs (context_docs parent_child docs))
                 (_get_history st1 c) question = Raise e) →
  ask parent_child question requested st = (Raise e, st1).
Proof.
  intros c st1 Hfails. rewrite ask_run, manage_conversation_cases. cbv zeta.
  unfold st1, c in *. clear st1 c.
  destruct (resumes st requested); cbn [fst snd];
    destruct Hfails as [Hretriever|(docs & Hretriever & Hchain)];
    rewrite Hretriever; try reflexivity; rewrite Hchain; reflexivity.
Qed.

(** The sources of an answer. [ask] cites at most five sources, one
    for each of the first five retrieved chunks in their order, also when
    the prompt was built from their parents, and the content of a source
    is the first 300 characters of its chunk. *)
Theorem ask_cites_first_five_chunks (parent_child : option (gmap string Document))
    (question : string) (requested : option string) (st st' : State) (a : Answer) :
  ask parent_child question requested st = (Ok a, st') →
  ∃ retrieved_docs,
    retriever_invoke question = Ok retrieved_docs
    ∧ length (sources a) = min 5 (length retrieved_docs)
    ∧ ∀ i s, sources a !! i = Some s →
        ∃ doc, retrieved_docs !! i = Some doc
               ∧ src_content s = PyStr.slice_to 300 (page_content doc)
               ∧ String.length (src_content s) ≤ 300
               ∧ (String.length (page_content doc) ≤ 300 →
                  src_content s = page_content doc).
Proof.
  rewrite ask_run. cbv zeta.
  destruct (manage_conversation requested st) as [[c|?] st1]; cbn [fst snd];
    [|discriminate].
  destruct (retriever_invoke question) as [docs|?]; [|discriminate].
  destruct (chain_invoke _ _ question) as [text|?]; [|discriminate].
  intros [= <- _]. exists docs. cbn [sources]. split; [reflexivity|]. split.
  - rewrite length_map, length_take. reflexivity.
  - intros i s Hi. rewrite list_lookup_fmap in Hi.
    destruct (take 5 docs !! i) as [doc|] eqn:Hdoc; [|discriminate].
    injection Hi as <-. exists doc. split.
    + destruct (decide (i < 5)) as [Hlt|Hge].
      * rewrite lookup_take_lt in Hdoc by exact Hlt. exact Hdoc.
      * rewrite lookup_take_ge in Hdoc by lia. discriminate.
    + cbn [source_of src_content]. split; [reflexivity|].
      split; [rewrite slice_to_length; lia|].
      intros Hshort. unfold PyStr.slice_to. clear -Hshort.
      generalize dependent 300. induction (page_content doc) as [|ch s IH];
        intros n Hn; destruct n; simpl in *; try reflexivity; try lia.
      rewrite IH by lia. reflexivity.
Qed.

(** A conversation is continued by its identifier. When a first
    question without an identifier is answered under a non-empty
    identifier, a second question asked with that identifier is answered
    under the same one, and the conversation then holds the two exchanges
    in order. *)
Theorem ask_continues_conversation (parent_child : option (gmap string Document))
    (q1 q2 : string) (st st1 st2 : State) (a1 a2 : Answer) :
  ask parent_child q1 None st = (Ok a1, st1) →
  conversation_id a1 ≠ "" →
  ask parent_child q2 (Some (conversation_id a1)) st1 = (Ok a2, st2) →
  conversation_id a2 = conversation_id a1
  ∧ conversations st2 !! conversation_id a1
    = Some [MkExchange q1 (answer a1); MkExchange q2 (answer a2)]
  ∧ uuids_used st2 = S (uuids_used st).
Proof.
  intros Hfirst Hid Hsecond.
  destruct (ask_stores _ _ _ _ _ _ Hfirst) as (_ & Hstore1 & Hn1).
  cbn [resumes app] in Hstore1, Hn1.
  rewrite last_n_short in Hstore1 by (unfold MAX_HISTORY; simpl; lia).
  assert (Hh1 : conversations st1 !! conversation_id a1
                = Some [MkExchange q1 (answer a1)])
    by (rewrite Hstore1; apply lookup_insert_eq).
  assert (Hres : resumes st1 (Some (conversation_id a1)) = true).
  { cbn [resumes]. rewrite Hh1.
    rewrite (proj2 (ParentChildFacts.truthy_ne_empty _)) by exact Hid.
    rewrite bool_decide_eq_true_2 by eauto. reflexivity. }
  destruct (ask_stores _ _ _ _ _ _ Hsecond) as (Hc2 & Hstore2 & Hn2).
  rewrite Hres in Hc2, Hstore2, Hn2. simpl in Hc2.
  rewrite Hc2, Hh1 in Hstore2. cbn [default from_option id app] in Hstore2.
  rewrite last_n_short in Hstore2 by (unfold MAX_HISTORY; simpl; lia).
  split; [exact Hc2|]. split; [rewrite Hstore2; apply lookup_insert_eq | congruence].
Qed.
(** The answer is made from the parents. When the retrieved chunks
    resolve to stored parents, [ask] hands the chain the text of these
    parents, not of the chunks, and answers with what the chain returns
    for it; without a parent store, or when no chunk resolves, the chain
    gets the text of the chunks themselves. *)
Theorem ask_answers_from_resolved_parents (parent_child : option (gmap string Document))
    (question : string) (requested : option string) (st : State)
    (docs : list Document) (text : string) :
  let c := if resumes st requested then default "" requested
           else uuid4 (uuids_used st) in
  let st1 := if resumes st requested then st
             else {| conversations := <[c := []]> (conversations st);
                     uuids_used := S (uuids_used st) |} in
  retriever_invoke question = Ok docs →
  (∀ parent_store parent parents,
     parent_child = Some parent_store →
     ParentChildRetriever.get_parents_for_children parent_store docs = parent :: parents →
     chain_invoke (_format_docs (parent :: parents)) (_get_history st1 c) question
     = Ok text →
     ∃ a st', ask parent_child question requested st = (Ok a, st') ∧ answer a = text)
  ∧ (parent_child = None
     ∨ (∃ parent_store,
          parent_child = Some parent_store
          ∧ ParentChildRetriever.get_parents_for_children parent_store docs = []) →
     chain_invoke (_format_docs docs) (_get_history st1 c) question = Ok text →
     ∃ a st', ask parent_child question requested st = (Ok a, st') ∧ answer a = text).
Proof.
  intros c st1 Hdocs.
  assert (Hrun : ∀ context,
            context_docs parent_child docs = context →
            chain_invoke (_format_docs context) (_get_history st1 c) question = Ok text →
            ∃ a st', ask parent_child question requested st = (Ok a, st')
                     ∧ answer a = text).
  { intros context Hcontext Hchain. rewrite ask_run, manage_conversation_cases. cbv zeta.
    unfold st1, c in Hchain.
    destruct (resumes st requested); cbn [fst snd];
      rewrite Hdocs, Hcontext, Hchain; eexists _, _; split; reflexivity. }
  split.
  - intros parent_store parent parents -> Hparents. apply Hrun.
    unfold context_docs. rewrite Hparents. reflexivity.
  - intros Hnone. apply Hrun. unfold context_docs.
    destruct Hnone as [->|(parent_store & -> & ->)]; reflexivity.
Qed.
End Ask.

Lemma ask_appends_and_keeps_five_witness :
  ∃ a st',
    ask Config.default_settings Cases.finds_six Sample.repeat_context Sample.numbered
      Sample.ms_12_5 None "Which findings are open?" None Cases.fresh = (Ok a, st')
    ∧ conversation_id a = "id-0"
    ∧ conversations st' !! "id-0"
      = Some [MkExchange "Which findings are open?" (answer a)].
Proof.
  destruct (ask Config.default_settings Cases.finds_six Sample.repeat_context
              Sample.numbered Sample.ms_12_5 None "Which findings are open?" None
              Cases.fresh) as [[a|e] st'] eqn:Hask; [|vm_compute in Hask; discriminate].
  exists a, st'. split; [reflexivity|].
  destruct (ask_appends_and_keeps_five _ _ _ _ _ _ _ _ _ _ _ Hask) as (Hc & Hh & _).
  split; [exact Hc|]. rewrite Hc in Hh. exact Hh.
Defined.

Lemma ask_failure_records_no_exchange_witness :
  ask Config.default_settings Cases.finds_six Cases.chain_down Sample.numbered
    Sample.ms_12_5 None "Which findings are open?" None Cases.fresh
  = (Raise (ExternalError "model unavailable"),
     {| conversations := {["id-0" := []]}; uuids_used := 1 |}).
Proof.
  apply (ask_failure_records_no_exchange Config.default_settings Cases.finds_six
           Cases.chain_down Sample.numbered Sample.ms_12_5 None
           "Which findings are open?" None Cases.fresh).
  right. exists Cases.six_hits. split; reflexivity.
Defined.

Lemma ask_answers_from_resolved_parents_witness :
  ∃ a st',
    ask Config.default_settings (fun _ => Ok [Sample.c7; Sample.c12]) Sample.repeat_context
      Sample.numbered Sample.ms_12_5 (Some Sample.parents_p2) "What changed?" None
      Cases.fresh = (Ok a, st')
    ∧ answer a = "[Source 1: Unknown]" +:+ PyStr.nl +:+ "parent two".
Proof.
  destruct (ask_answers_from_resolved_parents Config.default_settings
              (fun _ => Ok [Sample.c7; Sample.c12]) Sample.repeat_context
              Sample.numbered Sample.ms_12_5 (Some Sample.parents_p2) "What changed?"
              None Cases.fresh [Sample.c7; Sample.c12]
              ("[Source 1: Unknown]" +:+ PyStr.nl +:+ "parent two") eq_refl)
    as [Hparents _].
  apply (Hparents Sample.parents_p2 Sample.p2 [] eq_refl); vm_compute; reflexivity.
Defined.

Lemma ask_cites_first_five_chunks_witness :
  ∃ a st',
    ask Config.default_settings Cases.finds_six Sample.repeat_context Sample.numbered
      Sample.ms_12_5 None "Which findings are open?" None Cases.fresh = (Ok a, st')
    ∧ length (sources a) = 5.
Proof.
  destruct (ask Config.default_settings Cases.finds_six Sample.repeat_context
              Sample.numbered Sample.ms_12_5 None "Which findings are open?" None
              Cases.fresh) as [[a|e] st'] eqn:Hask; [|vm_compute in Hask; discriminate].
  exists a, st'. split; [reflexivity|].
  destruct (ask_cites_first_five_chunks _ _ _ _ _ _ _ _ _ _ _ Hask)
    as (docs & Hdocs & Hlen & _).
  injection Hdocs as <-. exact Hlen.
Defined.

Lemma ask_continues_conversation_witness :
  ∃ a1 st1 a2 st2,
    ask Config.default_settings Cases.finds_six Sample.repeat_context Sample.numbered
      Sample.ms_12_5 None "Which findings are open?" None Cases.fresh = (Ok a1, st1)
    ∧ ask Config.default_settings Cases.finds_six Sample.repeat_context Sample.numbered
        Sample.ms_12_5 None "And in EMEA?" (Some (conversation_id a1)) st1 = (Ok a2, st2)
    ∧ conversation_id a2 = conversation_id a1
    ∧ conversations st2 !! conversation_id a1
      = Some [MkExchange "Which findings are open?" (answer a1);
              MkExchange "And in EMEA?" (answer a2)].
Proof.
  destruct (ask Config.default_settings Cases.finds_six Sample.repeat_context
              Sample.numbered Sample.ms_12_5 None "Which findings are open?" None
              Cases.fresh) as [[a1|e] st1] eqn:Hfirst; [|vm_compute in Hfirst; discriminate].
  assert (Hid : conversation_id a1 = "id-0")
    by (vm_compute in Hfirst; injection Hfirst as <- _; reflexivity).
  destruct (ask Config.default_settings Cases.finds_six Sample.repeat_context
              Sample.numbered Sample.ms_12_5 None "And in EMEA?"
              (Some (conversation_id a1)) st1) as [[a2|e] st2] eqn:Hsecond.
  - exists a1, st1, a2, st2. split; [reflexivity|]. split; [exact Hsecond|].
    destruct (ask_continues_conversation _ _ _ _ _ _ _ _ _ _ _ _ _ Hfirst
                ltac:(rewrite Hid; discriminate) Hsecond) as (Hc & Hh & _).
    split; [exact Hc | exact Hh].
  - exfalso. vm_compute in Hfirst. injection Hfirst as <- <-.
    vm_compute in Hsecond. discriminate.
Defined.

End ConversationBehaviour.

(** ** Roles at the endpoints *)

Module AccessBehaviour.
Import Doc Config Exec AccessControl Main.

Lemma known_roles (v : string) (info : role_info) :
  USER_ROLES !! v = Some info →
  (v = "admin" ∧ "ALL" ∈ ri_access_groups info)
  ∨ (v ≠ "admin" ∧ "ALL" ∉ ri_access_groups info
     ∧ "GLOBAL_AUDIT" ∈ ri_access_groups info).
Proof.
  intros Hrole.
  destruct (decide (v = "admin")) as [->|Hadmin].
  { left. split; [reflexivity|]. rewrite AccessControlFacts.admin_role in Hrole.
    injection Hrole as <-. set_solver. }
  right. split; [exact Hadmin|].
  unfold USER_ROLES in Hrole. cbn [list_to_map foldr fst snd] in Hrole.
  rewrite lookup_insert_ne in Hrole by congruence.
  destruct (decide (v = "apac_auditor")) as [->|Hapac].
  { rewrite lookup_insert_eq in Hrole. injection Hrole as <-. simpl. set_solver. }
  rewrite lookup_insert_ne in Hrole by congruence.
  destruct (decide (v = "emea_auditor")) as [->|Hemea].
  { rewrite lookup_insert_eq in Hrole. injection Hrole as <-. simpl. set_solver. }
  rewrite lookup_insert_ne in Hrole by congruence.
  destruct (decide (v = "viewer")) as [->|Hviewer].
  { rewrite lookup_insert_eq in Hrole. injection Hrole as <-. simpl. set_solver. }
  rewrite lookup_insert_ne in Hrole by congruence.
  rewrite lookup_empty in Hrole. discriminate.
Qed.

Lemma resolved_user (request : Request) (u : user) :
  get_current_user request = Ok u →
  role u = headers_get (headers request) "X-User-Role" "admin"
  ∧ ((role u = "admin" ∧ "ALL" ∈ access_groups u)
     ∨ (role u ≠ "admin" ∧ "ALL" ∉ access_groups u ∧ "GLOBAL_AUDIT" ∈ access_groups u)).
Proof.
  unfold get_current_user.
  destruct (USER_ROLES !! _) as [info|] eqn:Hrole; [|discriminate].
  intros [= <-]. split; [reflexivity|]. cbn [role access_groups].
  exact (known_roles _ _ Hrole).
Qed.

Lemma not_admin_refused (request : Request) :
  headers_get (headers request) "X-User-Role" "admin" ≠ "admin" →
  (∃ detail, get_current_user request = Raise (HTTPException 403 detail))
  ∨ (∃ u, get_current_user request = Ok u ∧ "ALL" ∉ access_groups u).
Proof.
  intros Hrole. destruct (get_current_user request) as [u|e] eqn:Huser.
  - right. exists u. split; [reflexivity|].
    destruct (resolved_user request u Huser) as [Heq [[Hadmin _]|(_ & Hall & _)]];
      [congruence | exact Hall].
  - left. unfold get_current_user in Huser.
    destruct (USER_ROLES !! _); [discriminate|]. injection Huser as <-. eauto.
Qed.

(** Only the admin role searches without a filter. For a user that
    [get_current_user] resolved, [build_access_filter] is empty for the
    role admin, and a search under it is the search without a filter; for
    every other role it asks for a point's access group to be one of the
    user's groups, GLOBAL_AUDIT among them, and a search under it returns
    no other point. *)
Theorem build_access_filter_by_role (request : Request) (u : user)
    (rank : string -> list Document -> list Document) (points : list Document)
    (question : string) (k : Z) :
  get_current_user request = Ok u →
  let found :=
    VectorStore.similarity_search rank points question k (Some (build_access_filter u)) in
  if bool_decide (role u = "admin")
  then build_access_filter u = FilterEmpty
       ∧ found = VectorStore.similarity_search rank points question k None
  else build_access_filter u = FilterMust [MatchAny "access_group" (access_groups u)]
       ∧ "GLOBAL_AUDIT" ∈ access_groups u
       ∧ ∀ d, d ∈ found →
           ∃ group, metadata d !! "access_group" = Some group ∧ group ∈ access_groups u.
Proof.
  intros Huser found.
  destruct (resolved_user request u Huser) as [_ [[Hadmin Hall]|(Hadmin & Hall & Hglobal)]].
  - rewrite (bool_decide_eq_true_2 _ Hadmin).
    assert (Hf : build_access_filter u = FilterEmpty)
      by (unfold build_access_filter; rewrite (bool_decide_eq_true_2 _ Hall); reflexivity).
    split; [exact Hf|]. unfold found. rewrite Hf. reflexivity.
  - rewrite (bool_decide_eq_false_2 _ Hadmin).
    split; [|split; [exact Hglobal|]].
    + unfold build_access_filter. rewrite (bool_decide_eq_false_2 _ Hall). reflexivity.
    + intros d Hd. exact (MainFacts.filtered_search_accessible rank u points question k d
                            Hall Hd).
Qed.

Lemma build_access_filter_by_role_witness :
  ∃ u, get_current_user Sample.viewer_request = Ok u
       ∧ build_access_filter u = FilterMust [MatchAny "access_group" ["GLOBAL_AUDIT"]]
       ∧ ∀ d, d ∈ VectorStore.similarity_search Sample.as_stored MainSpec.tagged_points
                    "q" 5 (Some (build_access_filter u)) →
           ∃ group, metadata d !! "access_group" = Some group ∧ group ∈ access_groups u.
Proof.
  destruct (get_current_user Sample.viewer_request) as [u|e] eqn:Huser;
    [|vm_compute in Huser; discriminate].
  exists u. split; [reflexivity|].
  pose proof (build_access_filter_by_role Sample.viewer_request u Sample.as_stored
                MainSpec.tagged_points "q" 5 Huser) as Hrole.
  vm_compute in Huser. injection Huser as <-.
  destruct Hrole as (Hf & _ & Hfound). split; [exact Hf | exact Hfound].
Defined.

(** The admin endpoints turn every other role away. When the
    X-User-Role header names anything but admin, [delete_document] and
    [clear_cache] raise a 403 and leave the application, its registry
    and its cache included, exactly as it was. *)
Theorem admin_endpoints_refuse_other_roles (now : Z) (document_id : string)
    (request : Request) (st : AppState) :
  headers_get (headers request) "X-User-Role" "admin" ≠ "admin" →
  (∃ detail, delete_document now document_id request st
             = (Raise (HTTPException 403 detail), st))
  ∧ (∃ detail, clear_cache now request st = (Raise (HTTPException 403 detail), st)).
Proof.
  intros Hrole. unfold delete_document, clear_cache, mbind, exec_bind, bind, lift.
  destruct (not_admin_refused request Hrole) as [[detail Hraise]|(u & Huser & Hall)].
  - rewrite Hraise. eauto.
  - rewrite Huser, (bool_decide_eq_false_2 _ Hall). cbn [negb]. unfold raise. eauto.
Qed.

Lemma admin_endpoints_refuse_other_roles_witness :
  (∃ detail, delete_document 5 "doc-1" Sample.viewer_request MainSpec.with_parents
             = (Raise (HTTPException 403 detail), MainSpec.with_parents))
  ∧ (∃ detail, clear_cache 5 Sample.viewer_request MainSpec.with_parents
               = (Raise (HTTPException 403 detail), MainSpec.with_parents)).
Proof.
  apply (admin_endpoints_refuse_other_roles 5 "doc-1" Sample.viewer_request
           MainSpec.with_parents).
  vm_compute. discriminate.
Defined.

(** The document list is filtered by role. For a resolved user,
    [list_documents] changes nothing and returns the documents of the
    registry whose access group is one of the user's groups, and every
    document of the registry for the admin role. *)
Theorem list_documents_shows_accessible (request : Request) (u : user) (st : AppState) :
  get_current_user request = Ok u →
  ∃ docs,
    list_documents request st = (Ok docs, st)
    ∧ ∀ doc, doc ∈ docs
        ↔ (∃ document_id, document_registry st !! document_id = Some doc)
          ∧ (role u = "admin" ∨ access_group doc ∈ access_groups u).
Proof.
  intros Huser.
  assert (Hvalues : ∀ doc, doc ∈ registry_values st
                      ↔ ∃ document_id, document_registry st !! document_id = Some doc).
  { intros doc. unfold registry_values. rewrite list_elem_of_fmap. split.
    - intros ([k d] & -> & Hin). exists k. apply elem_of_map_to_list in Hin. exact Hin.
    - intros [k Hk]. exists (k, doc). split; [reflexivity|].
      apply elem_of_map_to_list. exact Hk. }
  unfold list_documents, mbind, exec_bind, bind, lift, get. rewrite Huser.
  destruct (resolved_user request u Huser) as [_ [[Hadmin Hall]|(Hadmin & Hall & _)]].
  - rewrite (bool_decide_eq_true_2 _ Hall). eexists. split; [reflexivity|].
    intros doc. rewrite Hvalues. tauto.
  - rewrite (bool_decide_eq_false_2 _ Hall). eexists. split; [reflexivity|].
    intros doc. rewrite list_elem_of_filter, Hvalues. tauto.
Qed.

Lemma list_documents_shows_accessible_witness :
  let st := (MainSpec.ingest_emea Sample.started).2 in
  (list_documents Sample.viewer_request st).1 = Ok []
  ∧ ∃ docs, list_documents Sample.admin_request st = (Ok docs, st)
            ∧ ∃ doc, doc ∈ docs ∧ access_group doc = "EMEA_AUDIT".
Proof.
  intros st. split; [vm_compute; reflexivity|].
  destruct (get_current_user Sample.admin_request) as [u|e] eqn:Huser;
    [|vm_compute in Huser; discriminate].
  destruct (list_documents_shows_accessible Sample.admin_request u st Huser)
    as (docs & Hlist & Hdocs).
  exists docs. split; [exact Hlist|].
  destruct (document_registry st !! "doc-1") as [doc|] eqn:Hdoc;
    [|vm_compute in Hdoc; discriminate].
  exists doc. split.
  - apply Hdocs. split; [eauto|]. left.
    vm_compute in Huser. injection Huser as <-. reflexivity.
  - vm_compute in Hdoc. injection Hdoc as <-. reflexivity.
Defined.

(** What a deletion by an administrator changes. For an unknown
    document [delete_document] raises a 404 and changes nothing, the
    cache included. For a known one it returns, the registry loses this
    one entry, and apart from the cache server everything else stays: the
    other entries, the collection, the category indexes, the parent store,
    the conversations and the status of the document's job. *)
Theorem delete_document_removes_one_entry (now : Z) (document_id : string)
    (request : Request) (u : user) (st : AppState) :
  get_current_user request = Ok u →
  "ALL" ∈ access_groups u →
  match document_registry st !! document_id with
  | None =>
      delete_document now document_id request st
      = (Raise (HTTPException 404 "Document not found"), st)
  | Some doc_info =>
      ∃ st',
        delete_document now document_id request st
        = (Ok {| dr_message := "Document " +:+ filename doc_info +:+ " deleted";
                 dr_document_id := document_id |}, st')
        ∧ st' = set_redis (redis st')
                  (set_registry (base.delete document_id (document_registry st)) st)
        ∧ document_registry st' !! document_id = None
        ∧ (∀ other, other ≠ document_id →
             document_registry st' !! other = document_registry st !! other)
        ∧ processing_jobs st' !! document_id = processing_jobs st !! document_id
  end.
Proof.
  intros Huser Hadmin.
  unfold delete_document, mbind, exec_bind, bind, lift, get.
  rewrite Huser, (bool_decide_eq_true_2 _ Hadmin). cbn [negb].
  destruct (document_registry st !! document_id) as [doc_info|] eqn:Hdoc; [|reflexivity].
  unfold modify, clear_cache_if_any, mbind, exec_bind, bind, get.
  cbn [cache_service set_registry].
  destruct (cache_service st) as [cs|] eqn:Hcs.
  - unfold on_redis.
    destruct (CacheService.clear cs now _) as [[[]|e] c'] eqn:Hclear.
    + eexists. split; [reflexivity|]. cbn [set_redis redis set_registry document_registry
        processing_jobs points multi_engine parent_store orchestrator cache_service].
      split; [reflexivity|]. split; [apply lookup_delete_eq|].
      split; [|reflexivity]. intros other Hne. apply lookup_delete_ne. congruence.
    + exfalso. revert Hclear. unfold CacheService.clear.
      destruct (negb _); [discriminate|]. unfold try_except.
      destruct (_ ≫= _) as [[[]|?] ?]; discriminate.
  - eexists. split; [reflexivity|]. cbn [set_redis redis set_registry document_registry
      processing_jobs points multi_engine parent_store orchestrator cache_service].
    split; [reflexivity|]. split; [apply lookup_delete_eq|].
    split; [|reflexivity]. intros other Hne. apply lookup_delete_ne. congruence.
Qed.

Lemma delete_document_removes_one_entry_witness :
  let st := (MainSpec.ingest_emea Sample.started).2 in
  (∃ st', (delete_document 5 "doc-1" Sample.admin_request st).2 = st'
          ∧ document_registry st' !! "doc-1" = None
          ∧ processing_jobs st' !! "doc-1" = Some COMPLETED)
  ∧ delete_document 5 "doc-2" Sample.admin_request st
    = (Raise (HTTPException 404 "Document not found"), st).
Proof.
  intros st.
  destruct (get_current_user Sample.admin_request) as [u|e] eqn:Huser;
    [|vm_compute in Huser; discriminate].
  assert (Hadmin : "ALL" ∈ access_groups u).
  { vm_compute in Huser. injection Huser as <-. simpl. set_solver. }
  split.
  - pose proof (delete_document_removes_one_entry 5 "doc-1" Sample.admin_request u st
                  Huser Hadmin) as Hdel.
    destruct (document_registry st !! "doc-1") as [doc|] eqn:Hdoc;
      [|vm_compute in Hdoc; discriminate].
    destruct Hdel as (st' & Hrun & _ & Hgone & _ & Hjob).
    exists st'. split; [rewrite Hrun; reflexivity|]. split; [exact Hgone|].
    rewrite Hjob. vm_compute. reflexivity.
  - pose proof (delete_document_removes_one_entry 5 "doc-2" Sample.admin_request u st
                  Huser Hadmin) as Hdel.
    destruct (document_registry st !! "doc-2") as [doc|] eqn:Hdoc;
      [vm_compute in Hdoc; discriminate | exact Hdel].
Defined.

End AccessBehaviour.

(** ** The background task of an upload *)

Module IngestionBehaviour.
Import Doc Config Exec AccessControl Main.

Section Ingestion.
Variable load_document : string -> result (list Document).
Variable split_documents : list Document -> list Document.
Variable splitext_ext : string -> string.
Variable strftime : string.

Local Notation background :=
  (_process_document_background load_document split_documents splitext_ext strftime).

(** The entry the task writes to the registry. *)
Local Notation entry job_id filename category access_group chunks :=
  {| document_id := job_id;
     filename := filename;
     file_type := PyStr.lstrip_chars "." (splitext_ext filename);
     category := category;
     access_group := access_group;
     chunk_count := chunks;
     status := COMPLETED;
     uploaded_at := strftime |}.

Lemma ingest_file_run (file_path : string) (st : AppState) :
  ingest_file load_document split_documents file_path st
  = match load_document file_path with
    | Ok documents =>
        (Ok (length (split_documents documents)),
         set_points (points st ++ split_documents documents) st)
    | Raise e => (Raise e, st)
    end.
Proof.
  unfold ingest_file, DocumentProcessor.ingest_file.
  destruct (load_document file_path) as [documents|e]; [|reflexivity].
  destruct (split_documents documents) as [|c cs]; [|reflexivity].
  rewrite app_nil_r. destruct st; reflexivity.
Qed.

Lemma background_run (job_id file_path filename category access_group : string)
    (st : AppState) :
  background job_id file_path filename category access_group st
  = match load_document file_path with
    | Raise _ => (Ok tt, set_job job_id FAILED (set_job job_id PROCESSING st))
    | Ok documents =>
        let chunks := split_documents documents in
        let st1 := set_points (points st ++ chunks) (set_job job_id PROCESSING st) in
        let added :=
          if bool_decide (category ∈ ["audit"; "policy"; "financial"])
          then MultiIndexEngine.add_documents
                 (map (llama_doc filename category access_group) documents)
                 category (multi_engine st)
          else Ok (multi_engine st) in
        match added with
        | Raise _ => (Ok tt, set_job job_id FAILED st1)
        | Ok m =>
            let st2 := set_multi_engine m st1 in
            (Ok tt,
             set_job job_id COMPLETED
               (set_registry
                  (<[job_id := entry job_id filename category access_group (length chunks)]>
                     (document_registry st2)) st2))
        end
    end.
Proof.
  unfold _process_document_background, try_except, mbind, exec_bind.
  unfold bind at 1. unfold modify at 1.
  unfold bind at 1. rewrite ingest_file_run. cbn [points set_job].
  destruct (load_document file_path) as [documents|e] eqn:Hload; [|reflexivity].
  unfold bind at 1. unfold lift at 1.
  unfold bind at 1.
  case_bool_decide as Hcat.
  - unfold multi_add_documents. cbn [multi_engine set_points set_job].
    destruct (MultiIndexEngine.add_documents _ category (multi_engine st)) as [m|e];
      reflexivity.
  - cbv zeta. unfold mret, exec_ret, ret, bind, modify. cbn [multi_engine set_points set_job].
    destruct st; reflexivity.
Qed.

(** How the background task of an upload ends. The task never raises.
    It leaves the job COMPLETED, with the document registered under the
    job's identifier, the number of chunks the splitter made as its chunk
    count, and these chunks added to the collection; or it leaves the job
    FAILED and the registry as it was. When the loader raises, it is the
    second, and the collection and the category indexes are untouched
    too. No other job changes its status. *)
Theorem background_task_settles_job
    (job_id file_path filename category access_group : string) (st : AppState) :
  let run := background job_id file_path filename category access_group st in
  let st' := run.2 in
  run.1 = Ok tt
  ∧ ((∃ documents,
        load_document file_path = Ok documents
        ∧ processing_jobs st' !! job_id = Some COMPLETED
        ∧ document_registry st'
          = <[job_id := entry job_id filename category access_group
                          (length (split_documents documents))]> (document_registry st)
        ∧ points st' = points st ++ split_documents documents)
     ∨ (processing_jobs st' !! job_id = Some FAILED
        ∧ document_registry st' = document_registry st))
  ∧ (∀ e, load_document file_path = Raise e →
       processing_jobs st' !! job_id = Some FAILED
       ∧ points st' = points st
       ∧ multi_engine st' = multi_engine st)
  ∧ (∀ other, other ≠ job_id → processing_jobs st' !! other = processing_jobs st !! other).
Proof.
  intros run st'. unfold st', run. rewrite background_run.
  destruct (load_document file_path) as [documents|e] eqn:Hload.
  - cbv zeta.
    destruct (if bool_decide _ then _ else _) as [m|e];
      cbn [fst snd set_job set_registry set_points set_multi_engine processing_jobs
             document_registry points multi_engine].
    + split; [reflexivity|]. split; [|split; [discriminate|]].
      * left. exists documents. split; [reflexivity|].
        split; [apply lookup_insert_eq|]. split; reflexivity.
      * intros other Hne. rewrite !lookup_insert_ne by congruence. reflexivity.
    + split; [reflexivity|]. split; [|split; [discriminate|]].
      * right. split; [apply lookup_insert_eq | reflexivity].
      * intros other Hne. rewrite !lookup_insert_ne by congruence. reflexivity.
  - cbn [fst snd set_job processing_jobs document_registry points multi_engine].
    split; [reflexivity|]. split; [|split].
    + right. split; [apply lookup_insert_eq | reflexivity].
    + intros _ _. split; [apply lookup_insert_eq|]. split; reflexivity.
    + intros other Hne. rewrite !lookup_insert_ne by congruence. reflexivity.
Qed.

(** A completed upload is answerable from its category. When the
    task for an upload to audit, policy or financial, started from a
    state the category engine can reach, ends with its job COMPLETED, the
    loader returned, the engine is in a state it can reach, and the
    category is READY with an index built from the loaded documents, one
    node each, carrying the text of the document and the file name, the
    category and the access group of the upload. *)
Theorem background_task_indexes_category
    (job_id file_path filename category access_group : string) (st : AppState) :
  MultiIndexSpec.reachable (multi_engine st) →
  category ∈ MultiIndexSpec.categories →
  let st' := (background job_id file_path filename category access_group st).2 in
  processing_jobs st' !! job_id = Some COMPLETED →
  ∃ documents index,
    load_document file_path = Ok documents
    ∧ MultiIndexSpec.reachable (multi_engine st')
    ∧ MultiIndexEngine.indexes (multi_engine st') !! category = Some (Some index)
    ∧ length index = length documents
    ∧ ∀ i node, index !! i = Some node →
        ∃ doc, documents !! i = Some doc
               ∧ MultiIndexEngine.text node = page_content doc
               ∧ MultiIndexEngine.node_metadata node !! "filename" = Some filename
               ∧ MultiIndexEngine.node_metadata node !! "category" = Some category
               ∧ MultiIndexEngine.node_metadata node !! "access_group"
                 = Some access_group.
Proof.
  intros Hreach Hcat st'. unfold st'. rewrite background_run.
  destruct (load_document file_path) as [documents|e] eqn:Hload.
  2:{ cbn [snd set_job processing_jobs]. rewrite lookup_insert_eq. discriminate. }
  cbv zeta.
  unfold MultiIndexSpec.categories in Hcat. rewrite (bool_decide_eq_true_2 _ Hcat).
  set (docs := map (llama_doc filename category access_group) documents).
  destruct (MultiIndexEngine.add_documents docs category (multi_engine st))
    as [m|e] eqn:Hadd.
  2:{ cbn [snd set_job processing_jobs]. rewrite lookup_insert_eq. discriminate. }
  intros _. cbn [snd set_job set_registry set_multi_engine multi_engine].
  exists documents, (map MultiIndexEngine.node_of docs). split; [reflexivity|].
  split; [exact (MultiIndexSpec.reachable_add _ _ _ _ Hreach Hadd)|].
  apply MultiIndexFacts.add_documents_ok in Hadd as [_ ->]. split; [|split].
  - unfold MultiIndexEngine._rebuild_engines.
    cbn [MultiIndexEngine.indexes MultiIndexEngine.query_engines].
    destruct (2 <=? _)%nat; cbn [MultiIndexEngine.indexes]; apply lookup_insert_eq.
  - unfold docs. rewrite !length_map. reflexivity.
  - intros i node Hnode. unfold docs in Hnode. rewrite !list_lookup_fmap in Hnode.
    destruct (documents !! i) as [doc|]; [|discriminate].
    injection Hnode as <-. exists doc. split; [reflexivity|].
    cbn [MultiIndexEngine.node_of llama_doc MultiIndexEngine.text
           MultiIndexEngine.node_metadata MultiIndexEngine.content
           MultiIndexEngine.doc_metadata default from_option id].
    split; [reflexivity|].
    rewrite lookup_insert_ne by discriminate. rewrite lookup_insert_ne by discriminate.
    split; [apply lookup_insert_eq|].
    rewrite lookup_insert_ne by discriminate.
    split; apply lookup_insert_eq.
Qed.
End Ingestion.

Lemma background_task_settles_job_witness :
  let st' := (MainSpec.ingest_emea Sample.started).2 in
  processing_jobs st' !! "doc-1" = Some COMPLETED
  ∧ (chunk_count <$> document_registry st' !! "doc-1") = Some 1
  ∧ processing_jobs
      (_process_document_background Cases.lost_file Sample.keep_whole Sample.txt_ext
         "2025-03-01T09:00:00Z" "doc-2" "data/uploads/doc-2_lost.txt" "lost.txt"
         "audit" "EMEA_AUDIT" Sample.started).2 !! "doc-2" = Some FAILED.
Proof.
  intros st'.
  destruct (background_task_settles_job Sample.load_page Sample.keep_whole Sample.txt_ext
              "2025-03-01T09:00:00Z" "doc-1" "data/uploads/doc-1_emea.txt" "emea.txt"
              "audit" "EMEA_AUDIT" Sample.started)
    as (_ & [(documents & Hload & Hjob & Hreg & _)|[Hjob _]] & _).
  - split; [exact Hjob|]. split.
    + unfold st', MainSpec.ingest_emea. rewrite Hreg, lookup_insert_eq.
      injection Hload as <-. reflexivity.
    + destruct (background_task_settles_job Cases.lost_file Sample.keep_whole Sample.txt_ext
                  "2025-03-01T09:00:00Z" "doc-2" "data/uploads/doc-2_lost.txt" "lost.txt"
                  "audit" "EMEA_AUDIT" Sample.started) as (_ & _ & Hfail & _).
      exact (proj1 (Hfail _ eq_refl)).
  - vm_compute in Hjob. discriminate.
Defined.

Lemma background_task_indexes_category_witness :
  let st' := (MainSpec.ingest_emea Sample.started).2 in
  ∃ index, MultiIndexEngine.indexes (multi_engine st') !! "audit" = Some (Some index)
           ∧ length index = 1.
Proof.
  intros st'.
  destruct (background_task_indexes_category Sample.load_page Sample.keep_whole
              Sample.txt_ext "2025-03-01T09:00:00Z" "doc-1" "data/uploads/doc-1_emea.txt"
              "emea.txt" "audit" "EMEA_AUDIT" Sample.started
              MultiIndexSpec.reachable_init ltac:(vm_compute; set_solver)
              ltac:(vm_compute; reflexivity))
    as (documents & index & Hload & _ & Hindex & Hlen & _).
  exists index. split; [exact Hindex|].
  rewrite Hlen. injection Hload as <-. reflexivity.
Defined.

End IngestionBehaviour.

(** ** Questions and the answer cache *)

Module QuestionBehaviour.
Import Doc Config Exec AccessControl Json Main MainSpec.

Lemma set_redis_same (st : AppState) : set_redis (redis st) st = st.
Proof. destruct st; reflexivity. Qed.

Section Questions.
Variable settings : Settings.
Variable rank : string -> list Document -> list Document.
Variable chain_invoke : string -> list LangChainOrchestrator.message -> string -> result string.
Variable uuid4 : nat -> string.
Variable engine_query : MultiIndexEngine.engine -> string -> result MultiIndexEngine.Response.
Variable round_float : pyfloat -> Z -> pyfloat.
Variable sha256_hexdigest : string -> string.

Local Notation ask_question :=
  (Main.ask_question settings rank chain_invoke uuid4 engine_query round_float
     sha256_hexdigest).
Local Notation cache_get := (CacheService.get sha256_hexdigest).

Lemma cache_get_keeps_server (cs : CacheService.t) (now : Z) (question : string)
    (c : Redis.Client) :
  (cache_get cs now question c).2 = c.
Proof.
  unfold CacheService.get. destruct (negb _); [reflexivity|].
  unfold try_except, mbind, exec_bind, bind, Redis.get, Redis.command.
  destruct (Redis.reachable c); [|reflexivity].
  destruct (Redis.data c !! _) as [e|]; [destruct (Redis.live now e)|]; reflexivity.
Qed.

(** The dict served for a cached answer. *)
Lemma ask_question_hit (elapsed_ms : pyfloat) (now : Z) (request_body : QuestionRequest)
    (request : Request) (u : user) (st : AppState) (cs : CacheService.t)
    (items : list (pykey * pyval)) :
  get_current_user request = Ok u →
  cache_service st = Some cs →
  (cache_get cs now (question request_body) (redis st)).1 = Ok (Some (PDict items)) →
  items ≠ [] →
  ask_question elapsed_ms now request_body request st
  = (Ok (PDict (PyDict.set (PyDict.set items (KStr "from_cache") (PBool true))
                  (KStr "processing_time_ms") (PFloat elapsed_ms))), st).
Proof.
  intros Huser Hcs Hhit Hitems.
  unfold Main.ask_question, mbind, exec_bind. unfold bind at 1. unfold lift. rewrite Huser.
  unfold bind at 1. unfold get at 1. rewrite Hcs.
  unfold bind at 1. unfold on_redis.
  pose proof (cache_get_keeps_server cs now (question request_body) (redis st)) as Hsame.
  destruct (cache_get cs now (question request_body) (redis st)) as [r c] eqn:Hget.
  cbn [fst snd] in Hhit, Hsame. subst r c. rewrite set_redis_same.
  cbn [truthy]. rewrite (bool_decide_eq_false_2 _ Hitems). reflexivity.
Qed.

(** A cached answer is served without asking an engine. When the
    cache holds a non-empty dict for the question, [ask_question] queries
    no engine, opens no conversation and writes nothing: the application
    is as it was. What it does is the same whatever engine was asked for
    and whoever asks, and the response, when the response model accepts
    it, is built from the cached dict with [from_cache] set to true and
    the processing time of this call. *)
Theorem cached_answer_served_without_engine (elapsed_ms : pyfloat) (now : Z)
    (request_body : QuestionRequest) (request : Request) (u : user) (st : AppState)
    (cs : CacheService.t) (items : list (pykey * pyval)) :
  get_current_user request = Ok u →
  cache_service st = Some cs →
  (cache_get cs now (question request_body) (redis st)).1 = Ok (Some (PDict items)) →
  items ≠ [] →
  let run := ask_question elapsed_ms now request_body request st in
  run.2 = st
  ∧ (∀ other_body other_request other_user,
       question other_body = question request_body →
       get_current_user other_request = Ok other_user →
       ask_question elapsed_ms now other_body other_request st = run)
  ∧ ∃ served,
      (∀ data, run.1 = Ok data → data = PDict served)
      ∧ PyDict.get served (KStr "from_cache") = Some (PBool true)
      ∧ PyDict.get served (KStr "processing_time_ms") = Some (PFloat elapsed_ms)
      ∧ ∀ k, k ≠ KStr "from_cache" → k ≠ KStr "processing_time_ms" →
          PyDict.get served k = PyDict.get items k.
Proof.
  intros Huser Hcs Hhit Hitems run.
  assert (Hrun : run = (Ok (PDict (PyDict.set (PyDict.set items (KStr "from_cache")
                                                 (PBool true))
                                     (KStr "processing_time_ms") (PFloat elapsed_ms))), st))
    by exact (ask_question_hit elapsed_ms now request_body request u st cs items
                Huser Hcs Hhit Hitems).
  rewrite Hrun. cbn [fst snd]. split; [reflexivity|]. split.
  - intros other_body other_request other_user Hquestion Hother.
    apply (ask_question_hit elapsed_ms now other_body other_request other_user st cs items
             Hother Hcs); [rewrite Hquestion; exact Hhit | exact Hitems].
  - eexists. split; [intros data [= <-]; reflexivity|].
    rewrite !PyDictFacts.get_set. split; [reflexivity|]. split.
    + rewrite bool_decide_eq_true_2 by reflexivity. reflexivity.
    + intros k Hk1 Hk2. rewrite !PyDictFacts.get_set.
      rewrite !bool_decide_eq_false_2 by congruence. reflexivity.
Qed.

(** The engine run of a standard question. *)
Lemma run_engine_standard (elapsed_ms : pyfloat) (request_body : QuestionRequest)
    (st : AppState) :
  engine request_body = STANDARD →
  ∃ r o, run_engine settings rank chain_invoke uuid4 engine_query round_float elapsed_ms
           request_body st = (r, set_orchestrator o st)
         ∧ ∀ answer sources model_used engine_name,
             r = Ok (answer, sources, model_used, engine_name) →
             forallb json_native sources = true.
Proof.
  intros Hengine. unfold run_engine. rewrite Hengine.
  unfold orchestrator_ask, mbind, exec_bind, bind, get, on_orchestrator.
  destruct (LangChainOrchestrator.ask _ _ _ _ _ _ _ _ (orchestrator st)) as [[a|e] o].
  - eexists _, o. split; [reflexivity|]. intros ? ? ? ? [= _ <- _ _].
    apply MainFacts.standard_sources_native.
  - eexists _, o. split; [reflexivity|]. discriminate.
Qed.

(** A repeated question is answered from the cache. When a standard
    question misses the cache and is answered, the same question, up to
    case and surrounding white space, asked again before the entry
    expires is served the first answer with [from_cache] set to true,
    for any requester and any engine, and leaves the application as it
    is. *)
Theorem repeated_question_served_from_cache (elapsed1 elapsed2 : pyfloat) (now later : Z)
    (body1 body2 : QuestionRequest) (request1 request2 : Request) (u1 u2 : user)
    (st st1 : AppState) (cs : CacheService.t) (data : pyval) :
  get_current_user request1 = Ok u1 →
  get_current_user request2 = Ok u2 →
  cache_service st = Some cs →
  CacheService.enabled cs = true →
  Redis.reachable (redis st) = true →
  (now ≤ later < now + CacheService.ttl cs)%Z →
  float_exact elapsed1 = true →
  engine body1 = STANDARD →
  (cache_get cs now (question body1) (redis st)).1 = Ok None →
  ask_question elapsed1 now body1 request1 st = (Ok data, st1) →
  PyStr.strip (PyStr.lower (question body2)) = PyStr.strip (PyStr.lower (question body1)) →
  ∃ items served,
    data = PDict items
    ∧ ask_question elapsed2 later body2 request2 st1 = (Ok (PDict served), st1)
    ∧ PyDict.get served (KStr "from_cache") = Some (PBool true)
    ∧ PyDict.get items (KStr "from_cache") = Some (PBool false)
    ∧ ∀ k, k ≠ KStr "from_cache" → k ≠ KStr "processing_time_ms" →
        PyDict.get served k = PyDict.get items k.
Proof.
  intros Huser1 Huser2 Hcs Henabled Hup Htime Hexact Hengine Hmiss Hfirst Hsame.
  revert Hfirst.
  unfold Main.ask_question at 1, mbind, exec_bind. unfold bind at 1. unfold lift.
  rewrite Huser1. unfold bind at 1. unfold get at 1. rewrite Hcs.
  unfold bind at 1. unfold on_redis at 1.
  pose proof (cache_get_keeps_server cs now (question body1) (redis st)) as Hkeeps.
  destruct (cache_get cs now (question body1) (redis st)) as [r c] eqn:Hget.
  cbn [fst snd] in Hmiss, Hkeeps. subst r c. rewrite set_redis_same.
  unfold bind at 1.
  destruct (run_engine_standard elapsed1 body1 st Hengine) as (r & o & Hrun & Hnative).
  rewrite Hrun. destruct r as [[[[answer sources] model_used] engine_name]|e];
    [|discriminate].
  specialize (Hnative _ _ _ _ eq_refl).
  set (response := response_data answer sources model_used engine_name elapsed1).
  assert (Hdata : json_native response = true)
    by exact (MainFacts.response_data_native _ _ _ _ _ Hnative Hexact).
  destruct (JsonFacts.loads_dumps response Hdata) as (text & Hdumps & Hloads).
  unfold bind at 1. unfold on_redis.
  rewrite (CacheFacts.set_stores sha256_hexdigest cs now (question body1) response text
             (redis (set_orchestrator o st)) Henabled Hup ltac:(lia) Hdumps).
  unfold mret, exec_ret, ret. intros [= <- <-].
  set (st1 := set_redis _ (set_orchestrator o st)).
  assert (Hhit : (cache_get cs later (question body2) (redis st1)).1
                 = Ok (Some response)).
  { rewrite (CacheFacts.get_reads sha256_hexdigest cs later (question body2) (redis st1)
               Henabled eq_refl).
    unfold CacheService._make_key. rewrite Hsame.
    cbn [fst redis st1 set_redis Redis.data]. rewrite lookup_insert_eq.
    unfold Redis.live. cbn [Redis.expires_at Redis.value].
    rewrite (proj2 (Z.ltb_lt _ _)) by lia. rewrite Hloads. reflexivity. }
  unfold response, response_data in Hhit |- *. eexists _, _. split; [reflexivity|].
  split.
  - apply (ask_question_hit elapsed2 later body2 request2 u2 st1 cs _ Huser2 Hcs Hhit).
    discriminate.
  - rewrite !PyDictFacts.get_set. split; [reflexivity|]. split; [reflexivity|].
    intros k Hk1 Hk2. rewrite !PyDictFacts.get_set.
    rewrite !bool_decide_eq_false_2 by congruence. reflexivity.
Qed.
End Questions.

Lemma cached_answer_served_without_engine_witness :
  let run :=
    Main.ask_question default_settings Sample.as_stored Sample.repeat_context
      Sample.numbered Sample.first_node_engine Sample.round_id Sample.digest
      Sample.ms_12_5 1 Cases.open_by_router Sample.viewer_request with_cached_answer in
  run.2 = with_cached_answer
  ∧ ∃ served,
      run.1 = Ok (PDict served)
      ∧ PyDict.get served (KStr "from_cache") = Some (PBool true)
      ∧ PyDict.get served (KStr "answer") = Some (PStr "Three findings are open.").
Proof.
  intros run.
  destruct (cached_answer_served_without_engine default_settings Sample.as_stored
              Sample.repeat_context Sample.numbered Sample.first_node_engine
              Sample.round_id Sample.digest Sample.ms_12_5 1 Cases.open_by_router
              Sample.viewer_request (MkUser "viewer" "Viewer" ["GLOBAL_AUDIT"])
              with_cached_answer sample_cache
              [ (KStr "answer", PStr "Three findings are open.");
                (KStr "sources", PList []);
                (KStr "model_used", PStr "gpt-4o-mini");
                (KStr "engine_used", PStr "langchain_lcel");
                (KStr "processing_time_ms", PFloat Sample.ms_12_5);
                (KStr "from_cache", PBool false);
                (KStr "trace_id", PNone) ])
    as (Hstate & _ & served & Hdata & Hflag & _ & Hrest).
  - vm_compute. reflexivity.
  - reflexivity.
  - vm_compute. reflexivity.
  - discriminate.
  - split; [exact Hstate|]. exists served.
    destruct run.1 as [data|e] eqn:Hrun; [|vm_compute in Hrun; discriminate].
    split; [rewrite (Hdata data Hrun); reflexivity|]. split; [exact Hflag|].
    rewrite Hrest by discriminate. vm_compute. reflexivity.
Defined.

Lemma repeated_question_served_from_cache_witness :
  ∃ data st1 served,
    Main.ask_question default_settings Sample.as_stored Sample.repeat_context
      Sample.numbered Sample.first_node_engine Sample.round_id Sample.digest
      Sample.ms_12_5 0 viewer_question Sample.admin_request Sample.started
    = (Ok data, st1)
    ∧ Main.ask_question default_settings Sample.as_stored Sample.repeat_context
        Sample.numbered Sample.first_node_engine Sample.round_id Sample.digest
        Sample.ms_12_5 10 Cases.viewer_question_again Sample.viewer_request st1
      = (Ok (PDict served), st1)
    ∧ PyDict.get served (KStr "from_cache") = Some (PBool true).
Proof.
  destruct (Main.ask_question default_settings Sample.as_stored Sample.repeat_context
              Sample.numbered Sample.first_node_engine Sample.round_id Sample.digest
              Sample.ms_12_5 0 viewer_question Sample.admin_request Sample.started)
    as [[data|e] st1] eqn:Hfirst; [|vm_compute in Hfirst; discriminate].
  destruct (repeated_question_served_from_cache default_settings Sample.as_stored
              Sample.repeat_context Sample.numbered Sample.first_node_engine
              Sample.round_id Sample.digest Sample.ms_12_5 Sample.ms_12_5 0 10
              viewer_question Cases.viewer_question_again
              Sample.admin_request Sample.viewer_request
              (MkUser "admin" "Admin" ["GLOBAL_AUDIT"; "APAC_AUDIT"; "EMEA_AUDIT"; "ALL"])
              (MkUser "viewer" "Viewer" ["GLOBAL_AUDIT"])
              Sample.started st1 sample_cache data)
    as (items & served & _ & Hsecond & Hflag & _).
  - vm_compute. reflexivity.
  - vm_compute. reflexivity.
  - reflexivity.
  - reflexivity.
  - reflexivity.
  - vm_compute. split; discriminate || reflexivity.
  - vm_compute. reflexivity.
  - reflexivity.
  - vm_compute. reflexivity.
  - exact Hfirst.
  - vm_compute. reflexivity.
  - exists data, st1, served. split; [reflexivity|]. split; [exact Hsecond | exact Hflag].
Defined.

End QuestionBehaviour.

(** ** From the upload to the loader *)

Module UploadBehaviour.
Import Doc Exec AccessControl PyPath Main LoaderRouter.

Lemma app_cons (c : ascii) (a b : string) : String c a +:+ b = String c (a +:+ b).
Proof. reflexivity. Qed.

Lemma app_empty (b : string) : "" +:+ b = b.
Proof. reflexivity. Qed.

Lemma has_app (p : ascii → bool) (a b : string) : has p (a +:+ b) = has p a || has p b.
Proof.
  induction a as [|c a IH]; [reflexivity|].
  rewrite app_cons. cbn [has]. rewrite IH, orb_assoc. reflexivity.
Qed.

Lemma basename_no_sep (s : string) : has is_sep s = false → basename s = s.
Proof.
  destruct s as [|c s]; [reflexivity|]. cbn [has basename]. intros Hno.
  apply orb_false_elim in Hno as [Hc Hs]. rewrite Hs, Hc. reflexivity.
Qed.

Lemma basename_app_sep (a b : string) : has is_sep b = true → basename (a +:+ b) = basename b.
Proof.
  intros Hb. induction a as [|c a IH]; [reflexivity|].
  rewrite app_cons. cbn [basename]. rewrite has_app, Hb, orb_true_r. exact IH.
Qed.

Lemma basename_sep (c : ascii) (b : string) :
  has is_sep b = false → basename (String c b) = if is_sep c then b else String c b.
Proof. intros Hb. cbn [basename]. rewrite Hb. reflexivity. Qed.

Lemma basename_after_sep (a b : string) : basename (a +:+ "/" +:+ b) = basename b.
Proof.
  destruct (has is_sep b) eqn:Hb.
  - rewrite (basename_app_sep a ("/" +:+ b)) by reflexivity.
    rewrite app_cons, app_empty. cbn [basename]. rewrite Hb. reflexivity.
  - rewrite (basename_no_sep b Hb). induction a as [|c a IH].
    + rewrite app_empty, app_cons, app_empty. rewrite (basename_sep _ _ Hb). reflexivity.
    + rewrite app_cons. cbn [basename]. rewrite has_app.
      replace (has is_sep ("/" +:+ b)) with true by reflexivity.
      rewrite orb_true_r. exact IH.
Qed.

Lemma rev_app_last (s acc r : string) (c : ascii) :
  String.rev_app s acc = String c r →
  (s = "" ∧ acc = String c r) ∨ ∃ a, s = a +:+ String c "".
Proof.
  revert acc. induction s as [|x s IH]; intros acc Hrev; [left; auto|].
  right. cbn [String.rev_app] in Hrev.
  destruct (IH _ Hrev) as [[-> [= -> _]]|[a ->]].
  - exists "". reflexivity.
  - exists (String x a). reflexivity.
Qed.

Lemma app_assoc_string (a b c : string) : (a +:+ b) +:+ c = a +:+ (b +:+ c).
Proof.
  induction a as [|x a IH]; [reflexivity|]. rewrite !app_cons, IH. reflexivity.
Qed.

Lemma basename_join (a b : string) : b ≠ "" → basename (join a b) = basename b.
Proof.
  intros Hb. unfold join. destruct b as [|c b]; [contradiction|].
  destruct (is_sep c); [reflexivity|].
  destruct (PyStr.truthy a && negb (ends_with_sep a)) eqn:Hcase.
  - apply basename_after_sep.
  - destruct a as [|x a]; [reflexivity|]. cbn [PyStr.truthy andb] in Hcase.
    apply negb_false_iff in Hcase. unfold ends_with_sep, String.rev in Hcase.
    destruct (String.rev_app (String x a) "") as [|l r] eqn:Hrev; [discriminate|].
    unfold is_sep in Hcase. apply bool_decide_eq_true_1 in Hcase. subst l.
    destruct (rev_app_last _ _ _ _ Hrev) as [[? ?]|[a0 ->]]; [discriminate|].
    rewrite app_assoc_string. apply basename_after_sep.
Qed.

Lemma basename_prefixed (j n : string) :
  basename (j +:+ "_" +:+ n)
  = if has is_sep n then basename n else basename j +:+ "_" +:+ n.
Proof.
  destruct (has is_sep n) eqn:Hn.
  - rewrite (basename_app_sep j ("_" +:+ n)) by exact Hn.
    rewrite app_cons, app_empty. cbn [basename]. rewrite Hn. reflexivity.
  - assert (Hu : has is_sep ("_" +:+ n) = false) by exact Hn.
    induction j as [|c j IH].
    + rewrite !app_empty. apply basename_no_sep, Hu.
    + rewrite app_cons. cbn [basename]. rewrite has_app, Hu, orb_false_r.
      destruct (has is_sep j); [exact IH|].
      destruct (is_sep c); [reflexivity | rewrite app_cons; reflexivity].
Qed.

Lemma from_last_dot_app (a b : string) :
  has is_dot b = true → from_last_dot (a +:+ b) = from_last_dot b.
Proof.
  intros Hb. induction a as [|c a IH]; [reflexivity|].
  rewrite app_cons. cbn [from_last_dot]. rewrite has_app, Hb, orb_true_r. exact IH.
Qed.

Lemma skip_dots_prefixed (x n : string) : ∃ x', skip_dots (x +:+ "_" +:+ n) = x' +:+ "_" +:+ n.
Proof.
  induction x as [|c x IH].
  - exists "". reflexivity.
  - rewrite app_cons. cbn [skip_dots]. destruct (is_dot c); [exact IH|].
    exists (String c x). reflexivity.
Qed.

Lemma from_last_dot_has (s : string) : from_last_dot s ≠ "" → has is_dot s = true.
Proof.
  induction s as [|c s IH]; [contradiction|]. cbn [from_last_dot has].
  destruct (has is_dot s); [intros _; apply orb_true_r|].
  destruct (is_dot c); [reflexivity | contradiction].
Qed.

Lemma has_skip_dots (s : string) : has is_dot (skip_dots s) = true → has is_dot s = true.
Proof.
  induction s as [|c s IH]; [discriminate|]. cbn [skip_dots].
  destruct (is_dot c) eqn:Hc; [|exact id].
  intros _. cbn [has]. rewrite Hc. reflexivity.
Qed.

Lemma from_last_dot_skip_dots (s : string) :
  has is_dot (skip_dots s) = true → from_last_dot (skip_dots s) = from_last_dot s.
Proof.
  induction s as [|c s IH]; [reflexivity|]. cbn [skip_dots].
  destruct (is_dot c) eqn:Hc; [|reflexivity].
  intros Hs. rewrite (IH Hs). cbn [from_last_dot].
  rewrite (has_skip_dots s Hs). reflexivity.
Qed.

(** The saved path has the extension of the uploaded name, when that
    has one. *)
Lemma splitext_ext_saved (upload_dir job_id file_name : string) :
  splitext_ext file_name ≠ "" →
  splitext_ext (join upload_dir (job_id +:+ "_" +:+ file_name)) = splitext_ext file_name.
Proof.
  intros Hext. unfold splitext_ext in *.
  rewrite basename_join by (destruct job_id; discriminate).
  rewrite basename_prefixed. destruct (has is_sep file_name) eqn:Hsep; [reflexivity|].
  rewrite (basename_no_sep file_name Hsep) in Hext |- *.
  pose proof (from_last_dot_has _ Hext) as Hdot.
  destruct (skip_dots_prefixed (basename job_id) file_name) as [x' ->].
  pose proof (has_skip_dots _ Hdot) as Hdot'.
  rewrite from_last_dot_app by exact Hdot'.
  rewrite (from_last_dot_skip_dots _ Hdot).
  rewrite app_cons, app_empty. cbn [from_last_dot]. rewrite Hdot'. reflexivity.
Qed.

Section Upload.
Variable upload_dir : string.
Variable write_file : string -> result unit.
Variable supported_listing : string.
Variable path_exists : string -> bool.
Variable read_text : string -> result string.
Variable run_loader : loader -> string -> result (list Document).

Local Notation upload_document := (Main.upload_document upload_dir write_file supported_listing).
Local Notation load_document := (LoaderRouter.load_document path_exists read_text run_loader).

(** Every upload that is accepted can be routed by the loader. When
    [upload_document] returns, the job is PENDING, the path it hands to
    the background task has the extension of the uploaded name, which is
    one of the loader's supported extensions, and [load_document] on a
    path that exists reads a txt or md file itself and hands every other
    one to the loader of its format: it never refuses the file as
    unsupported. *)
Theorem accepted_upload_is_routed (job_id : string) (request : Request)
    (file_name category access_group : string) (st st' : AppState)
    (response : IngestionResponse) (file_path : string) :
  upload_document job_id request file_name category access_group st
  = (Ok (response, file_path), st') →
  let ext := PyStr.lower (splitext_ext file_path) in
  st' = set_job job_id PENDING st
  ∧ ir_status response = PENDING
  ∧ category ∈ MultiIndexSpec.categories
  ∧ ext = PyStr.lower (splitext_ext file_name)
  ∧ ext ∈ get_supported_extensions
  ∧ (path_exists file_path = true →
       if bool_decide (ext ∈ [".txt"; ".md"])
       then load_document file_path
            = match read_text file_path with
              | Raise e => Raise e
              | Ok content =>
                  Ok [MkDocument content
                        {["source" := file_path;
                          "file_type" := PyStr.lstrip_chars "." ext]}]
              end
       else ∃ loader_func,
              PyDict.get LOADER_REGISTRY ext = Some loader_func
              ∧ load_document file_path = run_loader loader_func file_path).
Proof.
  unfold Main.upload_document, mbind, exec_bind, bind, lift.
  destruct (get_current_user request) as [u|e]; [|discriminate].
  case_bool_decide as Hsupported; cbn [negb]; [|discriminate].
  case_bool_decide as Hcategory; cbn [negb]; [|discriminate].
  destruct (write_file _) as [[]|e]; [|discriminate].
  unfold modify, mret, exec_ret, ret. intros [= <- <- <-].
  set (ext := PyStr.lower (splitext_ext (join upload_dir (job_id +:+ "_" +:+ file_name)))).
  assert (Hext : splitext_ext file_name ≠ "").
  { intros Hempty. rewrite Hempty in Hsupported. unfold supported in Hsupported.
    simpl in Hsupported. set_solver. }
  assert (Hsame : ext = PyStr.lower (splitext_ext file_name)).
  { unfold ext. rewrite splitext_ext_saved by exact Hext. reflexivity. }
  split; [reflexivity|]. split; [reflexivity|]. split; [exact Hcategory|].
  split; [exact Hsame|]. rewrite Hsame.
  set (e := PyStr.lower (splitext_ext file_name)) in *.
  assert (Hcases : e = ".pdf" ∨ e = ".docx" ∨ e = ".xlsx" ∨ e = ".pptx" ∨ e = ".txt" ∨ e = ".md").
  { unfold supported in Hsupported. set_solver. }
  split.
  - unfold get_supported_extensions, LOADER_REGISTRY. simpl.
    destruct Hcases as [He | [He | [He | [He | [He | He]]]]]; rewrite He; set_solver.
  - intros Hexists. unfold LoaderRouter.load_document. rewrite Hexists. cbn [negb].
    fold ext. rewrite Hsame.
    destruct Hcases as [He|[He|[He|[He|[He|He]]]]]; rewrite He;
      try (rewrite (bool_decide_eq_false_2 (_ ∈ [".txt"; ".md"])) by set_solver;
           eexists; split; reflexivity);
      rewrite (bool_decide_eq_true_2 (_ ∈ [".txt"; ".md"])) by set_solver; reflexivity.
Qed.
End Upload.

Lemma accepted_upload_is_routed_witness :
  ∃ response,
    Main.upload_document "data/uploads" Cases.disk_ok Cases.listing "doc-1"
      Sample.viewer_request "emea.Report.PDF" "audit" "EMEA_AUDIT" Sample.started
    = (Ok (response, "data/uploads/doc-1_emea.Report.PDF"),
       set_job "doc-1" PENDING Sample.started)
    ∧ PyStr.lower (splitext_ext "data/uploads/doc-1_emea.Report.PDF") = ".pdf"
    ∧ LoaderRouter.load_document Cases.on_disk Cases.read_nothing Cases.one_page
        "data/uploads/doc-1_emea.Report.PDF"
      = Cases.one_page load_pdf "data/uploads/doc-1_emea.Report.PDF".
Proof.
  destruct (Main.upload_document "data/uploads" Cases.disk_ok Cases.listing "doc-1"
              Sample.viewer_request "emea.Report.PDF" "audit" "EMEA_AUDIT" Sample.started)
    as [[[response file_path]|e] st'] eqn:Hupload; [|vm_compute in Hupload; discriminate].
  destruct (accepted_upload_is_routed "data/uploads" Cases.disk_ok Cases.listing
              Cases.on_disk Cases.read_nothing Cases.one_page _ _ _ _ _ _ _ _ _ Hupload)
    as (Hst & _ & _ & Hext & _ & Hload).
  assert (Hpath : file_path = "data/uploads/doc-1_emea.Report.PDF")
    by (vm_compute in Hupload; injection Hupload as _ <- _; reflexivity).
  subst file_path st'. exists response. split; [reflexivity|].
  split; [vm_compute; reflexivity|].
  specialize (Hload eq_refl).
  rewrite bool_decide_eq_false_2 in Hload by (vm_compute; set_solver).
  destruct Hload as (loader_func & Hget & Hrun).
  vm_compute in Hget. injection Hget as <-. exact Hrun.
Defined.

End UploadBehaviour.

(** ** The dashboard and the chat endpoint *)

Module DashboardBehaviour.
Import Doc Config Exec AccessControl Main DashboardSpec.

Lemma count_by_from (key : DocumentInfo → string) (docs : list DocumentInfo)
    (counts : gmap string nat) (k : string) :
  foldl (fun counts doc => <[key doc := default 0 (counts !! key doc) + 1]> counts)
    counts docs !! k
  = match occurrences key k docs with
    | 0 => counts !! k
    | S n => Some (default 0 (counts !! k) + S n)
    end.
Proof.
  revert counts. induction docs as [|doc docs IH]; intros counts; [reflexivity|].
  cbn [foldl]. rewrite IH. unfold occurrences. rewrite filter_cons.
  destruct (decide (key doc = k)) as [->|Hne].
  - rewrite lookup_insert_eq. cbn [length default from_option id].
    destruct (length (filter _ docs)); f_equal; lia.
  - rewrite lookup_insert_ne by exact Hne. reflexivity.
Qed.

Lemma count_by_lookup (key : DocumentInfo → string) (docs : list DocumentInfo) (k : string) :
  count_by key docs !! k
  = match occurrences key k docs with 0 => None | S n => Some (S n) end.
Proof.
  unfold count_by. rewrite count_by_from, lookup_empty.
  destruct (occurrences key k docs); reflexivity.
Qed.

Lemma sum_counts_insert (counts : gmap string nat) (k : string) (n : nat) :
  sum_counts (<[k := n]> counts) + default 0 (counts !! k) = sum_counts counts + n.
Proof.
  unfold sum_counts. destruct (counts !! k) as [old|] eqn:Hk.
  - rewrite (map_fold_delete_L _ 0 k old counts) by (intros; lia || exact Hk).
    rewrite <- (insert_delete_eq counts k n).
    rewrite map_fold_insert_L by (intros; lia || apply lookup_delete_eq).
    cbn [default from_option id]. lia.
  - rewrite map_fold_insert_L by (intros; lia || exact Hk).
    cbn [default from_option id]. lia.
Qed.

Lemma sum_counts_count_by (key : DocumentInfo → string) (docs : list DocumentInfo) :
  sum_counts (count_by key docs) = length docs.
Proof.
  unfold count_by.
  assert (Hgen : ∀ counts,
            sum_counts (foldl (fun counts doc =>
                                 <[key doc := default 0 (counts !! key doc) + 1]> counts)
                          counts docs)
            = sum_counts counts + length docs).
  { induction docs as [|doc docs IH]; intros counts; [simpl; lia|].
    cbn [foldl length]. rewrite IH.
    pose proof (sum_counts_insert counts (key doc) (default 0 (counts !! key doc) + 1)).
    lia. }
  rewrite Hgen. unfold sum_counts. rewrite map_fold_empty. reflexivity.
Qed.

Section Stats.
Variable settings : Settings.
Variable collections : list string.

(** The dashboard counts the registry. [get_stats] never raises,
    also when the cache server is down, and changes nothing. The total is
    the number of registered documents; a file type or a category is in
    its table exactly when a registered document has it, with the number
    of these documents, and the counts of each table add up to the
    total. *)
Theorem get_stats_counts_registry (now : Z) (st : AppState) :
  ∃ stats,
    get_stats settings collections now st = (Ok stats, st)
    ∧ total_documents stats = length (registry_values st)
    ∧ (∀ t, documents_by_type stats !! t
            = match occurrences file_type t (registry_values st) with
              | 0 => None
              | S n => Some (S n)
              end)
    ∧ (∀ c, documents_by_category stats !! c
            = match occurrences category c (registry_values st) with
              | 0 => None
              | S n => Some (S n)
              end)
    ∧ sum_counts (documents_by_type stats) = total_documents stats
    ∧ sum_counts (documents_by_category stats) = total_documents stats
    ∧ (cache_service st = None → cache_stats stats = None).
Proof.
  assert (Hsize : size (document_registry st) = length (registry_values st)).
  { unfold registry_values. rewrite length_fmap, length_map_to_list. reflexivity. }
  assert (Hrun : ∃ cache,
            get_stats settings collections now st
            = (Ok {| total_documents := size (document_registry st);
                     total_chunks := length (points st);
                     documents_by_type := count_by file_type (registry_values st);
                     documents_by_category := count_by category (registry_values st);
                     cache_stats := cache;
                     collection_names := collections |}, st)
            ∧ (cache_service st = None → cache = None)).
  { unfold get_stats, mbind, exec_bind. unfold bind at 1. unfold get at 1.
    unfold bind at 1. destruct (cache_service st) as [cs|].
    - unfold bind at 1. unfold on_redis.
      assert (Hstats : ∃ s, CacheService.get_stats settings cs now (redis st)
                            = (Ok s, redis st)).
      { unfold CacheService.get_stats. destruct (negb _); [eexists; reflexivity|].
        unfold try_except, mbind, exec_bind, bind, Redis.keys, Redis.command.
        destruct (Redis.reachable (redis st)); eexists; reflexivity. }
      destruct Hstats as [s ->]. rewrite QuestionBehaviour.set_redis_same.
      eexists. split; [reflexivity | discriminate].
    - eexists. split; reflexivity. }
  destruct Hrun as (cache & -> & Hcache). eexists. split; [reflexivity|].
  cbn [total_documents documents_by_type documents_by_category cache_stats].
  split; [exact Hsize|]. split; [intros t; apply count_by_lookup|].
  split; [intros c; apply count_by_lookup|].
  rewrite !sum_counts_count_by, Hsize. auto.
Qed.
End Stats.

Section Chat.
Variable settings : Settings.
Variable rank : string -> list Document -> list Document.
Variable chain_invoke : string -> list LangChainOrchestrator.message -> string -> result string.
Variable uuid4 : nat -> string.
Variable elapsed_ms : pyfloat.

Local Notation chat := (Main.chat settings rank chain_invoke uuid4 elapsed_ms).

(** A chat turn touches the conversations and nothing else. [chat]
    leaves the registry, the collection, the indexes, the parent store
    and the cache as they were, and does not read the cache. When it
    returns, the conversation it names holds at most five exchanges, the
    last of which is the message with the answer returned, and at most
    five sources are cited. *)
Theorem chat_records_exchange (message : string) (conversation_id : option string)
    (request : Request) (st : AppState) :
  let run := chat message conversation_id request st in
  run.2 = set_orchestrator (orchestrator run.2) st
  ∧ ∀ response, run.1 = Ok response →
      cr_engine_used response = "langchain_lcel"
      ∧ length (cr_sources response) ≤ 5
      ∧ ∃ history,
          LangChainOrchestrator.conversations (orchestrator run.2)
            !! cr_conversation_id response = Some history
          ∧ length history ≤ LangChainOrchestrator.MAX_HISTORY
          ∧ last history
            = Some (LangChainOrchestrator.MkExchange message (cr_answer response)).
Proof.
  intros run. unfold run, Main.chat, mbind, exec_bind. unfold bind at 1. unfold lift.
  destruct (get_current_user request) as [u|e].
  - unfold bind at 1. unfold orchestrator_ask_in, mbind, exec_bind, bind, get, on_orchestrator.
    destruct (LangChainOrchestrator.ask _ _ _ _ _ _ _ _ (orchestrator st))
      as [[a|e] o] eqn:Hask.
    + cbn [fst snd]. split; [destruct st; reflexivity|].
      intros response [= <-].
      cbn [cr_engine_used cr_sources cr_conversation_id cr_answer orchestrator
             set_orchestrator].
      split; [reflexivity|].
      destruct (ConversationBehaviour.ask_stores _ _ _ _ _ _ _ _ _ _ _ Hask)
        as (_ & Hstore & _).
      assert (Hhistory : ∃ history,
                LangChainOrchestrator.conversations o
                  !! LangChainOrchestrator.conversation_id a = Some history
                ∧ length history ≤ LangChainOrchestrator.MAX_HISTORY
                ∧ last history
                  = Some (LangChainOrchestrator.MkExchange message
                            (LangChainOrchestrator.answer a))).
      { rewrite Hstore. eexists. split; [apply lookup_insert_eq|].
        apply ConversationBehaviour.last_n_snoc. }
      split; [|exact Hhistory].
      rewrite length_map.
      revert Hask. rewrite ConversationBehaviour.ask_run. cbv zeta.
      destruct (LangChainOrchestrator.manage_conversation _ _ _) as [[c|?] st1];
        cbn [fst snd]; [|discriminate].
      destruct (chain_invoke _ _ _); [|discriminate]. intros [= <- _].
      cbn [LangChainOrchestrator.sources]. rewrite length_map, length_take. lia.
    + cbn [fst snd]. split; [destruct st; reflexivity | discriminate].
  - cbn [fst snd]. split; [destruct st; reflexivity | discriminate].
Qed.
End Chat.

End DashboardBehaviour.

(** ** Deletion and the parent store *)

Module ApplicationFacts.
Import Doc Config Exec AccessControl Json Main MainSpec ApplicationSpec.










End ApplicationFacts.
